(** * OpenViking: vector index consistency, tenant scoping and retrieval

    A shallow embedding of the parts of OpenViking that keep the vector index
    consistent with the URI namespace:

    - [openviking/storage/expr.py] and [CollectionAdapter._compile_filter]
      (module [Expr] and section "adapter"),
    - [VikingVectorIndexBackend] (upsert, tenant filters, delete_uris,
      update_uri_mapping),
    - [TextEmbeddingHandler.on_dequeue],
    - [VikingFS] (access gate, URI mapping, rm, mv, relation table),
    - [HierarchicalRetriever._recursive_search].

    Python dictionaries used as records are finite maps ([gmap string pyval]);
    dictionary literals whose shape matters (the filter DSL) are association
    lists in insertion order.  Exceptions are values of [exn]; stateful code
    runs in the state-and-exception monad [M] over the record [world]. *)

From Stdlib Require Import ZArith String Ascii List Bool Lia QArith.
From stdpp Require Import base option list gmap strings pretty.

Set Warnings "-register-all".

Open Scope string_scope.
Open Scope Z_scope.
Open Scope list_scope.

(** ** Python strings

    [str] values are modelled by their UTF-8 encoding, one [ascii] per byte. *)

Module Str.

Definition bytes (s : string) : list Z :=
  List.map (fun c => Z.of_N (N_of_ascii c)) (list_ascii_of_string s).

(** [len(s.encode("utf-8"))] *)
Definition byte_len (s : string) : nat := String.length s.

(** [s.startswith(p)] *)
Definition startswith (p s : string) : bool := String.prefix p s.

(** [s[n:]] on an ASCII prefix of length [n]. *)
Fixpoint drop (n : nat) (s : string) : string :=
  match n, s with
  | O, _ => s
  | S n', String _ s' => drop n' s'
  | S _, EmptyString => EmptyString
  end.

Definition is_slash (c : ascii) : bool := Ascii.eqb c "/"%char.

(** [s.lstrip("/")] *)
Fixpoint lstrip_slash (s : string) : string :=
  match s with
  | String c s' => if is_slash c then lstrip_slash s' else s
  | EmptyString => EmptyString
  end.

(** [s.rstrip("/")] *)
Fixpoint rstrip_slash (s : string) : string :=
  match s with
  | EmptyString => EmptyString
  | String c s' =>
      match rstrip_slash s' with
      | EmptyString => if is_slash c then EmptyString else String c EmptyString
      | r => String c r
      end
  end.

(** [s.strip("/")] *)
Definition strip_slash (s : string) : string := rstrip_slash (lstrip_slash s).

(** [s.endswith("/")] *)
Fixpoint endswith_slash (s : string) : bool :=
  match s with
  | EmptyString => false
  | String c EmptyString => is_slash c
  | String _ s' => endswith_slash s'
  end.

(** [s.split("/")]: never empty, the pieces contain no slash. *)
Fixpoint split_slash (s : string) : list string :=
  match s with
  | EmptyString => [EmptyString]
  | String c s' =>
      if is_slash c then EmptyString :: split_slash s'
      else match split_slash s' with
           | p :: ps => String c p :: ps
           | [] => [String c EmptyString]
           end
  end.

Definition nonempty (s : string) : bool :=
  match s with EmptyString => false | _ => true end.

(** [[p for p in s.split("/") if p]] *)
Definition segments (s : string) : list string :=
  List.filter nonempty (split_slash s).

(** ["/".join(parts)] *)
Fixpoint join_slash (parts : list string) : string :=
  match parts with
  | [] => EmptyString
  | [p] => p
  | p :: ps => p +:+ "/" +:+ join_slash ps
  end.

(** [s.replace(old, new, 1)]: the first occurrence only. *)
Fixpoint replace_first (old new s : string) : string :=
  if String.prefix old s then new +:+ drop (String.length old) s
  else match s with
       | EmptyString => EmptyString
       | String c s' => String c (replace_first old new s')
       end.

(** [sub in s] *)
Fixpoint contains (sub s : string) : bool :=
  String.prefix sub s ||
  match s with
  | EmptyString => false
  | String _ s' => contains sub s'
  end.

(** [s in l] for a list or set of strings. *)
Definition mem (s : string) (l : list string) : bool :=
  existsb (String.eqb s) l.

(** Is the byte a UTF-8 continuation byte (10xxxxxx)? *)
Definition is_continuation (c : ascii) : bool :=
  let n := N_of_ascii c in (128 <=? n)%N && (n <? 192)%N.

(** [s[:-1]]: drop the last code point of a UTF-8 encoded string. *)
Definition drop_last_char (s : string) : string :=
  let fix go (l : list ascii) : list ascii :=
    match l with
    | [] => []
    | c :: l' => if is_continuation c then go l' else l'
    end in
  string_of_list_ascii (List.rev (go (List.rev (list_ascii_of_string s)))).

End Str.

(** ** [hashlib]: MD5 (RFC 1321) and SHA-256 (FIPS 180-4) hex digests *)

Module Hashlib.

Definition w32 (x : Z) : Z := x mod 4294967296.
Definition add32 (x y : Z) : Z := w32 (x + y).
Definition not32 (x : Z) : Z := Z.lxor x 4294967295.
Definition rotl32 (x n : Z) : Z :=
  w32 (Z.lor (Z.shiftl x n) (Z.shiftr x (32 - n))).
Definition rotr32 (x n : Z) : Z := rotl32 x (32 - n).

Definition nthZ (l : list Z) (i : nat) : Z := List.nth i l 0.

(** Message padding: 0x80, zeros up to 56 mod 64, then the bit length on
    eight bytes ([le] selects the byte order of the length). *)
Definition length_bytes (le : bool) (bits : Z) : list Z :=
  let l := List.map (fun i => Z.shiftr bits (8 * Z.of_nat i) mod 256) (List.seq 0 8) in
  if le then l else List.rev l.

Definition pad (le : bool) (msg : list Z) : list Z :=
  let n := Z.of_nat (List.length msg) in
  let zeros := Z.to_nat ((55 - n) mod 64) in
  msg ++ [128] ++ List.repeat 0 zeros ++ length_bytes le (8 * n).

Fixpoint chunks (fuel : nat) (k : nat) (l : list Z) : list (list Z) :=
  match fuel, l with
  | _, [] => []
  | O, _ => []
  | S f, _ => List.firstn k l :: chunks f k (List.skipn k l)
  end.

Definition word_le (b : list Z) : Z :=
  nthZ b 0 + 256 * (nthZ b 1 + 256 * (nthZ b 2 + 256 * nthZ b 3)).
Definition word_be (b : list Z) : Z :=
  nthZ b 3 + 256 * (nthZ b 2 + 256 * (nthZ b 1 + 256 * nthZ b 0)).
Definition bytes_le (w : Z) : list Z :=
  [w mod 256; (w / 256) mod 256; (w / 65536) mod 256; (w / 16777216) mod 256].
Definition bytes_be (w : Z) : list Z := List.rev (bytes_le w).

Definition words (le : bool) (block : list Z) : list Z :=
  List.map (if le then word_le else word_be)
           (chunks 16 4 block).

Definition hex_digit (n : Z) : ascii :=
  List.nth (Z.to_nat n)
    (list_ascii_of_string "0123456789abcdef") "0"%char.

Definition hex_of_bytes (l : list Z) : string :=
  string_of_list_ascii
    (List.flat_map (fun b => [hex_digit (b / 16); hex_digit (b mod 16)]) l).

(** *** MD5 *)

Definition md5_s : list Z :=
  [7; 12; 17; 22; 7; 12; 17; 22; 7; 12; 17; 22; 7; 12; 17; 22;
   5; 9; 14; 20; 5; 9; 14; 20; 5; 9; 14; 20; 5; 9; 14; 20;
   4; 11; 16; 23; 4; 11; 16; 23; 4; 11; 16; 23; 4; 11; 16; 23;
   6; 10; 15; 21; 6; 10; 15; 21; 6; 10; 15; 21; 6; 10; 15; 21].

Definition md5_K : list Z :=
  [0xd76aa478; 0xe8c7b756; 0x242070db; 0xc1bdceee; 0xf57c0faf; 0x4787c62a;
   0xa8304613; 0xfd469501; 0x698098d8; 0x8b44f7af; 0xffff5bb1; 0x895cd7be;
   0x6b901122; 0xfd987193; 0xa679438e; 0x49b40821; 0xf61e2562; 0xc040b340;
   0x265e5a51; 0xe9b6c7aa; 0xd62f105d; 0x02441453; 0xd8a1e681; 0xe7d3fbc8;
   0x21e1cde6; 0xc33707d6; 0xf4d50d87; 0x455a14ed; 0xa9e3e905; 0xfcefa3f8;
   0x676f02d9; 0x8d2a4c8a; 0xfffa3942; 0x8771f681; 0x6d9d6122; 0xfde5380c;
   0xa4beea44; 0x4bdecfa9; 0xf6bb4b60; 0xbebfbc70; 0x289b7ec6; 0xeaa127fa;
   0xd4ef3085; 0x04881d05; 0xd9d4d039; 0xe6db99e5; 0x1fa27cf8; 0xc4ac5665;
   0xf4292244; 0x432aff97; 0xab9423a7; 0xfc93a039; 0x655b59c3; 0x8f0ccc92;
   0xffeff47d; 0x85845dd1; 0x6fa87e4f; 0xfe2ce6e0; 0xa3014314; 0x4e0811a1;
   0xf7537e82; 0xbd3af235; 0x2ad7d2bb; 0xeb86d391].

Definition md5_round (M : list Z) (st : Z * Z * Z * Z) (i : nat) : Z * Z * Z * Z :=
  let '(a, b, c, d) := st in
  let '(f, g) :=
    if (i <? 16)%nat then
      (Z.lor (Z.land b c) (Z.land (not32 b) d), i)
    else if (i <? 32)%nat then
      (Z.lor (Z.land d b) (Z.land (not32 d) c), ((5 * i + 1) mod 16)%nat)
    else if (i <? 48)%nat then
      (Z.lxor (Z.lxor b c) d, ((3 * i + 5) mod 16)%nat)
    else
      (Z.lxor c (Z.lor b (not32 d)), ((7 * i) mod 16)%nat) in
  let f' := add32 (add32 (add32 f a) (nthZ md5_K i)) (nthZ M g) in
  (d, add32 b (rotl32 f' (nthZ md5_s i)), b, c).

Definition md5_block (h : Z * Z * Z * Z) (block : list Z) : Z * Z * Z * Z :=
  let '(a0, b0, c0, d0) := h in
  let '(a, b, c, d) := List.fold_left (md5_round (words true block)) (List.seq 0 64) h in
  (add32 a0 a, add32 b0 b, add32 c0 c, add32 d0 d).

Definition md5_digest (msg : list Z) : list Z :=
  let p := pad true msg in
  let '(a, b, c, d) :=
    List.fold_left md5_block (chunks (List.length p) 64 p)
      (0x67452301, 0xefcdab89, 0x98badcfe, 0x10325476) in
  bytes_le a ++ bytes_le b ++ bytes_le c ++ bytes_le d.

(** [hashlib.md5(s.encode("utf-8")).hexdigest()] *)
Definition md5_hexdigest (s : string) : string :=
  hex_of_bytes (md5_digest (Str.bytes s)).

(** *** SHA-256 *)

(** The constants of FIPS 180-4, section 4.2.2 and 5.3.3, from their
    definition: the first 32 bits of the fractional parts of the cube roots
    (round constants) and square roots (initial hash value) of the first
    primes. *)
Definition is_prime (n : nat) : bool :=
  (2 <=? n)%nat
  && List.forallb (fun d => negb (Nat.eqb (n mod d) 0)) (List.seq 2 (n - 2)).

Definition first_primes (count : nat) : list Z :=
  List.map Z.of_nat (List.firstn count (List.filter is_prime (List.seq 2 310))).

(** The integer cube root, one bit at a time from bit [bits - 1] down. *)
Fixpoint cube_root (bits : nat) (n r : Z) : Z :=
  match bits with
  | O => r
  | S b =>
      let r' := r + Z.shiftl 1 (Z.of_nat b) in
      cube_root b n (if r' * r' * r' <=? n then r' else r)
  end.

Definition sha256_K : list Z :=
  Eval vm_compute in
    List.map (fun p => w32 (cube_root 40 (Z.shiftl p 96) 0)) (first_primes 64).

Definition sha256_H0 : list Z :=
  Eval vm_compute in
    List.map (fun p => w32 (Z.sqrt (Z.shiftl p 64))) (first_primes 8).

(** The message schedule, extended one word at a time. *)
Definition sha256_extend (w : list Z) (i : nat) : list Z :=
  let w15 := nthZ w (i - 15) in
  let w2 := nthZ w (i - 2) in
  let s0 := Z.lxor (Z.lxor (rotr32 w15 7) (rotr32 w15 18)) (Z.shiftr w15 3) in
  let s1 := Z.lxor (Z.lxor (rotr32 w2 17) (rotr32 w2 19)) (Z.shiftr w2 10) in
  w ++ [add32 (add32 (add32 (nthZ w (i - 16)) s0) (nthZ w (i - 7))) s1].

Definition sha256_schedule (block : list Z) : list Z :=
  List.fold_left sha256_extend (List.seq 16 48) (words false block).

Definition sha256_round (W : list Z) (st : list Z) (i : nat) : list Z :=
  let a := nthZ st 0 in let b := nthZ st 1 in
  let c := nthZ st 2 in let d := nthZ st 3 in
  let e := nthZ st 4 in let f := nthZ st 5 in
  let g := nthZ st 6 in let h := nthZ st 7 in
  let S1 := Z.lxor (Z.lxor (rotr32 e 6) (rotr32 e 11)) (rotr32 e 25) in
  let ch := Z.lxor (Z.land e f) (Z.land (not32 e) g) in
  let t1 := add32 (add32 (add32 (add32 h S1) ch) (nthZ sha256_K i)) (nthZ W i) in
  let S0 := Z.lxor (Z.lxor (rotr32 a 2) (rotr32 a 13)) (rotr32 a 22) in
  let maj := Z.lxor (Z.lxor (Z.land a b) (Z.land a c)) (Z.land b c) in
  let t2 := add32 S0 maj in
  [add32 t1 t2; a; b; c; add32 d t1; e; f; g].

Definition sha256_block (h : list Z) (block : list Z) : list Z :=
  let st := List.fold_left (sha256_round (sha256_schedule block)) (List.seq 0 64) h in
  List.map (fun i => add32 (nthZ h i) (nthZ st i)) (List.seq 0 8).

Definition sha256_digest (msg : list Z) : list Z :=
  let p := pad false msg in
  List.flat_map bytes_be
    (List.fold_left sha256_block (chunks (List.length p) 64 p) sha256_H0).

(** [hashlib.sha256(s.encode("utf-8")).hexdigest()] *)
Definition sha256_hexdigest (s : string) : string :=
  hex_of_bytes (sha256_digest (Str.bytes s)).

End Hashlib.

(** ** Python values *)

(** A float is kept as its IEEE-754 bit pattern: the vector index stores and
    returns embeddings, it never computes with them. *)
Inductive pyval : Type :=
| PNone
| PBool (b : bool)
| PInt (n : Z)
| PFloat (bits : Z)
| PStr (s : string)
| PList (l : list pyval)
| PDict (d : list (string * pyval)).

(** A dictionary literal, keys in insertion order. *)
Abbreviation dict := (list (string * pyval)).

(** A record of the vector index, a queue payload: [Dict[str, Any]]. *)
Abbreviation record := (gmap string pyval).

(** Python truthiness, [bool(v)]. *)
Definition truthy (v : pyval) : bool :=
  match v with
  | PNone => false
  | PBool b => b
  | PInt n => negb (n =? 0)
  | PFloat bits => negb ((bits =? 0) || (bits =? 9223372036854775808))
  | PStr s => Str.nonempty s
  | PList l => match l with [] => false | _ => true end
  | PDict d => match d with [] => false | _ => true end
  end.

(** The value can be hashed, as membership in a set requires: a list or a
    dictionary cannot. *)
Definition hashable (v : pyval) : bool :=
  match v with
  | PList _ | PDict _ => false
  | _ => true
  end.

(** [d.get(k)] with its truthiness, as in [if payload.get("id")]. *)
Definition get_truthy (d : record) (k : string) : bool :=
  match d !! k with
  | Some v => truthy v
  | None => false
  end.

(** Structural equality, [==] on values of the same type. *)
Fixpoint pyval_eqb (x y : pyval) {struct x} : bool :=
  let fix list_eqb (l1 l2 : list pyval) {struct l1} : bool :=
    match l1, l2 with
    | [], [] => true
    | a :: l1', b :: l2' => pyval_eqb a b && list_eqb l1' l2'
    | _, _ => false
    end in
  let fix dict_eqb (d1 d2 : dict) {struct d1} : bool :=
    match d1, d2 with
    | [], [] => true
    | (k1, a) :: d1', (k2, b) :: d2' =>
        String.eqb k1 k2 && pyval_eqb a b && dict_eqb d1' d2'
    | _, _ => false
    end in
  match x, y with
  | PNone, PNone => true
  | PBool a, PBool b => Bool.eqb a b
  | PInt a, PInt b => a =? b
  | PFloat a, PFloat b => a =? b
  | PStr a, PStr b => String.eqb a b
  | PList a, PList b => list_eqb a b
  | PDict a, PDict b => dict_eqb a b
  | _, _ => false
  end.

(** [key in d] / [d[key]] on a dictionary literal. *)
Fixpoint dict_get (d : dict) (k : string) : option pyval :=
  match d with
  | [] => None
  | (k', v) :: d' => if String.eqb k k' then Some v else dict_get d' k
  end.

(** ** Exceptions and the state monad *)

Inductive exn : Type :=
| CollectionNotFoundError
| PermissionError
| TypeError
| KeyError (key : string)
| RuntimeError
| IOError
| FileNotFoundError
| AGFSError (status_code : Z)
| EmbedderError.

(** A computation over state [S]: it ends in a value or in a raised
    exception, and in both cases in a state. *)
Definition M (S A : Type) : Type := S -> (exn + A) * S.

Definition ret {S A} (a : A) : M S A := fun s => (inr a, s).
Definition raise {S A} (e : exn) : M S A := fun s => (inl e, s).
Definition bind {S A B} (m : M S A) (k : A -> M S B) : M S B :=
  fun s => match m s with
           | (inr a, s') => k a s'
           | (inl e, s') => (inl e, s')
           end.
Definition get_state {S} : M S S := fun s => (inr s, s).
Definition put_state {S} (s : S) : M S unit := fun _ => (inr tt, s).
Definition modify {S} (f : S -> S) : M S unit := fun s => (inr tt, f s).

(** [try: m except Exception as e: h e] *)
Definition try_except {S A} (m : M S A) (h : exn -> M S A) : M S A :=
  fun s => match m s with
           | (inr a, s') => (inr a, s')
           | (inl e, s') => h e s'
           end.

Declare Scope py_scope.
Delimit Scope py_scope with py.
Notation "'let!' x ':=' m 'in' k" := (bind m (fun x => k))
  (at level 10, x name, m at level 100, k at level 200) : py_scope.
Notation "'do!' m 'in' k" := (bind m (fun _ => k))
  (at level 10, m at level 100, k at level 200) : py_scope.

(** [for x in xs: body x] *)
Fixpoint for_each {S A} (xs : list A) (body : A -> M S unit) : M S unit :=
  match xs with
  | [] => ret tt
  | x :: xs' => bind (body x) (fun _ => for_each xs' body)
  end.

(** ** [openviking/storage/expr.py]: the filter AST *)

Module Expr.

Inductive FilterExpr : Type :=
| And (conds : list FilterExpr)
| Or (conds : list FilterExpr)
| Eq (field : string) (value : pyval)
| In (field : string) (values : list pyval)
| Range (field : string) (gte gt lte lt : pyval)
| Contains (field : string) (substring : string)
| TimeRange (field : string) (start end_ : pyval)
| RawDSL (payload : dict).

End Expr.

Abbreviation FilterExpr := Expr.FilterExpr.

(** The argument of the adapter's filter parameter:
    [FilterExpr | Dict[str, Any] | None]. *)
Inductive filter_arg : Type :=
| FNone
| FDict (d : dict)
| FExpr (e : FilterExpr).

(** ** [CollectionAdapter._compile_filter] *)

Definition dict_truthy (d : dict) : bool :=
  match d with [] => false | _ => true end.

(** [payload[k] = v if v is not None] for the range bounds. *)
Definition set_if_not_none (k : string) (v : pyval) (d : dict) : dict :=
  match v with
  | PNone => d
  | _ => d ++ [(k, v)]
  end.

(** The [And]/[Or] case: drop empty sub-filters, unwrap a single one. *)
Definition compile_conds (op : string) (compiled : list dict) : dict :=
  match List.filter dict_truthy compiled with
  | [] => []
  | [c] => c
  | conds => [("op", PStr op); ("conds", PList (List.map PDict conds))]
  end.

Fixpoint compile_expr (expr : FilterExpr) : dict :=
  match expr with
  | Expr.RawDSL payload => payload
  | Expr.And conds => compile_conds "and" (List.map compile_expr conds)
  | Expr.Or conds => compile_conds "or" (List.map compile_expr conds)
  | Expr.Eq field value =>
      [("op", PStr "must"); ("field", PStr field); ("conds", PList [value])]
  | Expr.In field values =>
      [("op", PStr "must"); ("field", PStr field); ("conds", PList values)]
  | Expr.Range field gte gt lte lt =>
      set_if_not_none "lt" lt
        (set_if_not_none "lte" lte
           (set_if_not_none "gt" gt
              (set_if_not_none "gte" gte
                 [("op", PStr "range"); ("field", PStr field)])))
  | Expr.Contains field substring =>
      [("op", PStr "contains"); ("field", PStr field);
       ("substring", PStr substring)]
  | Expr.TimeRange field start end_ =>
      set_if_not_none "lt" end_
        (set_if_not_none "gte" start
           [("op", PStr "range"); ("field", PStr field)])
  end.

Definition _compile_filter (expr : filter_arg) : dict :=
  match expr with
  | FNone => []
  | FDict d => d
  | FExpr e => compile_expr e
  end.

(** ** Request identity ([openviking/server/identity.py]) *)

Inductive Role : Type := ROOT | ADMIN | USER.

Definition Role_eqb (a b : Role) : bool :=
  match a, b with
  | ROOT, ROOT | ADMIN, ADMIN | USER, USER => true
  | _, _ => false
  end.

(** Modelled from the spec: the request context is the immutable tuple
    [{role, account_id, user_space, agent_space}]; [user_space_name] and
    [agent_space_name] stand for [ctx.user.user_space_name()] and
    [ctx.user.agent_space_name()], whose derivation from the user identifier
    lives in [openviking_cli], outside this repository's storage layer. *)
Record RequestContext : Type := {
  role : Role;
  account_id : string;
  user_space_name : string;
  agent_space_name : string;
}.

(** ** The collection behind the adapter *)

(** [CollectionSchemas.context_collection]: the field names of the schema. *)
Definition context_collection_fields : list string :=
  ["id"; "uri"; "type"; "context_type"; "vector"; "sparse_vector";
   "created_at"; "updated_at"; "active_count"; "parent_uri"; "level";
   "name"; "description"; "tags"; "abstract"; "account_id"; "owner_space"].

(** The fields of [FieldType] [path] in that schema. *)
Definition path_fields : list string := ["uri"; "parent_uri"].

(** Modelled from the spec: the [Collection] class
    ([openviking/storage/vectordb/collection/collection.py]) is not part of
    the source tree.  A collection has the schema it was created with and
    one stored record per primary key [id]; [upsert_data] replaces the record
    of that key ("upsert(R) followed by get([R.id]) returns exactly one record
    with equal field values"). *)
Record Collection : Type := {
  coll_fields : list string;
  coll_data : gmap string record;
}.

(** Modelled from the spec: evaluation of the wire filter DSL
    [{op: "must"|"and"|"or"|"range"|"contains"|"prefix", ...}] on a stored
    record.  [must] is membership of the field's value in [conds]: the spec
    reads an [Eq] as equality ([uri == U], [parent_uri = X]).  On a [path]
    field a condition that ends with the separator names a directory and
    also matches every value that begins with it: the spec reads the
    condition [U/] on [uri] as "uri begins with U/".  The empty filter
    matches everything. *)
Definition must_match (field : string) (conds : list pyval) (r : record) : bool :=
  match r !! field with
  | None => false
  | Some v =>
      existsb (fun c =>
                 pyval_eqb c v ||
                 match c, v with
                 | PStr p, PStr s =>
                     Str.mem field path_fields && Str.endswith_slash p && String.prefix p s
                 | _, _ => false
                 end) conds
  end.

Definition bound_ok (cmp : Z -> Z -> bool) (bound : option pyval) (v : pyval) : bool :=
  match bound, v with
  | None, _ => true
  | Some (PInt b), PInt n => cmp n b
  | Some _, _ => false
  end.

Definition range_match (d : dict) (r : record) : bool :=
  match dict_get d "field" with
  | Some (PStr field) =>
      match r !! field with
      | Some v =>
          bound_ok Z.geb (dict_get d "gte") v && bound_ok Z.gtb (dict_get d "gt") v
          && bound_ok Z.leb (dict_get d "lte") v && bound_ok Z.ltb (dict_get d "lt") v
      | None => false
      end
  | _ => false
  end.

Definition text_match (test : string -> string -> bool) (key : string)
    (d : dict) (r : record) : bool :=
  match dict_get d "field", dict_get d key with
  | Some (PStr field), Some (PStr needle) =>
      match r !! field with
      | Some (PStr s) => test needle s
      | _ => false
      end
  | _, _ => false
  end.

Fixpoint dsl_match_val (f : pyval) (r : record) {struct f} : bool :=
  match f with
  | PDict d =>
      let fix conds_of (d' : dict) (all : bool) {struct d'} : bool :=
        match d' with
        | [] => all
        | (k, PList cs) :: d'' =>
            if String.eqb k "conds"
            then if all then forallb (fun c => dsl_match_val c r) cs
                 else existsb (fun c => dsl_match_val c r) cs
            else conds_of d'' all
        | _ :: d'' => conds_of d'' all
        end in
      match d with
      | [] => true
      | _ =>
          match dict_get d "op" with
          | Some (PStr op) =>
              if String.eqb op "and" then conds_of d true
              else if String.eqb op "or" then conds_of d false
              else if String.eqb op "must" then
                match dict_get d "field", dict_get d "conds" with
                | Some (PStr field), Some (PList conds) => must_match field conds r
                | _, _ => false
                end
              else if String.eqb op "range" then range_match d r
              else if String.eqb op "contains" then text_match Str.contains "substring" d r
              else if String.eqb op "prefix" then text_match String.prefix "prefix" d r
              else false
          | _ => false
          end
      end
  | _ => false
  end.

Definition dsl_match (filters : dict) (r : record) : bool :=
  dsl_match_val (PDict filters) r.

(** The primary key under which a record is stored. *)
Definition primary_key (r : record) : option string :=
  match r !! "id" with
  | Some (PStr s) => Some s
  | _ => None
  end.

(** [coll.upsert_data(data_list)] *)
Fixpoint upsert_data (data_list : list record) (c : Collection) : exn + Collection :=
  match data_list with
  | [] => inr c
  | r :: rest =>
      match primary_key r with
      | Some k =>
          upsert_data rest
            {| coll_fields := coll_fields c; coll_data := <[k := r]> (coll_data c) |}
      | None => inl TypeError
      end
  end.

(** [coll.delete_data(primary_keys)] *)
Definition delete_data (keys : list string) (c : Collection) : Collection :=
  {| coll_fields := coll_fields c;
     coll_data := List.fold_left (fun m k => delete k m) keys (coll_data c) |}.

(** [coll.fetch_data(ids)] *)
Definition fetch_data (keys : list string) (c : Collection) : list (string * record) :=
  omap (fun k => (fun r => (k, r)) <$> coll_data c !! k) keys.

(** [coll.search_by_random(index_name, limit, offset, filters)]: the stored
    records that satisfy [filters], at most [limit] of them after [offset]. *)
Definition search_by_random (limit offset : Z) (filters : dict) (c : Collection)
  : list (string * record) :=
  take (Z.to_nat limit)
    (drop (Z.to_nat offset)
       (List.filter (fun kr => dsl_match filters kr.2) (map_to_list (coll_data c)))).

(** ** The state of the process *)

(** What a file of the blob store holds.  A file written by [json.dumps] is
    kept as the document it encodes ([json.loads] of [json.dumps] is the
    identity on such documents); any other content is raw bytes. *)
Inductive blob : Type :=
| Raw (content : string)
| Json (document : pyval).

(** The mutable state the modelled code runs against.

    - [collection]: the adapter's collection handle after
      [_load_existing_collection_if_needed] ([None]: it does not exist);
    - [uuid_source], [uuid_next]: the successive results of
      [str(uuid.uuid4())];
    - [is_closing]: the backend's shutdown flag read by the embedding handler;
    - [processed_total], [error_count]: the queue counters;
    - [vector_store]: whether [VikingFS] was given a vector store;
    - [_bound_ctx]: the context bound by [bind_request_context], if any;
    - [agfs_ls], [agfs_rm], [agfs_mv]: what the blob store answers to [ls],
      [rm] and [mv] (the blob store is an external collaborator);
    - [agfs_files]: the files read and written through [agfs.read] and
      [agfs.write];
    - [now]: the value of [get_current_timestamp()]. *)
Record world : Type := {
  collection : option Collection;
  uuid_source : nat -> string;
  uuid_next : nat;
  is_closing : bool;
  processed_total : nat;
  error_count : nat;
  vector_store : bool;
  _bound_ctx : option RequestContext;
  agfs_ls : string -> exn + list (string * bool);
  agfs_rm : string -> bool -> exn + unit;
  agfs_mv : string -> string -> exn + unit;
  agfs_files : gmap string blob;
  now : string;
}.

Definition set_collection (c : option Collection) (w : world) : world :=
  {| collection := c;
     uuid_source := uuid_source w;
     uuid_next := uuid_next w;
     is_closing := is_closing w;
     processed_total := processed_total w;
     error_count := error_count w;
     vector_store := vector_store w;
     _bound_ctx := _bound_ctx w;
     agfs_ls := agfs_ls w;
     agfs_rm := agfs_rm w;
     agfs_mv := agfs_mv w;
     agfs_files := agfs_files w;
     now := now w |}.

Definition set_uuid_next (n : nat) (w : world) : world :=
  {| collection := collection w;
     uuid_source := uuid_source w;
     uuid_next := n;
     is_closing := is_closing w;
     processed_total := processed_total w;
     error_count := error_count w;
     vector_store := vector_store w;
     _bound_ctx := _bound_ctx w;
     agfs_ls := agfs_ls w;
     agfs_rm := agfs_rm w;
     agfs_mv := agfs_mv w;
     agfs_files := agfs_files w;
     now := now w |}.

Definition set_processed_total (n : nat) (w : world) : world :=
  {| collection := collection w;
     uuid_source := uuid_source w;
     uuid_next := uuid_next w;
     is_closing := is_closing w;
     processed_total := n;
     error_count := error_count w;
     vector_store := vector_store w;
     _bound_ctx := _bound_ctx w;
     agfs_ls := agfs_ls w;
     agfs_rm := agfs_rm w;
     agfs_mv := agfs_mv w;
     agfs_files := agfs_files w;
     now := now w |}.

Definition set_error_count (n : nat) (w : world) : world :=
  {| collection := collection w;
     uuid_source := uuid_source w;
     uuid_next := uuid_next w;
     is_closing := is_closing w;
     processed_total := processed_total w;
     error_count := n;
     vector_store := vector_store w;
     _bound_ctx := _bound_ctx w;
     agfs_ls := agfs_ls w;
     agfs_rm := agfs_rm w;
     agfs_mv := agfs_mv w;
     agfs_files := agfs_files w;
     now := now w |}.

Definition set_agfs_files (f : gmap string blob) (w : world) : world :=
  {| collection := collection w;
     uuid_source := uuid_source w;
     uuid_next := uuid_next w;
     is_closing := is_closing w;
     processed_total := processed_total w;
     error_count := error_count w;
     vector_store := vector_store w;
     _bound_ctx := _bound_ctx w;
     agfs_ls := agfs_ls w;
     agfs_rm := agfs_rm w;
     agfs_mv := agfs_mv w;
     agfs_files := f;
     now := now w |}.

(** The stored records of the world's collection (none without one). *)
Definition stored (w : world) : gmap string record :=
  match collection w with
  | Some c => coll_data c
  | None => ∅
  end.

(** [str(uuid.uuid4())] *)
Definition uuid4 : M world string :=
  fun w => (inr (uuid_source w (uuid_next w)), set_uuid_next (S (uuid_next w)) w).

(** Lift a pure step of the collection that may raise. *)
Definition on_collection (f : Collection -> exn + Collection) : M world unit :=
  fun w => match collection w with
           | None => (inl CollectionNotFoundError, w)
           | Some c => match f c with
                       | inr c' => (inr tt, set_collection (Some c') w)
                       | inl e => (inl e, w)
                       end
           end.

(** ** [CollectionAdapter] ([vectordb_adapters/base.py]) *)

Module CollectionAdapter.

(** [get_collection]: raises when the collection does not exist. *)
Definition get_collection : M world Collection :=
  fun w => match collection w with
           | Some c => (inr c, w)
           | None => (inl CollectionNotFoundError, w)
           end.

(** The base adapter's read hook is the identity. *)
Definition _normalize_record_for_read (r : record) : record := r.

(** [upsert(data)] for a single dictionary. *)
Definition upsert (data : record) : M world (list pyval) :=
  (let! _coll := get_collection in
   let! record_id :=
     (if get_truthy data "id"
      then ret (default PNone (data !! "id"))
      else let! u := uuid4 in ret (PStr u)) in
   let record := <["id" := record_id]> data in
   do! on_collection (upsert_data [record]) in
   ret [record_id])%py.

(** [query(filter=..., limit=..., offset=..., with_vector=...)] without a
    query vector and without [order_by]: the branch that scans the
    collection ([search_by_random]). *)
Definition query (filter : filter_arg) (limit offset : Z) (with_vector : bool)
  : M world (list record) :=
  (let! coll := get_collection in
   let vectordb_filter := _compile_filter filter in
   let result := search_by_random limit offset vectordb_filter coll in
   ret (List.map
          (fun item : string * record =>
             let record := <["_score" := PFloat 0]> (<["id" := PStr item.1]> item.2) in
             let record := _normalize_record_for_read record in
             if with_vector then record
             else delete "sparse_vector" (delete "vector" record))
          result))%py.

(** [[record["id"] for record in matched if record.get("id")]] *)
Definition matched_ids (matched : list record) : list string :=
  omap (fun r : record =>
          match r !! "id" with
          | Some (PStr s) => if Str.nonempty s then Some s else None
          | _ => None
          end) matched.

(** [delete(ids=..., filter=..., limit=100000)] *)
Definition delete (ids : list string) (filter : filter_arg) (limit : Z) : M world Z :=
  (let! _coll := get_collection in
   let! delete_ids :=
     (match ids, filter with
      | [], FNone => ret []
      | [], _ =>
          let! matched := query filter limit 0 true in
          ret (matched_ids matched)
      | _, _ => ret ids
      end) in
   match delete_ids with
   | [] => ret 0
   | _ =>
       do! on_collection (fun c => inr (delete_data delete_ids c)) in
       ret (Z.of_nat (length delete_ids))
   end)%py.

End CollectionAdapter.

(** ** [VikingVectorIndexBackend] *)

Module VikingVectorIndexBackend.

Definition ALLOWED_CONTEXT_TYPES : list string := ["resource"; "skill"; "memory"].

Definition is_none (v : pyval) : bool :=
  match v with PNone => true | _ => false end.

(** [{k: v for k, v in data.items() if k in allowed and v is not None}] *)
Definition known_fields (allowed : list string) (data : record) : record :=
  base.filter
    (fun kv : string * pyval => Str.mem kv.1 allowed = true /\ is_none kv.2 = false)
    data.

(** [_filter_known_fields]: keep the schema's fields whose value is not
    [None]; on any exception return the data unchanged. *)
Definition _filter_known_fields (data : record) : M world record :=
  try_except
    (let! coll := CollectionAdapter.get_collection in
     ret (known_fields (coll_fields coll) data))%py
    (fun _ => ret data).

(** [context_type and context_type not in self.ALLOWED_CONTEXT_TYPES];
    membership in a set hashes the value, which raises on a list or dict. *)
Definition invalid_context_type (context_type : pyval) : M world bool :=
  if truthy context_type then
    match context_type with
    | PStr s => ret (negb (Str.mem s ALLOWED_CONTEXT_TYPES))
    | PList _ | PDict _ => raise TypeError
    | _ => ret true
    end
  else ret false.

Definition upsert (data : record) : M world pyval :=
  (let payload := data in
   let context_type := default PNone (payload !! "context_type") in
   let! invalid := invalid_context_type context_type in
   if invalid then ret (PStr "")
   else
     let! payload :=
       (if get_truthy payload "id" then ret payload
        else let! u := uuid4 in ret (<["id" := PStr u]> payload)) in
     let! payload := _filter_known_fields payload in
     let! ids := CollectionAdapter.upsert payload in
     ret (match ids with i :: _ => i | [] => PStr "" end))%py.

(** [query] without query vectors: adapter errors are logged and give [[]]. *)
Definition query (filter : filter_arg) (limit offset : Z) (with_vector : bool)
  : M world (list record) :=
  try_except (CollectionAdapter.query filter limit offset with_vector)
             (fun _ => ret []).

(** [filter(filter, limit=10, offset=0)]: a query that never asks for the
    vectors ([with_vector] keeps its default [False]). *)
Definition filter (filter : filter_arg) (limit offset : Z) : M world (list record) :=
  query filter limit offset false.

(** [_tenant_filter] *)
Definition _tenant_filter (ctx : RequestContext) (context_type : option string)
  : option FilterExpr :=
  match role ctx with
  | ROOT => None
  | _ =>
      let owner_spaces := [user_space_name ctx; agent_space_name ctx] in
      let owner_spaces :=
        match context_type with
        | Some ct => if String.eqb ct "resource" then owner_spaces ++ [""] else owner_spaces
        | None => owner_spaces
        end in
      Some (Expr.And [Expr.Eq "account_id" (PStr (account_id ctx));
                      Expr.In "owner_space" (List.map PStr owner_spaces)])
  end.

(** [_merge_filters]: every filter object is truthy, so
    [non_empty] drops the [None] arguments only. *)
Definition _merge_filters (filters : list (option FilterExpr)) : option FilterExpr :=
  match omap id filters with
  | [] => None
  | [f] => Some f
  | non_empty => Some (Expr.And non_empty)
  end.

(** The [extra_filter] argument: [FilterExpr | Dict[str, Any] | None]. *)
Definition extra_filter_expr (extra_filter : filter_arg) : option FilterExpr :=
  match extra_filter with
  | FNone => None
  | FDict d => if dict_truthy d then Some (Expr.RawDSL d) else None
  | FExpr e => Some e
  end.

(** [if context_type: filters.append(Eq("context_type", context_type))] *)
Definition context_type_filter (context_type : option string) : option FilterExpr :=
  match context_type with
  | Some ct => if Str.nonempty ct then Some (Expr.Eq "context_type" (PStr ct)) else None
  | None => None
  end.

(** [if target_directories: ...]: one condition on [uri] per non-empty
    directory, under an [Or]. *)
Definition target_directories_filter (target_directories : option (list string))
  : option FilterExpr :=
  match target_directories with
  | Some dirs =>
      match List.map (fun d => Expr.In "uri" [PStr d]) (List.filter Str.nonempty dirs) with
      | [] => None
      | uri_conds => Some (Expr.Or uri_conds)
      end
  | None => None
  end.

(** [_build_scope_filter] *)
Definition _build_scope_filter (ctx : RequestContext) (context_type : option string)
    (target_directories : option (list string)) (extra_filter : filter_arg)
  : option FilterExpr :=
  _merge_filters
    [context_type_filter context_type;
     _tenant_filter ctx context_type;
     target_directories_filter target_directories;
     extra_filter_expr extra_filter].

(** The filter [search_in_tenant] hands to [search]. *)
Definition search_in_tenant_filter (ctx : RequestContext) (context_type : option string)
    (target_directories : option (list string)) (extra_filter : filter_arg)
  : option FilterExpr :=
  _build_scope_filter ctx context_type target_directories extra_filter.

(** The filter [search_global_roots_in_tenant] hands to [search] (when the
    query vector is not empty; otherwise it returns [[]] at once). *)
Definition search_global_roots_in_tenant_filter (ctx : RequestContext)
    (context_type : option string) (target_directories : option (list string))
    (extra_filter : filter_arg) : option FilterExpr :=
  _merge_filters
    [_build_scope_filter ctx context_type target_directories extra_filter;
     Some (Expr.In "level" [PInt 0; PInt 1])].

(** The filter [search_children_in_tenant] hands to [search]. *)
Definition search_children_in_tenant_filter (ctx : RequestContext) (parent_uri : string)
    (context_type : option string) (target_directories : option (list string))
    (extra_filter : filter_arg) : option FilterExpr :=
  _merge_filters
    [Some (Expr.Eq "parent_uri" (PStr parent_uri));
     _build_scope_filter ctx context_type target_directories extra_filter].

Definition opt_filter (f : option FilterExpr) : filter_arg :=
  match f with Some e => FExpr e | None => FNone end.

(** [get_context_by_uri(account_id, uri, owner_space=None, limit=1)] *)
Definition get_context_by_uri (account : string) (uri : string)
    (owner_space : option string) (limit : Z) : M world (list record) :=
  let conds := [Expr.Eq "uri" (PStr uri); Expr.Eq "account_id" (PStr account)] in
  let conds :=
    match owner_space with
    | Some s => if Str.nonempty s then conds ++ [Expr.Eq "owner_space" (PStr s)] else conds
    | None => conds
    end in
  filter (FExpr (Expr.And conds)) limit 0.

(** The filter [delete_uris] builds for one URI. *)
Definition delete_uri_filter (ctx : RequestContext) (uri : string) : FilterExpr :=
  let conds :=
    [Expr.Eq "account_id" (PStr (account_id ctx));
     Expr.Or [Expr.Eq "uri" (PStr uri); Expr.In "uri" [PStr (uri +:+ "/")]]] in
  let in_user := Str.startswith "viking://user/" uri in
  let in_agent := Str.startswith "viking://agent/" uri in
  if Role_eqb (role ctx) USER && (in_user || in_agent) then
    let owner_space := if in_user then user_space_name ctx else agent_space_name ctx in
    Expr.And (conds ++ [Expr.Eq "owner_space" (PStr owner_space)])
  else Expr.And conds.

(** [delete_uris(ctx, uris)] *)
Definition delete_uris (ctx : RequestContext) (uris : list string) : M world unit :=
  for_each uris
    (fun uri =>
       (let! _n := CollectionAdapter.delete [] (FExpr (delete_uri_filter ctx uri)) 100000 in
        ret tt)%py).

(** [update_uri_mapping(ctx, uri, new_uri, new_parent_uri)] *)
Definition update_uri_mapping (ctx : RequestContext) (uri new_uri new_parent_uri : string)
  : M world bool :=
  (let! records :=
     filter (FExpr (Expr.And [Expr.Eq "uri" (PStr uri);
                              Expr.Eq "account_id" (PStr (account_id ctx))])) 1 0 in
   match records with
   | [] => ret false
   | r0 :: _ =>
       match r0 !! "id" with
       | None => ret false
       | Some _ =>
           let updated := <["parent_uri" := PStr new_parent_uri]> (<["uri" := PStr new_uri]> r0) in
           let! rid := upsert updated in
           ret (truthy rid)
       end
   end)%py.

End VikingVectorIndexBackend.

(** ** The embedding queue: counters and [TextEmbeddingHandler] *)

(** Modelled from the spec: [named_queue.py] (the counter surface of
    [NamedQueue] and [DequeueHandlerBase]) is not part of the source tree.
    [report_success] counts the message in [processed_total], [report_error]
    in [error_count]. *)
Definition report_success : M world unit :=
  modify (fun w => set_processed_total (S (processed_total w)) w).

Definition report_error (error_msg : string) : M world unit :=
  modify (fun w => set_error_count (S (error_count w)) w).

(** [EmbedResult]: the dense vector (empty when absent) and the sparse
    term weights (empty when absent), floats by their bit patterns. *)
Record EmbedResult : Type := {
  dense_vector : list Z;
  sparse_vector : list (string * Z);
}.

(** [EmbeddingMsg {message, context_data}] *)
Record EmbeddingMsg : Type := {
  message : pyval;
  context_data : record;
}.

(** What [on_dequeue] is called with: nothing ([None] or an empty dict), a
    payload that [json.loads] or [EmbeddingMsg.from_dict] rejects, or a
    payload that parses to a message. *)
Inductive dequeued : Type :=
| NoData
| Malformed
| Payload (msg : EmbeddingMsg).

(** What [on_dequeue] returns: [None], the payload as received, or the
    record it wrote. *)
Inductive handled : Type :=
| ReturnNone
| ReturnData
| ReturnInserted (inserted_data : record).

(** [str(v)] inside an f-string, for the values whose text is determined
    without floating-point printing. *)
Definition py_str (v : pyval) : option string :=
  match v with
  | PStr s => Some s
  | PNone => Some "None"
  | PBool true => Some "True"
  | PBool false => Some "False"
  | PInt n => Some (pretty n)
  | _ => None
  end.

Module TextEmbeddingHandler.

(** The handler object: the embedder (after the lazy initialisation; an
    embedder call may raise) and the configured dimension. *)
Record t : Type := {
  _embedder : option (string -> exn + EmbedResult);
  _vector_dim : Z;
}.

Definition lift_result {A} (r : exn + A) : M world A :=
  fun w => (r, w).

(** The stable id: [hashlib.md5(f"{account_id}:{uri}".encode("utf-8")).hexdigest()]. *)
Definition stable_id (account uri : string) : string :=
  Hashlib.md5_hexdigest (account +:+ ":" +:+ uri).

(** Lines 209-213: assign the id when the record has a (truthy) uri.
    A uri or account_id that is a float, list or dict is outside the model. *)
Definition assign_id (inserted_data : record) : M world record :=
  if get_truthy inserted_data "uri" then
    match py_str (default PNone (inserted_data !! "uri")),
          py_str (default (PStr "default") (inserted_data !! "account_id")) with
    | Some uri, Some account =>
        ret (<["id" := PStr (stable_id account uri)]> inserted_data)
    | _, _ => raise TypeError
    end
  else ret inserted_data.

(** The debug line after a successful write evaluates
    [inserted_data['abstract']] and [inserted_data['vector'][:5]]. *)
Definition log_written (inserted_data : record) : M world unit :=
  match inserted_data !! "abstract" with
  | None => raise (KeyError "abstract")
  | Some _ =>
      match inserted_data !! "vector" with
      | None => raise (KeyError "vector")
      | Some (PList _) | Some (PStr _) => ret tt
      | Some _ => raise TypeError
      end
  end.

(** Lines 206-239: the write to the vector database with its handlers. *)
Definition write_to_db (inserted_data : record) : M world (option record) :=
  fun w =>
    match (let! inserted_data := assign_id inserted_data in
           let! record_id := VikingVectorIndexBackend.upsert inserted_data in
           do! (if truthy record_id then log_written inserted_data else ret tt) in
           ret inserted_data)%py w with
    | (inr r, w') => (inr (Some r), w')
    | (inl db_err, w') =>
        if is_closing w' then (do! report_success in ret None)%py w'
        else (do! report_error "db_err" in ret None)%py w'
    end.

Definition on_dequeue (self : t) (data : dequeued) : M world handled :=
  match data with
  | NoData => ret ReturnNone
  | Malformed => (do! report_error "malformed" in ret ReturnNone)%py
  | Payload embedding_msg =>
      try_except
        (let inserted_data := context_data embedding_msg in
         let! w := get_state in
         if is_closing w then (do! report_success in ret ReturnNone)
         else
           match message embedding_msg with
           | PStr text =>
               match _embedder self with
               | None => do! report_error "Embedder not initialized" in ret ReturnNone
               | Some embed =>
                   let! result := lift_result (embed text) in
                   let dense := dense_vector result in
                   let has_dense := match dense with [] => false | _ => true end in
                   let inserted_data :=
                     if has_dense
                     then <["vector" := PList (List.map PFloat dense)]> inserted_data
                     else inserted_data in
                   if has_dense && negb (Z.of_nat (length dense) =? _vector_dim self)
                   then do! report_error "Dense vector dimension mismatch" in ret ReturnNone
                   else
                     let inserted_data :=
                       match sparse_vector result with
                       | [] => inserted_data
                       | sv => <["sparse_vector" :=
                                   PDict (List.map (fun kv : string * Z => (kv.1, PFloat kv.2)) sv)]>
                                 inserted_data
                       end in
                     let! written := write_to_db inserted_data in
                     match written with
                     | None => ret ReturnNone
                     | Some r => do! report_success in ret (ReturnInserted r)
                     end
               end
           | _ => do! report_success in ret ReturnData
           end)%py
        (fun e => (do! report_error "exception" in ret ReturnNone)%py)
  end.

(** The worker hands the dequeued messages to the handler one at a time. *)
Fixpoint drain (self : t) (msgs : list dequeued) : M world unit :=
  match msgs with
  | [] => ret tt
  | d :: rest => (let! _r := on_dequeue self d in drain self rest)%py
  end.

End TextEmbeddingHandler.

(** ** [VikingFS] ([storage/viking_fs.py]) *)

Module RelationEntry.

(** The dataclass [RelationEntry]. *)
Record t : Type := {
  id : string;
  uris : list string;
  reason : string;
  created_at : string;
}.

(** Dataclass equality: field by field. *)
Definition eqb (a b : t) : bool :=
  String.eqb (id a) (id b)
  && (length (uris a) =? length (uris b))%nat
  && forallb (fun p : string * string => String.eqb p.1 p.2) (combine (uris a) (uris b))
  && String.eqb (reason a) (reason b)
  && String.eqb (created_at a) (created_at b).

Definition to_dict (e : t) : pyval :=
  PDict [("id", PStr (id e)); ("uris", PList (List.map PStr (uris e)));
         ("reason", PStr (reason e)); ("created_at", PStr (created_at e))].

Definition as_str (v : pyval) : option string :=
  match v with PStr s => Some s | _ => None end.

Definition field_names : list string := ["id"; "uris"; "reason"; "created_at"].

(** [RelationEntry.from_dict]: an unknown key or a missing [id] or [uris] is
    a [TypeError]; [reason] defaults to the empty string and [created_at] to
    the current timestamp.  Entries of the persisted format carry strings;
    any other value is rejected here. *)
Definition from_dict (timestamp : string) (data : pyval) : exn + t :=
  match data with
  | PDict d =>
      if forallb (fun kv : string * pyval => Str.mem kv.1 field_names) d then
        match dict_get d "id", dict_get d "uris" with
        | Some (PStr i), Some (PList us) =>
            match mapM as_str us,
                  match dict_get d "reason" with
                  | None => Some "" | Some v => as_str v end,
                  match dict_get d "created_at" with
                  | None => Some timestamp | Some v => as_str v end with
            | Some us', Some r, Some c =>
                inr {| id := i; uris := us'; reason := r; created_at := c |}
            | _, _, _ => inl TypeError
            end
        | _, _ => inl TypeError
        end
      else inl TypeError
  | _ => inl TypeError
  end.

End RelationEntry.

Module VikingFS.

Definition _USER_STRUCTURE_DIRS : list string := ["memories"].
Definition _AGENT_STRUCTURE_DIRS : list string :=
  ["memories"; "skills"; "instructions"; "workspaces"].
Definition _INTERNAL_DIRS : list string := ["_system"].
Definition _MAX_FILENAME_BYTES : nat := 255.

(** Modelled from the spec: [VikingURI.VALID_SCOPES] ([openviking_cli]) is
    the list of scopes of the URI grammar. *)
Definition VALID_SCOPES : list string :=
  ["resources"; "user"; "agent"; "session"; "temp"; "transactions"].

(** [_default_ctx]: the default user under the ROOT role (the space names of
    the default user are never read under that role). *)
Definition _default_ctx : RequestContext :=
  {| role := ROOT; account_id := "default";
     user_space_name := "default"; agent_space_name := "default" |}.

Definition _ctx_or_default (w : world) (ctx : option RequestContext) : RequestContext :=
  match ctx with
  | Some c => c
  | None => match _bound_ctx w with
            | Some bound => bound
            | None => _default_ctx
            end
  end.

(** [[p for p in uri[len("viking://"):].strip("/").split("/") if p]] *)
Definition uri_parts (uri : string) : list string :=
  Str.segments (Str.strip_slash (Str.drop 9 uri)).

Definition _extract_space_from_uri (uri : string) : option string :=
  if negb (Str.startswith "viking://" uri) then None
  else
    match uri_parts uri with
    | scope :: second :: _ =>
        if String.eqb scope "user" && negb (Str.mem second _USER_STRUCTURE_DIRS)
        then Some second
        else if String.eqb scope "agent" && negb (Str.mem second _AGENT_STRUCTURE_DIRS)
        then Some second
        else if String.eqb scope "session" then Some second
        else None
    | _ => None
    end.

Definition _is_accessible (uri : string) (ctx : RequestContext) : bool :=
  if Role_eqb (role ctx) ROOT then true
  else if negb (Str.startswith "viking://" uri) then false
  else
    match uri_parts uri with
    | [] => true
    | scope :: _ =>
        if Str.mem scope ["resources"; "temp"; "transactions"] then true
        else if String.eqb scope "_system" then false
        else
          match _extract_space_from_uri uri with
          | None => true
          | Some space =>
              if Str.mem scope ["user"; "session"]
              then String.eqb space (user_space_name ctx)
              else if String.eqb scope "agent"
              then String.eqb space (agent_space_name ctx)
              else true
          end
    end.

Definition _ensure_access (uri : string) (ctx : option RequestContext) : M world unit :=
  fun w =>
    if _is_accessible uri (_ctx_or_default w ctx) then (inr tt, w)
    else (inl PermissionError, w).

(** The [while] loop of [_shorten_component]: drop code points from the end
    until the prefix fits. *)
Fixpoint trim_to (fuel target : nat) (prefix : string) : string :=
  match fuel with
  | O => prefix
  | S fuel' =>
      if (target <? Str.byte_len prefix)%nat && Str.nonempty prefix
      then trim_to fuel' target (Str.drop_last_char prefix)
      else prefix
  end.

Definition _shorten_component (component : string) (max_bytes : nat) : string :=
  if (Str.byte_len component <=? max_bytes)%nat then component
  else
    let hash_suffix := String.substring 0 8 (Hashlib.sha256_hexdigest component) in
    let target := (max_bytes - Str.byte_len ("_" +:+ hash_suffix))%nat in
    let prefix := trim_to (Str.byte_len component) target component in
    prefix +:+ "_" +:+ hash_suffix.

Definition _uri_to_path (uri : string) (real_ctx : RequestContext) : string :=
  let remainder :=
    if Str.startswith "viking://" uri then Str.strip_slash (Str.drop 9 uri) else uri in
  if negb (Str.nonempty remainder) then "/local/" +:+ account_id real_ctx
  else
    let parts := Str.segments remainder in
    let safe_parts := List.map (fun p => _shorten_component p _MAX_FILENAME_BYTES) parts in
    "/local/" +:+ account_id real_ctx +:+ "/" +:+ Str.join_slash safe_parts.

Definition _path_to_uri (path : string) (real_ctx : RequestContext) : string :=
  if Str.startswith "viking://" path then path
  else if Str.startswith "/local/" path then
    let inner := Str.strip_slash (Str.drop 7 path) in
    if negb (Str.nonempty inner) then "viking://"
    else
      let parts := Str.segments inner in
      let parts :=
        match parts with
        | p0 :: rest => if String.eqb p0 (account_id real_ctx) then rest else parts
        | [] => parts
        end in
      match parts with
      | [] => "viking://"
      | _ => "viking://" +:+ Str.join_slash parts
      end
  else if Str.startswith "/" path then "viking:/" +:+ path
  else "viking://" +:+ path.

(** [_ls_entries]: the listing of the blob store, internal names removed. *)
Definition _ls_entries (w : world) (path : string) : exn + list (string * bool) :=
  match agfs_ls w path with
  | inl e => inl e
  | inr entries =>
      match Str.segments (Str.strip_slash path) with
      | [p0; _] =>
          if String.eqb p0 "local"
          then inr (List.filter (fun e : string * bool => Str.mem e.1 VALID_SCOPES) entries)
          else inr (List.filter (fun e : string * bool => negb (Str.mem e.1 _INTERNAL_DIRS)) entries)
      | _ => inr (List.filter (fun e : string * bool => negb (Str.mem e.1 _INTERNAL_DIRS)) entries)
      end
  end.

(** [s.replace("//", "/")] *)
Fixpoint collapse_slashes (s : string) : string :=
  match s with
  | String c1 (String c2 s' as t) =>
      if Str.is_slash c1 && Str.is_slash c2
      then String "/" (collapse_slashes s')
      else String c1 (collapse_slashes t)
  | _ => s
  end.

(** [_collect_uris]: the inner [_collect], whose [try] swallows every
    exception (a failed listing, or the interpreter's recursion limit, which
    is what [depth] stands for: reaching it ends the loop of the caller). *)
Fixpoint _collect (depth : nat) (w : world) (real_ctx : RequestContext)
    (recursive : bool) (p : string) : list string :=
  match _ls_entries w p with
  | inl _ => []
  | inr entries =>
      (fix loop (es : list (string * bool)) : list string :=
         match es with
         | [] => []
         | (name, isDir) :: rest =>
             if Str.mem name ["."; ".."] then loop rest
             else
               let full_path := collapse_slashes (p +:+ "/" +:+ name) in
               if isDir then
                 if recursive then
                   match depth with
                   | O => []
                   | S depth' => _collect depth' w real_ctx recursive full_path ++ loop rest
                   end
                 else loop rest
               else _path_to_uri full_path real_ctx :: loop rest
         end) entries
  end.

(** The recursion limit of the interpreter, in nested [_collect] calls. *)
Definition recursion_limit : nat := 300.

Definition _collect_uris (w : world) (path : string) (recursive : bool)
    (ctx : option RequestContext) : list string :=
  _collect recursion_limit w (_ctx_or_default w ctx) recursive path.

(** [_delete_from_vector_store]: failures are logged, never raised. *)
Definition _delete_from_vector_store (uris : list string) (ctx : option RequestContext)
  : M world unit :=
  fun w =>
    if vector_store w then
      try_except (VikingVectorIndexBackend.delete_uris (_ctx_or_default w ctx) uris)
                 (fun _ => ret tt) w
    else (inr tt, w).

(** One iteration of the loop of [_update_vector_store_uris]. *)
Definition update_one (ctx : option RequestContext) (old_base_uri new_base_uri uri : string)
  : M world unit :=
  try_except
    (let! w := get_state in
     let real_ctx := _ctx_or_default w ctx in
     let! records :=
       VikingVectorIndexBackend.get_context_by_uri (account_id real_ctx) uri None 1 in
     match records with
     | [] => ret tt
     | record :: _ =>
         match record !! "id" with
         | None => ret tt
         | Some _ =>
             let new_uri := Str.replace_first old_base_uri new_base_uri uri in
             let old_parent_uri := default (PStr "") (record !! "parent_uri") in
             let! new_parent_uri :=
               (if truthy old_parent_uri then
                  match old_parent_uri with
                  | PStr s => ret (Str.replace_first old_base_uri new_base_uri s)
                  | _ => raise TypeError
                  end
                else ret "") in
             let! _updated :=
               VikingVectorIndexBackend.update_uri_mapping real_ctx uri new_uri new_parent_uri in
             ret tt
         end
     end)%py
    (fun _ => ret tt).

Definition _update_vector_store_uris (uris : list string) (old_base new_base : string)
    (ctx : option RequestContext) : M world unit :=
  fun w =>
    if vector_store w then
      let old_base_uri := _path_to_uri old_base (_ctx_or_default w ctx) in
      let new_base_uri := _path_to_uri new_base (_ctx_or_default w ctx) in
      for_each uris (update_one ctx old_base_uri new_base_uri) w
    else (inr tt, w).

Definition agfs_rm_call (path : string) (recursive : bool) : M world unit :=
  fun w => (agfs_rm w path recursive, w).

Definition agfs_mv_call (old_path new_path : string) : M world unit :=
  fun w => (agfs_mv w old_path new_path, w).

(** [rm(uri, recursive, ctx)] *)
Definition rm (uri : string) (recursive : bool) (ctx : option RequestContext) : M world unit :=
  (do! _ensure_access uri ctx in
   let! w := get_state in
   let path := _uri_to_path uri (_ctx_or_default w ctx) in
   let target_uri := _path_to_uri path (_ctx_or_default w ctx) in
   let uris_to_delete := _collect_uris w path recursive ctx in
   let uris_to_delete := uris_to_delete ++ [target_uri] in
   do! agfs_rm_call path recursive in
   _delete_from_vector_store uris_to_delete ctx)%py.

(** [mv(old_uri, new_uri, ctx)] *)
Definition mv (old_uri new_uri : string) (ctx : option RequestContext) : M world unit :=
  (do! _ensure_access old_uri ctx in
   do! _ensure_access new_uri ctx in
   let! w := get_state in
   let old_path := _uri_to_path old_uri (_ctx_or_default w ctx) in
   let new_path := _uri_to_path new_uri (_ctx_or_default w ctx) in
   let target_uri := _path_to_uri old_path (_ctx_or_default w ctx) in
   let uris_to_move := _collect_uris w old_path true ctx ++ [target_uri] in
   try_except
     (do! agfs_mv_call old_path new_path in
      _update_vector_store_uris uris_to_move old_uri new_uri ctx)
     (fun e =>
        match e with
        | AGFSError status_code =>
            do! (if status_code =? 404
                 then _delete_from_vector_store uris_to_move ctx
                 else ret tt) in
            raise e
        | _ => raise e
        end))%py.

(** [agfs.read(path)] and [agfs.write(path, data)] *)
Definition agfs_read (path : string) : M world blob :=
  fun w => match agfs_files w !! path with
           | Some b => (inr b, w)
           | None => (inl (AGFSError 404), w)
           end.

Definition agfs_write (path : string) (b : blob) : M world unit :=
  modify (fun w => set_agfs_files (<[path := b]> (agfs_files w)) w).

(** [_read_relation_table]: a missing or unreadable file is an empty table;
    a flat list and the legacy nested form are both read. *)
Definition parse_entries (timestamp : string) (l : list pyval) : exn + list RelationEntry.t :=
  List.fold_right
    (fun v acc =>
       match RelationEntry.from_dict timestamp v, acc with
       | inr e, inr es => inr (e :: es)
       | inl x, _ => inl x
       | _, inl x => inl x
       end) (inr []) l.

Definition legacy_entries (d : dict) : exn + list pyval :=
  List.fold_right
    (fun ns acc =>
       match ns.2, acc with
       | PDict user_dict, inr rest =>
           List.fold_right
             (fun u acc' =>
                match u.2, acc' with
                | PList entry_list, inr rest' => inr (entry_list ++ rest')
                | _, _ => inl TypeError
                end) (inr rest) user_dict
       | _, _ => inl TypeError
       end) (inr []) d.

Definition _read_relation_table (dir_path : string) : M world (list RelationEntry.t) :=
  fun w =>
    match agfs_files w !! (dir_path +:+ "/.relations.json") with
    | Some (Json (PList data)) => (parse_entries (now w) data, w)
    | Some (Json (PDict data)) =>
        match legacy_entries data with
        | inr l => (parse_entries (now w) l, w)
        | inl e => (inl e, w)
        end
    | _ => (inr [], w)
    end.

Definition _write_relation_table (dir_path : string) (entries : list RelationEntry.t)
  : M world unit :=
  agfs_write (dir_path +:+ "/.relations.json")
             (Json (PList (List.map RelationEntry.to_dict entries))).

(** [next(f"link_{i}" for i in range(1, 10000) if f"link_{i}" not in existing_ids)]
    in the coroutine [link]: the [StopIteration] of the exhausted generator
    leaves the coroutine as a [RuntimeError]. *)
Definition next_link_id (existing_ids : list string) : M world string :=
  match List.find (fun i => negb (Str.mem ("link_" +:+ pretty i) existing_ids))
                  (List.seq 1 (Z.to_nat 9999)) with
  | Some i => ret ("link_" +:+ pretty i)
  | None => raise RuntimeError
  end.

(** [link(from_uri, uris, reason, ctx)] *)
Definition link (from_uri : string) (uris : list string) (reason : string)
    (ctx : option RequestContext) : M world unit :=
  (do! _ensure_access from_uri ctx in
   do! for_each uris (fun uri => _ensure_access uri ctx) in
   let! w := get_state in
   let from_path := _uri_to_path from_uri (_ctx_or_default w ctx) in
   let! entries := _read_relation_table from_path in
   let existing_ids := List.map RelationEntry.id entries in
   let! link_id := next_link_id existing_ids in
   let entries :=
     entries ++ [{| RelationEntry.id := link_id; RelationEntry.uris := uris;
                    RelationEntry.reason := reason; RelationEntry.created_at := now w |}] in
   _write_relation_table from_path entries)%py.

(** [list.remove(x)]: drop the first element equal to [x]. *)
Fixpoint remove_first {A} (eqb : A -> A -> bool) (x : A) (l : list A) : list A :=
  match l with
  | [] => []
  | y :: l' => if eqb y x then l' else y :: remove_first eqb x l'
  end.

(** The body of [unlink] after the table was read: modify, in place, the
    first entry that lists [uri]; [None] when no entry does. *)
Fixpoint unlink_entries (uri : string) (before entries : list RelationEntry.t)
  : option (list RelationEntry.t) :=
  match entries with
  | [] => None
  | entry :: rest =>
      if Str.mem uri (RelationEntry.uris entry) then
        let modified :=
          {| RelationEntry.id := RelationEntry.id entry;
             RelationEntry.uris := remove_first String.eqb uri (RelationEntry.uris entry);
             RelationEntry.reason := RelationEntry.reason entry;
             RelationEntry.created_at := RelationEntry.created_at entry |} in
        let entries' := before ++ modified :: rest in
        Some (match RelationEntry.uris modified with
              | [] => remove_first RelationEntry.eqb modified entries'
              | _ => entries'
              end)
      else unlink_entries uri (before ++ [entry]) rest
  end.

(** [unlink(from_uri, uri, ctx)] *)
Definition unlink (from_uri uri : string) (ctx : option RequestContext) : M world unit :=
  (do! _ensure_access from_uri ctx in
   do! _ensure_access uri ctx in
   let! w := get_state in
   let from_path := _uri_to_path from_uri (_ctx_or_default w ctx) in
   try_except
     (let! entries := _read_relation_table from_path in
      match unlink_entries uri [] entries with
      | None => ret tt
      | Some entries' => _write_relation_table from_path entries'
      end)
     (fun _ => raise IOError))%py.

(** [get_relation_table(uri, ctx)] *)
Definition get_relation_table (uri : string) (ctx : option RequestContext)
  : M world (list RelationEntry.t) :=
  (do! _ensure_access uri ctx in
   let! w := get_state in
   _read_relation_table (_uri_to_path uri (_ctx_or_default w ctx)))%py.

(** [read_file_bytes(uri, ctx)]: a failed read is a [FileNotFoundError]. *)
Definition read_file_bytes (uri : string) (ctx : option RequestContext) : M world blob :=
  (do! _ensure_access uri ctx in
   let! w := get_state in
   try_except (agfs_read (_uri_to_path uri (_ctx_or_default w ctx)))
              (fun _ => raise FileNotFoundError))%py.

End VikingFS.

(** ** [HierarchicalRetriever._recursive_search] *)

Module HierarchicalRetriever.

Definition MAX_CONVERGENCE_ROUNDS : nat := 3.
Definition SCORE_PROPAGATION_ALPHA : Q := 1 # 2.

(** A record returned by [search_children_in_tenant], reduced to what the
    loop reads: [r.get("uri", "")], [r.get("level")], [r.get("_score", 0)].
    Scores are rationals: the loop only adds, scales and compares them. *)
Record Hit : Type := {
  hit_uri : string;
  hit_level : option Z;
  hit_score : Q;
}.

(** The tuples [(-score, uri)] on the heap, in Python's tuple order. *)
Definition entry_ltb (a b : Q * string) : bool :=
  match Qcompare a.1 b.1 with
  | Lt => true
  | Gt => false
  | Eq => String.ltb a.2 b.2
  end.

(** [heapq.heappop]: the smallest entry and the remaining ones. *)
Fixpoint heappop (q : list (Q * string)) : option ((Q * string) * list (Q * string)) :=
  match q with
  | [] => None
  | x :: q' =>
      match heappop q' with
      | None => Some (x, [])
      | Some (m, rest) => if entry_ltb m x then Some (m, x :: rest) else Some (x, q')
      end
  end.

(** [heapq.heappush] *)
Definition heappush (q : list (Q * string)) (x : Q * string) : list (Q * string) :=
  q ++ [x].

(** The local variables of the loop, and a count of the iterations that
    query the children of a URI. *)
Record state : Type := {
  collected : list (Hit * Q);
  dir_queue : list (Q * string);
  visited : list string;
  prev_topk_uris : gset string;
  convergence_rounds : nat;
  expansions : nat;
}.

(** [sorted(collected, key=_final_score, reverse=True)]: stable. *)
Fixpoint insert_desc (x : Hit * Q) (l : list (Hit * Q)) : list (Hit * Q) :=
  match l with
  | [] => [x]
  | y :: l' => if Qle_bool x.2 y.2 then y :: insert_desc x l' else x :: l
  end.

Definition sort_desc (l : list (Hit * Q)) : list (Hit * Q) :=
  List.fold_right insert_desc [] l.

Definition passes_threshold (score_gte : bool) (effective_threshold score : Q) : bool :=
  if score_gte then Qle_bool effective_threshold score
  else negb (Qle_bool score effective_threshold).

(** The body of [for r, score in zip(results, query_scores)] for one result;
    without a rerank client the score is the vector score of the record. *)
Definition visit_result (score_gte : bool) (threshold current_score : Q)
    (st : state) (r : Hit) : state :=
  let uri := hit_uri r in
  let score := hit_score r in
  let final_score :=
    if negb (Qeq_bool current_score 0)
    then (SCORE_PROPAGATION_ALPHA * score + (1 - SCORE_PROPAGATION_ALPHA) * current_score)%Q
    else score in
  if negb (passes_threshold score_gte threshold final_score) then st
  else
    let collected' :=
      if existsb (fun c : Hit * Q => String.eqb (hit_uri c.1) uri) (collected st)
      then collected st
      else collected st ++ [(r, final_score)] in
    let is_detail :=
      match hit_level r with Some level => level =? 2 | None => false end in
    let '(queue', visited') :=
      if Str.mem uri (visited st) then (dir_queue st, visited st)
      else if is_detail then (dir_queue st, uri :: visited st)
      else (heappush (dir_queue st) ((- final_score)%Q, uri), visited st) in
    {| collected := collected'; dir_queue := queue'; visited := visited';
       prev_topk_uris := prev_topk_uris st;
       convergence_rounds := convergence_rounds st;
       expansions := expansions st |}.

(** The convergence check at the end of an iteration; the boolean says
    whether the loop breaks. *)
Definition convergence_check (limit : nat) (st : state) : state * bool :=
  let current_topk := take limit (sort_desc (collected st)) in
  let current_topk_uris : gset string :=
    list_to_set (List.map (fun c : Hit * Q => hit_uri c.1) current_topk) in
  if bool_decide (current_topk_uris = prev_topk_uris st)
     && (limit <=? size current_topk_uris)%nat
  then
    let rounds := S (convergence_rounds st) in
    ({| collected := collected st; dir_queue := dir_queue st; visited := visited st;
        prev_topk_uris := prev_topk_uris st; convergence_rounds := rounds;
        expansions := expansions st |},
     (MAX_CONVERGENCE_ROUNDS <=? rounds)%nat)
  else
    ({| collected := collected st; dir_queue := dir_queue st; visited := visited st;
        prev_topk_uris := current_topk_uris; convergence_rounds := 0%nat;
        expansions := expansions st |}, false).

(** One iteration of [while dir_queue], the heap known to be non-empty:
    the state after it and whether the loop breaks. *)
Definition iteration (search_children : string -> list Hit) (limit : nat)
    (score_gte : bool) (threshold : Q) (entry : Q * string)
    (rest : list (Q * string)) (st : state) : state * bool :=
  let current_uri := entry.2 in
  let current_score := (- entry.1)%Q in
  let st :=
    {| collected := collected st; dir_queue := rest; visited := visited st;
       prev_topk_uris := prev_topk_uris st;
       convergence_rounds := convergence_rounds st;
       expansions := expansions st |} in
  if Str.mem current_uri (visited st) then (st, false)
  else
    let st :=
      {| collected := collected st; dir_queue := dir_queue st;
         visited := current_uri :: visited st;
         prev_topk_uris := prev_topk_uris st;
         convergence_rounds := convergence_rounds st;
         expansions := S (expansions st) |} in
    match search_children current_uri with
    | [] => (st, false)
    | results =>
        convergence_check limit
          (List.fold_left (visit_result score_gte threshold current_score) results st)
    end.

(** [while dir_queue: ...], at most [fuel] iterations; [None] when the
    iterations run out before the loop ends. *)
Fixpoint search_loop (search_children : string -> list Hit) (limit : nat)
    (score_gte : bool) (threshold : Q) (fuel : nat) (st : state) : option state :=
  match heappop (dir_queue st) with
  | None => Some st
  | Some (entry, rest) =>
      match fuel with
      | O => None
      | S fuel' =>
          let '(st', stop) :=
            iteration search_children limit score_gte threshold entry rest st in
          if stop then Some st'
          else search_loop search_children limit score_gte threshold fuel' st'
      end
  end.

(** The state before the loop: every starting point is pushed. *)
Definition initial_state (starting_points : list (string * Q)) : state :=
  {| collected := [];
     dir_queue :=
       List.fold_left (fun q p => heappush q ((- p.2)%Q, p.1)) starting_points [];
     visited := [];
     prev_topk_uris := ∅;
     convergence_rounds := 0%nat;
     expansions := 0%nat |}.

(** [_recursive_search]: the candidates, and the number of child queries. *)
Definition _recursive_search (search_children : string -> list Hit)
    (starting_points : list (string * Q)) (limit : nat) (threshold : Q)
    (score_gte : bool) (fuel : nat) : option (list (Hit * Q) * nat) :=
  match search_loop search_children limit score_gte threshold fuel
          (initial_state starting_points) with
  | Some st => Some (take limit (sort_desc (collected st)), expansions st)
  | None => None
  end.

(** The URIs the search can reach: the starting points, and the URI of
    every record returned for a reachable URI. *)
Inductive reachable (search_children : string -> list Hit)
    (starting_points : list (string * Q)) : string -> Prop :=
| reach_start uri score :
    List.In (uri, score) starting_points ->
    reachable search_children starting_points uri
| reach_child parent r :
    reachable search_children starting_points parent ->
    List.In r (search_children parent) ->
    reachable search_children starting_points (hit_uri r).

End HierarchicalRetriever.

(** ** Vocabulary of the properties *)

(** [c] is a conjunct of [f]: [f] is [c], or a conjunction one of whose
    members has [c] as a conjunct. *)
Inductive conjunct_of (c : FilterExpr) : FilterExpr -> Prop :=
| conjunct_here : conjunct_of c c
| conjunct_and conds f :
    List.In f conds -> conjunct_of c f -> conjunct_of c (Expr.And conds).

(** The tenant conjunct the scoped searches carry for a non-ROOT context:
    the caller's account, and the caller's two spaces, to which the shared
    space (the empty string) is added for [resource] queries only. *)
Definition tenant_conjunct (ctx : RequestContext) (context_type : option string)
  : FilterExpr :=
  Expr.And
    [Expr.Eq "account_id" (PStr (account_id ctx));
     Expr.In "owner_space"
       (List.map PStr
          ([user_space_name ctx; agent_space_name ctx]
           ++ match context_type with
              | Some ct => if String.eqb ct "resource" then [""] else []
              | None => []
              end))].

(** The tenant conjunct as the spec words it, whatever the context type. *)
Definition tenant_conjunct_spec (ctx : RequestContext) : FilterExpr :=
  Expr.And
    [Expr.Eq "account_id" (PStr (account_id ctx));
     Expr.In "owner_space"
       (List.map PStr [user_space_name ctx; agent_space_name ctx; ""])].

(** ** The measure of the best-first loop *)

Section SearchMeasure.

Import HierarchicalRetriever.

Variable search_children : string -> list Hit.
Variable starting_points : list (string * Q).
Variable universe : list string.

(** The records that the URIs of [universe] not yet visited would still
    return, and the number of those URIs. *)
Definition weight (vis : list string) : nat :=
  list_sum (List.map (fun u => if Str.mem u vis then 0%nat
                               else length (search_children u)) universe).

Definition remaining (vis : list string) : nat :=
  list_sum (List.map (fun u => if Str.mem u vis then 0%nat else 1%nat) universe).

Definition potential (st : state) : nat :=
  (length (dir_queue st) + weight (visited st))%nat.

(** What every iteration preserves: the heap holds reachable URIs only, and
    each child query so far has used up one URI of [universe]. *)
Definition search_inv (st : state) : Prop :=
  (forall e, List.In e (dir_queue st) ->
             reachable search_children starting_points e.2)
  /\ (expansions st + remaining (visited st) <= length universe)%nat.

(** Iterations that are always enough for the loop to end. *)
Definition enough_fuel : nat :=
  (length starting_points + weight [])%nat.

End SearchMeasure.

(** ** Sample data for the closed instances *)

Definition alice_ctx : RequestContext :=
  {| role := USER; account_id := "acme";
     user_space_name := "alice"; agent_space_name := "helper" |}.

(** A world with an empty collection of the context schema, a blob store
    that lists nothing and accepts every [rm] and [mv], and a uuid source
    that counts. *)
Definition empty_collection : Collection :=
  {| coll_fields := context_collection_fields; coll_data := ∅ |}.

Definition quiet_world : world :=
  {| collection := Some empty_collection;
     uuid_source := fun n => "uuid-" +:+ pretty n;
     uuid_next := 0%nat;
     is_closing := false;
     processed_total := 0%nat;
     error_count := 0%nat;
     vector_store := true;
     _bound_ctx := None;
     agfs_ls := fun _ => inr [];
     agfs_rm := fun _ _ => inr tt;
     agfs_mv := fun _ _ => inr tt;
     agfs_files := ∅;
     now := "2026-01-01T00:00:00Z" |}.

(** The payload's [context_type] lets [upsert] through: it is absent or
    falsy, or one of the allowed strings. *)
Definition context_type_ok (data : record) : Prop :=
  match data !! "context_type" with
  | None => True
  | Some (PStr s) => s = "" \/ List.In s VikingVectorIndexBackend.ALLOWED_CONTEXT_TYPES
  | Some v => truthy v = false
  end.

(** The primary key the embedding handler gives a record:
    md5 of [account_id:uri], the account defaulting to [default]. *)
Definition record_key (r : record) : option string :=
  match r !! "uri", default (PStr "default") (r !! "account_id") with
  | Some (PStr uri), PStr account =>
      if Str.nonempty uri then Some (TextEmbeddingHandler.stable_id account uri) else None
  | _, _ => None
  end.

(** Every stored record that has a stable key is stored under it. *)
Definition keyed_by_stable_id (m : gmap string record) : Prop :=
  forall k r key, m !! k = Some r -> record_key r = Some key -> k = key.

(** A payload an ingest would send: a resource with its URI and account. *)
Definition guide_payload : record :=
  <["uri" := PStr "viking://resources/guides/x.md"]>
    (<["account_id" := PStr "acme"]>
       (<["context_type" := PStr "resource"]>
          (<["abstract" := PStr "Install instructions"]> ∅))).

(** A message the embedding handler can process to the end: a text
    message, a record with a non-empty uri, an account, an abstract and an
    acceptable context type, for which the embedder returns a non-empty
    dense vector of the configured dimension. *)
Definition embeddable (self : TextEmbeddingHandler.t) (d : dequeued) : Prop :=
  exists msg text uri account embed result,
    d = Payload msg
    /\ message msg = PStr text
    /\ context_data msg !! "uri" = Some (PStr uri) /\ uri <> ""
    /\ context_data msg !! "account_id" = Some (PStr account)
    /\ is_Some (context_data msg !! "abstract")
    /\ context_type_ok (context_data msg)
    /\ TextEmbeddingHandler._embedder self = Some embed
    /\ embed text = inr result
    /\ dense_vector result <> []
    /\ Z.of_nat (length (dense_vector result)) = TextEmbeddingHandler._vector_dim self.

(** A handler whose embedder returns the same two-dimensional vector for
    every text, and the message of the ingest above, with and without its
    abstract. *)
Definition unit_embedder : TextEmbeddingHandler.t :=
  {| TextEmbeddingHandler._embedder :=
       Some (fun _ => inr {| dense_vector := [4607182418800017408; 0];
                             sparse_vector := [] |});
     TextEmbeddingHandler._vector_dim := 2 |}.

Definition guide_msg : dequeued :=
  Payload {| message := PStr "Install: pip install ov";
             context_data := guide_payload |}.

Definition bare_msg : dequeued :=
  Payload {| message := PStr "Install: pip install ov";
             context_data :=
               <["uri" := PStr "viking://resources/guides/x.md"]>
                 (<["account_id" := PStr "acme"]>
                    (<["context_type" := PStr "resource"]> ∅)) |}.

(** The record is within what [delete_uris] deletes for [uri] on behalf of
    [ctx]: for a USER and a URI under [viking://user/] or [viking://agent/],
    its [owner_space] is the caller's space of that scope. *)
Definition in_delete_scope (ctx : RequestContext) (uri : string) (r : record) : Prop :=
  if Role_eqb (role ctx) USER
     && (Str.startswith "viking://user/" uri || Str.startswith "viking://agent/" uri)
  then r !! "owner_space"
       = Some (PStr (if Str.startswith "viking://user/" uri
                     then user_space_name ctx else agent_space_name ctx))
  else True.

(** The record lies in the subtree of [uri]: its uri is [uri] or begins
    with [uri/]. *)
Definition in_subtree (uri : string) (r : record) : Prop :=
  exists u, r !! "uri" = Some (PStr u)
            /\ (u = uri \/ String.prefix (uri +:+ "/") u = true).

(** A world whose index holds one record of account [acme] under alice's
    memories, indexed with an empty owner space. *)
Definition unowned_note : record :=
  <["id" := PStr "n1"]>
    (<["uri" := PStr "viking://user/alice/memories/n.md"]>
       (<["account_id" := PStr "acme"]>
          (<["owner_space" := PStr ""]> ∅))).

Definition unowned_world : world :=
  set_collection
    (Some {| coll_fields := context_collection_fields;
             coll_data := <["n1" := unowned_note]> ∅ |}) quiet_world.

(** A world whose index holds two records of alice: a note under her
    memories and a note beside them. *)
Definition memory_note : record :=
  <["id" := PStr "n1"]>
    (<["uri" := PStr "viking://user/alice/memories/n.md"]>
       (<["parent_uri" := PStr "viking://user/alice/memories"]>
          (<["account_id" := PStr "acme"]>
             (<["owner_space" := PStr "alice"]> ∅)))).

Definition kept_note : record :=
  <["id" := PStr "n2"]>
    (<["uri" := PStr "viking://user/alice/notes.md"]>
       (<["parent_uri" := PStr "viking://user/alice"]>
          (<["account_id" := PStr "acme"]>
             (<["owner_space" := PStr "alice"]> ∅)))).

Definition two_notes_world : world :=
  set_collection
    (Some {| coll_fields := context_collection_fields;
             coll_data := <["n1" := memory_note]> (<["n2" := kept_note]> ∅) |})
    quiet_world.

(** A world whose index holds the embedded note of alice's memories, and
    whose blob store lists the note under the memories directory. *)
Definition embedded_note : record :=
  <["vector" := PList [PFloat 4607182418800017408; PFloat 0]]>
    (<["sparse_vector" := PDict [("install", PFloat 4602678819172646912)]]>
       (<["context_type" := PStr "memory"]> memory_note)).

Definition embedded_world : world :=
  {| collection :=
       Some {| coll_fields := context_collection_fields;
               coll_data := <["n1" := embedded_note]> ∅ |};
     uuid_source := uuid_source quiet_world;
     uuid_next := 0%nat;
     is_closing := false;
     processed_total := 0%nat;
     error_count := 0%nat;
     vector_store := true;
     _bound_ctx := None;
     agfs_ls := fun path =>
                  if String.eqb path "/local/acme/user/alice/memories"
                  then inr [("n.md", false)] else inr [];
     agfs_rm := fun _ _ => inr tt;
     agfs_mv := fun _ _ => inr tt;
     agfs_files := ∅;
     now := now quiet_world |}.

(** A directory of alice whose relation table links a URI twice over: an
    entry that lists it beside another URI. *)
Definition shared_link : RelationEntry.t :=
  {| RelationEntry.id := "link_1";
     RelationEntry.uris := ["viking://resources/a"; "viking://resources/b"];
     RelationEntry.reason := "see also";
     RelationEntry.created_at := "2025-12-31T00:00:00Z" |}.

Definition linked_world : world :=
  set_agfs_files
    (<["/local/acme/resources/docs/.relations.json" :=
         Json (PList [RelationEntry.to_dict shared_link])]> ∅)
    quiet_world.

(** A small tree for the retriever: a root directory with a sub-directory
    and a file; the sub-directory holds one file. The root is given twice
    as a starting point. *)
Definition tree_children (parent : string) : list HierarchicalRetriever.Hit :=
  if String.eqb parent "viking://resources" then
    [ {| HierarchicalRetriever.hit_uri := "viking://resources/docs";
         HierarchicalRetriever.hit_level := Some 1;
         HierarchicalRetriever.hit_score := Qmake 8 10 |};
      {| HierarchicalRetriever.hit_uri := "viking://resources/readme.md";
         HierarchicalRetriever.hit_level := Some 2;
         HierarchicalRetriever.hit_score := Qmake 6 10 |} ]
  else if String.eqb parent "viking://resources/docs" then
    [ {| HierarchicalRetriever.hit_uri := "viking://resources/docs/guide.md";
         HierarchicalRetriever.hit_level := Some 2;
         HierarchicalRetriever.hit_score := Qmake 9 10 |} ]
  else [].

Definition tree_starting_points : list (string * Q) :=
  [("viking://resources", Qmake 5 10); ("viking://resources", Qmake 4 10)].

Definition tree_uris : list string :=
  [ "viking://resources"; "viking://resources/docs";
    "viking://resources/readme.md"; "viking://resources/docs/guide.md" ].

(** * Further code of the cited files *)

(** ** Path segments *)

(** A string without the separator, and a path segment: a non-empty one. *)
Fixpoint slash_free (s : string) : bool :=
  match s with
  | EmptyString => true
  | String c s' => negb (Str.is_slash c) && slash_free s'
  end.

Definition is_segment (s : string) : bool := Str.nonempty s && slash_free s.

(** [n] separators in a row. *)
Fixpoint slashes (n : nat) : string :=
  match n with
  | O => EmptyString
  | S n' => String "/" (slashes n')
  end.

(** ** [VikingFS]: reading the relations back *)

Module Relations.

(** [get_relations(uri, ctx)]: the related URIs the caller may see, in
    table order. *)
Definition get_relations (uri : string) (ctx : option RequestContext)
  : M world (list string) :=
  (let! entries := VikingFS.get_relation_table uri ctx in
   let! w := get_state in
   ret (List.flat_map
          (fun entry =>
             List.filter
               (fun related =>
                  VikingFS._is_accessible related (VikingFS._ctx_or_default w ctx))
               (RelationEntry.uris entry))
          entries))%py.

(** [relations(uri, ctx)]: the same URIs, each with the reason of its entry
    (the dictionaries [{"uri": u, "reason": entry.reason}] as pairs). *)
Definition relations (uri : string) (ctx : option RequestContext)
  : M world (list (string * string)) :=
  (do! VikingFS._ensure_access uri ctx in
   let! entries := VikingFS.get_relation_table uri ctx in
   let! w := get_state in
   ret (List.flat_map
          (fun entry =>
             List.map (fun u => (u, RelationEntry.reason entry))
               (List.filter
                  (fun u =>
                     VikingFS._is_accessible u (VikingFS._ctx_or_default w ctx))
                  (RelationEntry.uris entry)))
          entries))%py.

End Relations.

(** ** [HierarchicalRetriever]: the starting points *)

(** The members of [ContextType] that the retriever names. *)
Inductive ContextType : Type := MEMORY | RESOURCE | SKILL.

(** [_get_root_uris_for_type(context_type, ctx)] *)
Definition _get_root_uris_for_type (context_type : option ContextType)
    (ctx : option RequestContext) : list string :=
  match ctx with
  | None => []
  | Some ctx =>
      if Role_eqb (role ctx) ROOT then []
      else
        let user_space := user_space_name ctx in
        let agent_space := agent_space_name ctx in
        match context_type with
        | None =>
            [ "viking://user/" +:+ user_space +:+ "/memories";
              "viking://agent/" +:+ agent_space +:+ "/memories";
              "viking://resources";
              "viking://agent/" +:+ agent_space +:+ "/skills" ]
        | Some MEMORY =>
            [ "viking://user/" +:+ user_space +:+ "/memories";
              "viking://agent/" +:+ agent_space +:+ "/memories" ]
        | Some RESOURCE => [ "viking://resources" ]
        | Some SKILL => [ "viking://agent/" +:+ agent_space +:+ "/skills" ]
        end
  end.

(** ** Sample data for the closed instances of the further properties *)

(** A relation table whose only entry carries a key that [RelationEntry]
    does not have. *)
Definition broken_table_world : world :=
  set_agfs_files
    (<["/local/acme/resources/docs/.relations.json" :=
         Json (PList [PDict [("id", PStr "link_1"); ("uris", PList []);
                             ("note", PStr "x")]])]> ∅)
    quiet_world.

(** ** [CollectionAdapter.get] and the id-based operations of the backend *)

Module VectorOps.

(** [CollectionAdapter.get(ids)]: the records that [fetch_data] finds, each
    with its id put back under ["id"]. *)
Definition adapter_get (ids : list string) : M world (list record) :=
  (let! coll := CollectionAdapter.get_collection in
   let result := fetch_data ids coll in
   ret (List.map
          (fun item : string * record =>
             CollectionAdapter._normalize_record_for_read (<["id" := PStr item.1]> item.2))
          result))%py.

(** [VikingVectorIndexBackend.get(ids)]: errors are logged and give [[]]. *)
Definition get (ids : list string) : M world (list record) :=
  try_except (adapter_get ids) (fun _ => ret []).

(** [VikingVectorIndexBackend.delete(ids)]: errors are logged and give [0]. *)
Definition delete (ids : list string) : M world Z :=
  try_except (CollectionAdapter.delete ids FNone 100000) (fun _ => ret 0).

(** [VikingVectorIndexBackend.exists(id)] *)
Definition exists_ (id : string) : M world bool :=
  try_except
    (let! records := get [id] in
     ret (0 <? Z.of_nat (length records)))%py
    (fun _ => ret false).

(** [VikingVectorIndexBackend.delete_account_data(account_id)] *)
Definition delete_account_data (account : string) : M world Z :=
  CollectionAdapter.delete [] (FExpr (Expr.Eq "account_id" (PStr account))) 100000.

End VectorOps.

(** A blob store that has lost the source directory: every [mv] answers
    404, every [rm] succeeds. *)
Definition lost_source_world : world :=
  {| collection := collection two_notes_world;
     uuid_source := uuid_source two_notes_world;
     uuid_next := uuid_next two_notes_world;
     is_closing := false;
     processed_total := 0%nat;
     error_count := 0%nat;
     vector_store := true;
     _bound_ctx := None;
     agfs_ls := agfs_ls two_notes_world;
     agfs_rm := fun _ _ => inr tt;
     agfs_mv := fun _ _ => inl (AGFSError 404);
     agfs_files := agfs_files two_notes_world;
     now := now two_notes_world |}.

(** A blob store that refuses every removal. *)
Definition read_only_world : world :=
  {| collection := collection two_notes_world;
     uuid_source := uuid_source two_notes_world;
     uuid_next := uuid_next two_notes_world;
     is_closing := false;
     processed_total := 0%nat;
     error_count := 0%nat;
     vector_store := true;
     _bound_ctx := None;
     agfs_ls := agfs_ls two_notes_world;
     agfs_rm := fun _ _ => inl (AGFSError 403);
     agfs_mv := fun _ _ => inl (AGFSError 403);
     agfs_files := agfs_files two_notes_world;
     now := now two_notes_world |}.

(** A process whose collection was never created. *)
Definition no_collection_world : world := set_collection None quiet_world.

(** ** Vocabulary of the further properties *)

(** A computation that touches neither queue counter. *)
Definition keeps_counters {A : Type} (m : M world A) : Prop :=
  forall w, processed_total (m w).2 = processed_total w
            /\ error_count (m w).2 = error_count w.

(** The messages a queue has accounted for. *)
Definition accounted (w : world) : nat := (processed_total w + error_count w)%nat.

(** The message of [guide_msg]. *)
Definition guide_embedding : EmbeddingMsg :=
  {| message := PStr "Install: pip install ov"; context_data := guide_payload |}.

(** ** [HierarchicalRetriever._merge_starting_points] *)

(** The point a global result contributes: [(r["uri"], r["_score"])]; a
    missing key is a [KeyError], and a URI that cannot be hashed a
    [TypeError] (it is added to the set [seen]). *)
Definition global_point (r : record) : exn + (pyval * pyval) :=
  match r !! "uri" with
  | None => inl (KeyError "uri")
  | Some u =>
      match r !! "_score" with
      | None => inl (KeyError "_score")
      | Some s =>
          match u with
          | PList _ | PDict _ => inl TypeError
          | _ => inr (u, s)
          end
      end
  end.

Fixpoint global_points (global_results : list record) : exn + list (pyval * pyval) :=
  match global_results with
  | [] => inr []
  | r :: rest =>
      match global_point r with
      | inl e => inl e
      | inr p =>
          match global_points rest with
          | inl e => inl e
          | inr ps => inr (p :: ps)
          end
      end
  end.

(** The loop over [root_uris]: a root that is not in [seen] becomes a point
    of score [0.0] and is added to [seen]. *)
Fixpoint root_points (seen : list pyval) (root_uris : list string)
  : list (pyval * pyval) :=
  match root_uris with
  | [] => []
  | uri :: rest =>
      if existsb (pyval_eqb (PStr uri)) seen then root_points seen rest
      else (PStr uri, PFloat 0) :: root_points (PStr uri :: seen) rest
  end.

(** [_merge_starting_points(query, root_uris, global_results)], without a
    rerank client (the retriever never has one). *)
Definition _merge_starting_points (root_uris : list string)
    (global_results : list record) : exn + list (pyval * pyval) :=
  match global_points global_results with
  | inl e => inl e
  | inr points => inr (points ++ root_points (List.map fst points) root_uris)
  end.

(** A global result for the resources root, scored 0.8. *)
Definition resources_hit : record :=
  <["uri" := PStr "viking://resources"]> (<["_score" := PFloat 4605380978949069210]> ∅).

(** ** [VikingVectorIndexBackend.increment_active_count] *)

Section ActiveCount.

(** The builtin [int(x)], for the truthy values of [active_count] that
    [get] may return; whatever it answers or raises is what the code uses. *)
Variable py_int : pyval -> exn + Z.

(** One iteration of the loop: [True] when the record was written. *)
Definition increment_one (ctx : RequestContext) (uri : string) : M world bool :=
  (let! records :=
     VikingVectorIndexBackend.get_context_by_uri (account_id ctx) uri None 1 in
   match records with
   | [] => ret false
   | record :: _ =>
       let value := default (PInt 0) (record !! "active_count") in
       let! current :=
         (fun w => (if truthy value then py_int value else inr 0, w)) in
       let record := <["active_count" := PInt (current + 1)]> record in
       let! rid := VikingVectorIndexBackend.upsert record in
       ret (truthy rid)
   end)%py.

(** [increment_active_count(ctx, uris)]: how many records were written. *)
Fixpoint increment_active_count (ctx : RequestContext) (uris : list string)
  : M world Z :=
  match uris with
  | [] => ret 0
  | uri :: rest =>
      (let! written := increment_one ctx uri in
       let! updated := increment_active_count ctx rest in
       ret ((if written then 1 else 0) + updated))%py
  end.

End ActiveCount.

(** What a rewrite leaves in the store: every key holds what it held, or a
    record without embeddings. *)
Definition rewritten_bare (w w' : world) : Prop :=
  forall k, stored w' !! k = stored w !! k
            \/ exists r, stored w' !! k = Some r
                         /\ r !! "vector" = None /\ r !! "sparse_vector" = None.

(** ** The hosted adapters ([volcengine_adapter.py], [vikingdb_private_adapter.py]) *)

Module HostedAdapter.

(** One round of the loop of [_normalize_record_for_read]: a string that
    does not start with [viking://] and is more than slashes is replaced by
    [viking://] followed by the string stripped of its outer slashes. *)
Definition normalize_key (key : string) (r : record) : record :=
  match r !! key with
  | Some (PStr value) =>
      if negb (Str.startswith "viking://" value) then
        let stripped := Str.strip_slash value in
        if Str.nonempty stripped
        then <[key := PStr ("viking://" +:+ stripped)]> r
        else r
      else r
  | _ => r
  end.

(** [_normalize_record_for_read(record)] *)
Definition _normalize_record_for_read (r : record) : record :=
  List.fold_left (fun r key => normalize_key key r) ["uri"; "parent_uri"] r.

(** The value a path field holds after one round of the loop. *)
Definition normalized (v : pyval) : pyval :=
  match v with
  | PStr value =>
      if Str.startswith "viking://" value then v
      else if Str.nonempty (Str.strip_slash value)
           then PStr ("viking://" +:+ Str.strip_slash value)
           else v
  | _ => v
  end.

End HostedAdapter.

(** ** Sample data: what the conditions of the subtree purge are for *)

(** Alice's memory note, indexed under the empty id. *)
Definition empty_id_world : world :=
  set_collection
    (Some {| coll_fields := context_collection_fields;
             coll_data := <[EmptyString := <["id" := PStr EmptyString]> memory_note]> ∅ |})
    quiet_world.

(** The index of [two_notes_world] in a [VikingFS] that was given no vector
    store. *)
Definition no_store_world : world :=
  {| collection := collection two_notes_world;
     uuid_source := uuid_source two_notes_world;
     uuid_next := uuid_next two_notes_world;
     is_closing := false;
     processed_total := 0%nat;
     error_count := 0%nat;
     vector_store := false;
     _bound_ctx := None;
     agfs_ls := agfs_ls two_notes_world;
     agfs_rm := agfs_rm two_notes_world;
     agfs_mv := agfs_mv two_notes_world;
     agfs_files := agfs_files two_notes_world;
     now := now two_notes_world |}.

(** A record of alice indexed under a URI with a doubled separator. *)
Definition doubled_slash_note : record :=
  <["id" := PStr "n3"]>
    (<["uri" := PStr "viking://user/alice//memories"]>
       (<["account_id" := PStr "acme"]>
          (<["owner_space" := PStr "alice"]> ∅))).

Definition doubled_slash_world : world :=
  set_collection
    (Some {| coll_fields := context_collection_fields;
             coll_data := <["n3" := doubled_slash_note]> ∅ |})
    quiet_world.

(** An index of 100001 records of account [acme], all of them for the
    resource [viking://resources/a], under the ids [r0], [r1], ... *)
Definition crowd_note (n : nat) : record :=
  <["id" := PStr ("r" +:+ pretty n)]>
    (<["uri" := PStr "viking://resources/a"]>
       (<["account_id" := PStr "acme"]> ∅)).

Definition crowd : Collection :=
  {| coll_fields := context_collection_fields;
     coll_data :=
       list_to_map
         ((fun n : nat => ("r" +:+ pretty n, crowd_note n)) <$> seq 0 (Z.to_nat 100001)) |}.

Definition crowd_world : world := set_collection (Some crowd) quiet_world.

(** * Lemmas on strings *)

(** ** Strings and path segments *)

Lemma append_cons (c : ascii) (a b : string) : String c a +:+ b = String c (a +:+ b).
Proof. reflexivity. Qed.

Lemma append_nil_l (s : string) : EmptyString +:+ s = s.
Proof. reflexivity. Qed.

Lemma append_nil_r (s : string) : s +:+ EmptyString = s.
Proof.
  induction s as [|c s IH]; [reflexivity|]. now rewrite append_cons, IH.
Qed.

Lemma append_assoc (a b c : string) : (a +:+ b) +:+ c = a +:+ (b +:+ c).
Proof.
  induction a as [|x a IH]; [reflexivity|]. now rewrite !append_cons, IH.
Qed.

Lemma split_slash_cons (s : string) : exists p ps, Str.split_slash s = p :: ps.
Proof.
  induction s as [|c s (p & ps & IH)]; cbn; [eauto|].
  destruct (Str.is_slash c); [eauto|]. rewrite IH. eauto.
Qed.

Lemma split_slash_app (a b : string) :
  Str.split_slash (a +:+ String "/" b) = Str.split_slash a ++ Str.split_slash b.
Proof.
  induction a as [|c a IH]; [reflexivity|].
  rewrite append_cons. cbn [Str.split_slash].
  destruct (Str.is_slash c); rewrite IH; [reflexivity|].
  destruct (split_slash_cons a) as (p & ps & ->). reflexivity.
Qed.

Lemma segments_app (a b : string) :
  Str.segments (a +:+ String "/" b) = Str.segments a ++ Str.segments b.
Proof. unfold Str.segments. now rewrite split_slash_app, List.filter_app. Qed.

Lemma split_slash_free (s : string) : slash_free s = true -> Str.split_slash s = [s].
Proof.
  induction s as [|c s IH]; cbn; [reflexivity|].
  destruct (Str.is_slash c); cbn; [discriminate|]. intros H. now rewrite IH.
Qed.

Lemma segments_segment (s : string) : is_segment s = true -> Str.segments s = [s].
Proof.
  unfold is_segment, Str.segments. intros [Hn Hf]%andb_prop.
  rewrite (split_slash_free s Hf). cbn. now rewrite Hn.
Qed.

Lemma segments_slash_free (s : string) :
  slash_free s = true -> Str.segments s = if Str.nonempty s then [s] else [].
Proof.
  unfold Str.segments. intros Hf. rewrite (split_slash_free s Hf). reflexivity.
Qed.

Lemma segments_nil : Str.segments EmptyString = [].
Proof. reflexivity. Qed.

Lemma segments_slashes (n : nat) : Str.segments (slashes n) = [].
Proof.
  induction n as [|n IH]; [reflexivity|].
  change (slashes (S n)) with (EmptyString +:+ String "/" (slashes n)).
  now rewrite segments_app, IH.
Qed.

Lemma segments_app_slashes (x : string) (n : nat) :
  Str.segments (x +:+ slashes n) = Str.segments x.
Proof.
  destruct n as [|n]; [now rewrite append_nil_r|].
  change (slashes (S n)) with (String "/" (slashes n)).
  now rewrite segments_app, segments_slashes, app_nil_r.
Qed.

Lemma segments_slashes_app (n : nat) (x : string) :
  Str.segments (slashes n +:+ x) = Str.segments x.
Proof.
  induction n as [|n IH]; [reflexivity|].
  change (slashes (S n) +:+ x) with (EmptyString +:+ String "/" (slashes n +:+ x)).
  now rewrite segments_app, IH.
Qed.

Lemma lstrip_slash_decomp (s : string) :
  exists n, s = slashes n +:+ Str.lstrip_slash s.
Proof.
  induction s as [|c s [n IH]]; [now exists 0%nat|].
  cbn [Str.lstrip_slash]. destruct (Str.is_slash c) eqn:E.
  - exists (S n). apply Ascii.eqb_eq in E as ->.
    change (slashes (S n) +:+ Str.lstrip_slash s)
      with (String "/" (slashes n +:+ Str.lstrip_slash s)).
    now rewrite <- IH.
  - now exists 0%nat.
Qed.

Lemma rstrip_slash_decomp (s : string) :
  exists n, s = Str.rstrip_slash s +:+ slashes n.
Proof.
  induction s as [|c s [n IH]]; [now exists 0%nat|].
  cbn [Str.rstrip_slash]. destruct (Str.rstrip_slash s) as [|c' r] eqn:Er.
  - rewrite append_nil_l in IH. subst s. destruct (Str.is_slash c) eqn:E.
    + exists (S n). apply Ascii.eqb_eq in E as ->. reflexivity.
    + exists n. reflexivity.
  - exists n. rewrite append_cons. now rewrite <- IH.
Qed.

(** Stripping the separators at both ends keeps the segments. *)
Lemma segments_strip_slash (s : string) :
  Str.segments (Str.strip_slash s) = Str.segments s.
Proof.
  unfold Str.strip_slash.
  destruct (rstrip_slash_decomp (Str.lstrip_slash s)) as [n Hr].
  destruct (lstrip_slash_decomp s) as [m Hl].
  rewrite Hl at 2. rewrite segments_slashes_app.
  rewrite Hr at 2. now rewrite segments_app_slashes.
Qed.

Lemma split_slash_pieces (s : string) :
  Forall (fun p => slash_free p = true) (Str.split_slash s).
Proof.
  induction s as [|c s IH]; cbn [Str.split_slash]; [repeat constructor|].
  destruct (Str.is_slash c) eqn:E; [constructor; [reflexivity | exact IH]|].
  destruct (split_slash_cons s) as (p & ps & Hs). rewrite Hs in *.
  inversion IH; subst. constructor; [|assumption].
  cbn [slash_free]. now rewrite E.
Qed.

(** Every segment of a string is non-empty and holds no separator. *)
Lemma segments_are_segments (s : string) :
  Forall (fun p => is_segment p = true) (Str.segments s).
Proof.
  unfold Str.segments. pose proof (split_slash_pieces s) as H.
  induction H as [|p ps Hp _ IH]; cbn [List.filter]; [constructor|].
  destruct (Str.nonempty p) eqn:En; [|exact IH].
  constructor; [|exact IH]. unfold is_segment. now rewrite En, Hp.
Qed.

(** Joining segments and splitting again gives the segments back. *)
Lemma segments_join_slash (parts : list string) :
  Forall (fun p => is_segment p = true) parts ->
  Str.segments (Str.join_slash parts) = parts.
Proof.
  induction 1 as [|p ps Hp Hps IH]; [reflexivity|].
  destruct ps as [|q ps].
  - cbn [Str.join_slash]. now apply segments_segment.
  - change (Str.join_slash (p :: q :: ps))
      with (p +:+ String "/" (Str.join_slash (q :: ps))).
    rewrite segments_app, IH, (segments_segment p Hp). reflexivity.
Qed.

Lemma prefix_split (p s : string) :
  String.prefix p s = true -> s = p +:+ Str.drop (String.length p) s.
Proof.
  revert s. induction p as [|c p IH]; intros s H; [reflexivity|].
  destruct s as [|c' s]; [discriminate|]. cbn in H.
  destruct (ascii_dec c c') as [<-|]; [|discriminate].
  cbn [String.length Str.drop]. rewrite append_cons. f_equal. now apply IH.
Qed.

Lemma prefix_append (p s t : string) :
  String.prefix p s = true -> String.prefix p (s +:+ t) = true.
Proof.
  revert s. induction p as [|c p IH]; intros s H; [now destruct (s +:+ t)|].
  destruct s as [|c' s]; [discriminate|]. rewrite append_cons. cbn in *.
  destruct (ascii_dec c c'); [now apply IH | discriminate].
Qed.

Lemma drop_append (n : nat) (s t : string) :
  (n <= String.length s)%nat -> Str.drop n (s +:+ t) = Str.drop n s +:+ t.
Proof.
  revert s. induction n as [|n IH]; intros s H; [reflexivity|].
  destruct s as [|c s]; [cbn in H; lia|]. rewrite append_cons. cbn [Str.drop].
  apply IH. cbn in H. lia.
Qed.

Lemma prefix_length (p s : string) :
  String.prefix p s = true -> (String.length p <= String.length s)%nat.
Proof.
  revert s. induction p as [|c p IH]; intros s H; [cbn; lia|].
  destruct s as [|c' s]; [discriminate|]. cbn in *.
  destruct (ascii_dec c c'); [|discriminate]. apply IH in H. lia.
Qed.

Lemma prefix_append_self (p s : string) : String.prefix p (p +:+ s) = true.
Proof.
  induction p as [|c p IH]; [now destruct s|].
  rewrite append_cons. cbn. destruct (ascii_dec c c); [exact IH | congruence].
Qed.

Lemma drop_append_self (p s : string) : Str.drop (String.length p) (p +:+ s) = s.
Proof. induction p as [|c p IH]; [reflexivity | exact IH]. Qed.

Lemma length_append (a b : string) :
  String.length (a +:+ b) = (String.length a + String.length b)%nat.
Proof.
  induction a as [|c a IH]; [reflexivity|]. rewrite append_cons. cbn. now rewrite IH.
Qed.

Lemma segments_nonempty (s : string) : Str.segments s <> [] -> Str.nonempty s = true.
Proof. destruct s; [intros H; now contradiction H | reflexivity]. Qed.

Lemma prefix_trans (a b c : string) :
  String.prefix a b = true -> String.prefix b c = true -> String.prefix a c = true.
Proof.
  intros Hab Hbc. rewrite (prefix_split _ _ Hbc). now apply prefix_append.
Qed.

Lemma endswith_slash_app (s : string) : Str.endswith_slash (s +:+ "/") = true.
Proof.
  induction s as [|c s IH]; [reflexivity|]. rewrite append_cons.
  cbn [Str.endswith_slash]. destruct (s +:+ "/") eqn:E; [now destruct s|exact IH].
Qed.

(** A URI that begins with [p/] begins with whatever [p] begins with. *)
Lemma startswith_below (x p u : string) :
  Str.startswith x p = true ->
  Str.startswith (p +:+ "/") u = true ->
  Str.startswith x u = true.
Proof.
  unfold Str.startswith. intros Hx Hp.
  apply (prefix_trans x (p +:+ "/") u); [now apply prefix_append | exact Hp].
Qed.

(** * Properties *)

(** ** Sanity checks of the library models *)

(** The RFC 1321 and FIPS 180-4 test vectors. *)
Example md5_empty :
  Hashlib.md5_hexdigest "" = "d41d8cd98f00b204e9800998ecf8427e".
Proof. vm_compute. reflexivity. Qed.

Example md5_abc :
  Hashlib.md5_hexdigest "abc" = "900150983cd24fb0d6963f7d28e17f72".
Proof. vm_compute. reflexivity. Qed.

Example md5_two_blocks :
  Hashlib.md5_hexdigest
    "aaaaaaaaaaaaaaaaaaaaaaaaaaaaaaaaaaaaaaaaaaaaaaaaaaaaaaaaaaaaaaaaaaaaaa"
  = "0f5c6c4e740bfcc08c3c26ccb2673d46".
Proof. vm_compute. reflexivity. Qed.

Example sha256_abc :
  Hashlib.sha256_hexdigest "abc"
  = "ba7816bf8f01cfea414140de5dae2223b00361a396177a9cb410ff61f20015ad".
Proof. vm_compute. reflexivity. Qed.

(** ** The filter compiler *)

Example compile_single_and :
  _compile_filter (FExpr (Expr.And [Expr.Eq "uri" (PStr "viking://resources")]))
  = [("op", PStr "must"); ("field", PStr "uri");
     ("conds", PList [PStr "viking://resources"])].
Proof. reflexivity. Qed.

Example compile_range :
  _compile_filter (FExpr (Expr.Range "level" (PInt 0) PNone PNone (PInt 2)))
  = [("op", PStr "range"); ("field", PStr "level");
     ("gte", PInt 0); ("lt", PInt 2)].
Proof. reflexivity. Qed.

(** C9. For all field names [a], [c] and values [b], [d], [e], compiling
    [And([Eq(a, b), In(c, [d, e])])] yields exactly the DSL
    [{op: and, conds: [{op: must, field: a, conds: [b]},
                       {op: must, field: c, conds: [d, e]}]}]. *)
Theorem compile_and_eq_in (a c : string) (b d e : pyval) :
  _compile_filter (FExpr (Expr.And [Expr.Eq a b; Expr.In c [d; e]]))
  = [("op", PStr "and");
     ("conds",
      PList [PDict [("op", PStr "must"); ("field", PStr a); ("conds", PList [b])];
             PDict [("op", PStr "must"); ("field", PStr c); ("conds", PList [d; e])]])].
Proof. reflexivity. Qed.

(** ** Tenant scoping of the search helpers *)

Lemma merge_filters_conjunct (filters : list (option FilterExpr)) (c f : FilterExpr) :
  List.In (Some f) filters ->
  conjunct_of c f ->
  exists g, VikingVectorIndexBackend._merge_filters filters = Some g /\ conjunct_of c g.
Proof.
  intros Hin Hc. unfold VikingVectorIndexBackend._merge_filters.
  assert (Hf : List.In f (omap id filters)).
  { apply list_elem_of_In, list_elem_of_omap. exists (Some f). split; [|reflexivity].
    now apply list_elem_of_In. }
  destruct (omap id filters) as [|g [|g' l]] eqn:E.
  - destruct Hf.
  - destruct Hf as [->|[]]. eauto.
  - eexists. split; [reflexivity|]. now apply conjunct_and with f.
Qed.

Lemma tenant_filter_non_root (ctx : RequestContext) (context_type : option string) :
  role ctx <> ROOT ->
  VikingVectorIndexBackend._tenant_filter ctx context_type
  = Some (tenant_conjunct ctx context_type).
Proof.
  intros Hr. unfold VikingVectorIndexBackend._tenant_filter, tenant_conjunct.
  destruct (role ctx); [congruence| |];
    destruct context_type as [ct|]; try reflexivity;
    destruct (String.eqb ct "resource"); reflexivity.
Qed.

Lemma scope_filter_conjunct (ctx : RequestContext) (context_type : option string)
    (target_directories : option (list string)) (extra_filter : filter_arg) :
  role ctx <> ROOT ->
  exists f,
    VikingVectorIndexBackend._build_scope_filter ctx context_type target_directories extra_filter
    = Some f
    /\ conjunct_of (tenant_conjunct ctx context_type) f.
Proof.
  intros Hr. unfold VikingVectorIndexBackend._build_scope_filter.
  rewrite (tenant_filter_non_root _ _ Hr).
  eapply merge_filters_conjunct; [|apply conjunct_here].
  right; left; reflexivity.
Qed.

(** C5 (as amended). For every non-ROOT request context and every call of
    [search_in_tenant], [search_global_roots_in_tenant] and
    [search_children_in_tenant], the filter handed to the search has the
    conjunct [account_id == ctx.account_id AND owner_space IN spaces], where
    [spaces] is the user space and the agent space, plus the empty (shared)
    space exactly when the context type is [resource]; for the ROOT role
    [_tenant_filter] yields no filter and the scope filter is merged from
    the other three ingredients alone. *)
Theorem tenant_conjunct_in_scope_filters (ctx : RequestContext)
    (context_type : option string) (target_directories : option (list string))
    (extra_filter : filter_arg) (parent_uri : string) :
  (role ctx <> ROOT ->
   exists f1 f2 f3,
     VikingVectorIndexBackend.search_in_tenant_filter
       ctx context_type target_directories extra_filter = Some f1
     /\ conjunct_of (tenant_conjunct ctx context_type) f1
     /\ VikingVectorIndexBackend.search_global_roots_in_tenant_filter
          ctx context_type target_directories extra_filter = Some f2
     /\ conjunct_of (tenant_conjunct ctx context_type) f2
     /\ VikingVectorIndexBackend.search_children_in_tenant_filter
          ctx parent_uri context_type target_directories extra_filter = Some f3
     /\ conjunct_of (tenant_conjunct ctx context_type) f3)
  /\ (role ctx = ROOT ->
      VikingVectorIndexBackend._tenant_filter ctx context_type = None
      /\ VikingVectorIndexBackend._build_scope_filter
           ctx context_type target_directories extra_filter
         = VikingVectorIndexBackend._merge_filters
             [VikingVectorIndexBackend.context_type_filter context_type;
              VikingVectorIndexBackend.target_directories_filter target_directories;
              VikingVectorIndexBackend.extra_filter_expr extra_filter]).
Proof.
  split.
  - intros Hr.
    destruct (scope_filter_conjunct ctx context_type target_directories extra_filter Hr)
      as (f & Hf & Hc).
    unfold VikingVectorIndexBackend.search_in_tenant_filter,
      VikingVectorIndexBackend.search_global_roots_in_tenant_filter,
      VikingVectorIndexBackend.search_children_in_tenant_filter.
    rewrite Hf.
    exists f, (Expr.And [f; Expr.In "level" [PInt 0; PInt 1]]),
      (Expr.And [Expr.Eq "parent_uri" (PStr parent_uri); f]).
    repeat split; try assumption.
    + apply conjunct_and with f; [left; reflexivity | assumption].
    + apply conjunct_and with f; [right; left; reflexivity | assumption].
  - intros Hr. unfold VikingVectorIndexBackend._build_scope_filter,
      VikingVectorIndexBackend._tenant_filter. rewrite Hr. split; reflexivity.
Qed.

Lemma tenant_conjunct_in_scope_filters_witness :
  exists f,
    VikingVectorIndexBackend.search_children_in_tenant_filter
      alice_ctx "viking://resources" (Some "resource") None FNone = Some f
    /\ conjunct_of (tenant_conjunct alice_ctx (Some "resource")) f.
Proof.
  destruct (tenant_conjunct_in_scope_filters alice_ctx (Some "resource") None FNone
              "viking://resources") as [H _].
  destruct H as (f1 & f2 & f3 & _ & _ & _ & _ & H3 & C3); [discriminate|].
  exists f3. split; assumption.
Defined.

(** C5 as stated fails: for a [memory] query of a USER the scope filter has
    no conjunct that admits the empty owner space. *)
Lemma tenant_conjunct_not_regardless_of_type :
  ~ (forall ctx context_type target_directories extra_filter,
       role ctx <> ROOT ->
       exists f,
         VikingVectorIndexBackend.search_in_tenant_filter
           ctx context_type target_directories extra_filter = Some f
         /\ conjunct_of (tenant_conjunct_spec ctx) f).
Proof.
  intros H.
  destruct (H alice_ctx (Some "memory") None FNone) as (f & Hf & Hc); [discriminate|].
  vm_compute in Hf. injection Hf as <-.
  vm_compute in Hc.
  repeat match goal with
         | Hx : List.In _ (_ :: _) |- _ => destruct Hx as [<-|Hx]
         | Hx : List.In _ [] |- _ => destruct Hx
         | Hx : conjunct_of _ (Expr.And _) |- _ => inversion Hx; clear Hx; subst
         | Hx : conjunct_of _ (Expr.Eq _ _) |- _ => inversion Hx
         | Hx : conjunct_of _ (Expr.In _ _) |- _ => inversion Hx
         end.
Qed.

(** ** The access gate *)

Lemma mem_true_iff (s : string) (l : list string) :
  Str.mem s l = true <-> List.In s l.
Proof.
  unfold Str.mem. rewrite existsb_exists. split.
  - intros (x & Hx & He). apply String.eqb_eq in He. now subst.
  - intros H. exists s. split; [assumption | apply String.eqb_refl].
Qed.

Lemma mem_false_iff (s : string) (l : list string) :
  Str.mem s l = false <-> ~ List.In s l.
Proof.
  rewrite <- mem_true_iff. destruct (Str.mem s l); split; congruence.
Qed.

(** The gate itself: a foreign space under [user] or [agent] is hidden from
    a USER, unless the second segment is a structure directory. *)
Lemma foreign_space_not_accessible (ctx : RequestContext) (uri scope X : string)
    (rest : list string) :
  role ctx = USER ->
  Str.startswith "viking://" uri = true ->
  VikingFS.uri_parts uri = scope :: X :: rest ->
  (scope = "user" /\ ~ List.In X VikingFS._USER_STRUCTURE_DIRS
   \/ scope = "agent" /\ ~ List.In X VikingFS._AGENT_STRUCTURE_DIRS) ->
  X <> user_space_name ctx ->
  X <> agent_space_name ctx ->
  VikingFS._is_accessible uri ctx = false.
Proof.
  intros Hrole Hpre Hparts Hscope Hu Ha.
  unfold VikingFS._is_accessible, VikingFS._extract_space_from_uri.
  rewrite Hrole, Hpre, Hparts. cbn [Role_eqb negb].
  apply String.eqb_neq in Hu, Ha.
  destruct Hscope as [[-> Hn]|[-> Hn]]; apply mem_false_iff in Hn; rewrite Hn.
  - cbn. exact Hu.
  - cbn. exact Ha.
Qed.

(** C6 (as amended). For every USER context with user space [S_u] and agent
    space [S_a], and every URI [viking://user/X/...] or
    [viking://agent/X/...] whose segment [X] is neither [S_u] nor [S_a] and
    is not a structure directory of its scope ([memories] under [user];
    [memories], [skills], [instructions], [workspaces] under [agent]), every
    operation that checks access on the URI raises [PermissionError] and
    leaves the state as it was. *)
Theorem foreign_space_permission_denied (ctx : RequestContext) (uri scope X : string)
    (rest : list string) (w : world) :
  role ctx = USER ->
  Str.startswith "viking://" uri = true ->
  VikingFS.uri_parts uri = scope :: X :: rest ->
  (scope = "user" /\ ~ List.In X VikingFS._USER_STRUCTURE_DIRS
   \/ scope = "agent" /\ ~ List.In X VikingFS._AGENT_STRUCTURE_DIRS) ->
  X <> user_space_name ctx ->
  X <> agent_space_name ctx ->
  VikingFS._ensure_access uri (Some ctx) w = (inl PermissionError, w)
  /\ (forall recursive, VikingFS.rm uri recursive (Some ctx) w = (inl PermissionError, w))
  /\ (forall new_uri, VikingFS.mv uri new_uri (Some ctx) w = (inl PermissionError, w))
  /\ (forall uris reason, VikingFS.link uri uris reason (Some ctx) w = (inl PermissionError, w))
  /\ (forall other, VikingFS.unlink uri other (Some ctx) w = (inl PermissionError, w))
  /\ VikingFS.get_relation_table uri (Some ctx) w = (inl PermissionError, w)
  /\ VikingFS.read_file_bytes uri (Some ctx) w = (inl PermissionError, w).
Proof.
  intros Hrole Hpre Hparts Hscope Hu Ha.
  pose proof (foreign_space_not_accessible ctx uri scope X rest
                Hrole Hpre Hparts Hscope Hu Ha) as Hacc.
  assert (He : VikingFS._ensure_access uri (Some ctx) w = (inl PermissionError, w)).
  { unfold VikingFS._ensure_access. cbn [VikingFS._ctx_or_default]. now rewrite Hacc. }
  repeat split; try intros;
    unfold VikingFS.rm, VikingFS.mv, VikingFS.link, VikingFS.unlink,
      VikingFS.get_relation_table, VikingFS.read_file_bytes, bind;
    now rewrite He.
Qed.

Lemma foreign_space_permission_denied_witness :
  VikingFS.rm "viking://user/bob/memories/notes/n.md" true (Some alice_ctx) quiet_world
  = (inl PermissionError, quiet_world).
Proof.
  refine (proj1 (proj2 (foreign_space_permission_denied alice_ctx
            "viking://user/bob/memories/notes/n.md" "user" "bob"
            ["memories"; "notes"; "n.md"] quiet_world _ _ _ _ _ _)) true).
  - reflexivity.
  - reflexivity.
  - reflexivity.
  - left. split; [reflexivity|]. simpl. intros [H|[]]. discriminate H.
  - discriminate.
  - discriminate.
Defined.

(** C6 as stated fails: [memories] is no space of the caller, yet
    [viking://user/memories/...] passes the gate, because a structure
    directory in second position is not read as a space. *)
Lemma structure_dir_is_accessible :
  ~ (forall ctx uri scope X rest w,
       role ctx = USER ->
       Str.startswith "viking://" uri = true ->
       VikingFS.uri_parts uri = scope :: X :: rest ->
       scope = "user" \/ scope = "agent" ->
       X <> user_space_name ctx ->
       X <> agent_space_name ctx ->
       VikingFS._ensure_access uri (Some ctx) w = (inl PermissionError, w)).
Proof.
  intros H.
  specialize (H alice_ctx "viking://user/memories/notes.md" "user" "memories"
                ["notes.md"] quiet_world).
  discriminate H; try reflexivity; try discriminate. now left.
Qed.

(** ** [VikingVectorIndexBackend.upsert] *)

(** C10 (as amended). [upsert] of a payload whose [context_type] is truthy
    and none of [resource], [memory], [skill]: when the value can be hashed
    (a non-empty string, a non-zero number, [True]), [upsert] returns the
    empty string and raises nothing; when it is a non-empty list or
    dictionary, [upsert] raises [TypeError].  In both cases the whole state,
    the collection included, is left unchanged. *)
Theorem upsert_rejects_unknown_context_type (data : record) (v : pyval) (w : world) :
  data !! "context_type" = Some v ->
  truthy v = true ->
  (forall s, v = PStr s -> ~ List.In s ["resource"; "memory"; "skill"]) ->
  VikingVectorIndexBackend.upsert data w
  = (if hashable v then inr (PStr "") else inl TypeError, w).
Proof.
  intros Hct Ht Hnot.
  unfold VikingVectorIndexBackend.upsert, VikingVectorIndexBackend.invalid_context_type.
  rewrite Hct. cbn [default from_option id]. rewrite Ht.
  destruct v; try reflexivity.
  assert (Str.mem s VikingVectorIndexBackend.ALLOWED_CONTEXT_TYPES = false) as ->.
  { apply mem_false_iff. intros Hin. apply (Hnot s eq_refl). simpl in *. tauto. }
  reflexivity.
Qed.

Lemma upsert_rejects_unknown_context_type_witness :
  VikingVectorIndexBackend.upsert
    (<["context_type" := PStr "note"]> guide_payload) quiet_world
  = (inr (PStr ""), quiet_world).
Proof.
  apply (upsert_rejects_unknown_context_type _ (PStr "note")).
  - reflexivity.
  - reflexivity.
  - intros s [= <-]. simpl. intros [H|[H|[H|[]]]]; discriminate H.
Defined.

(** A [context_type] that is a non-empty list: the membership test of
    [upsert] hashes it, and [upsert] raises [TypeError]. *)
Example upsert_list_context_type :
  VikingVectorIndexBackend.upsert
    (<["context_type" := PList [PStr "memory"]]> guide_payload) quiet_world
  = (inl TypeError, quiet_world).
Proof. reflexivity. Qed.

(** C10 as stated fails: a [context_type] that is non-empty and none of the
    three strings need not be a string, and for a non-empty list [upsert]
    raises instead of returning the empty string. *)
Lemma upsert_unhashable_context_type_raises :
  ~ (forall (data : record) (v : pyval) (w : world),
       data !! "context_type" = Some v ->
       truthy v = true ->
       (forall s, v = PStr s -> ~ List.In s ["resource"; "memory"; "skill"]) ->
       VikingVectorIndexBackend.upsert data w = (inr (PStr ""), w)).
Proof.
  intros H.
  specialize (H (<["context_type" := PList [PStr "memory"]]> guide_payload)
                (PList [PStr "memory"]) quiet_world eq_refl eq_refl).
  rewrite upsert_list_context_type in H. discriminate H. intros s Hs. discriminate Hs.
Qed.

(** *** The write path: [assign_id], then [upsert] *)

Lemma md5_hexdigest_nonempty (s : string) :
  Str.nonempty (Hashlib.md5_hexdigest s) = true.
Proof.
  unfold Hashlib.md5_hexdigest, Hashlib.md5_digest.
  destruct (fold_left _ _ _) as [[[a b] c] d].
  reflexivity.
Qed.

Lemma known_fields_lookup (allowed : list string) (data : record) (k : string) (v : pyval) :
  List.In k allowed ->
  data !! k = Some v ->
  v <> PNone ->
  VikingVectorIndexBackend.known_fields allowed data !! k = Some v.
Proof.
  intros Hin Hk Hv. unfold VikingVectorIndexBackend.known_fields.
  apply map_lookup_filter_Some. split; [assumption|]. cbn. split.
  - now apply mem_true_iff.
  - destruct v; congruence || reflexivity.
Qed.

(** [CollectionAdapter.upsert] of a record that has a non-empty string id
    stores the record under that id and draws no uuid. *)
Lemma adapter_upsert_with_id (w : world) (c : Collection) (payload : record) (sid : string) :
  collection w = Some c ->
  payload !! "id" = Some (PStr sid) ->
  Str.nonempty sid = true ->
  CollectionAdapter.upsert payload w
  = (inr [PStr sid],
     set_collection
       (Some {| coll_fields := coll_fields c;
                coll_data := <[sid := payload]> (coll_data c) |}) w).
Proof.
  intros Hc Hid Hne.
  unfold CollectionAdapter.upsert, CollectionAdapter.get_collection, bind,
    get_truthy, on_collection, ret.
  rewrite Hc, Hid. cbn [truthy default from_option id]. rewrite Hne.
  rewrite (insert_id payload "id" (PStr sid) Hid).
  cbn [upsert_data]. unfold primary_key. rewrite Hid.
  destruct w; cbn in *. rewrite Hc. reflexivity.
Qed.

Lemma context_type_ok_valid (data : record) (w : world) :
  context_type_ok data ->
  VikingVectorIndexBackend.invalid_context_type
    (default PNone (data !! "context_type")) w = (inr false, w).
Proof.
  unfold context_type_ok, VikingVectorIndexBackend.invalid_context_type.
  destruct (data !! "context_type") as [v|]; [|reflexivity].
  cbn [default from_option id].
  destruct v; try (intros ->; reflexivity).
  intros [->|Hin]; [reflexivity|].
  cbn [truthy]. apply mem_true_iff in Hin. rewrite Hin.
  destruct (Str.nonempty s); reflexivity.
Qed.

(** [VikingVectorIndexBackend.upsert] of a payload that has a non-empty
    string id writes the known fields of the payload under that id. *)
Lemma backend_upsert_with_id (w : world) (c : Collection) (data : record) (sid : string) :
  collection w = Some c ->
  List.In "id" (coll_fields c) ->
  data !! "id" = Some (PStr sid) ->
  Str.nonempty sid = true ->
  context_type_ok data ->
  VikingVectorIndexBackend.upsert data w
  = (inr (PStr sid),
     set_collection
       (Some {| coll_fields := coll_fields c;
                coll_data :=
                  <[sid := VikingVectorIndexBackend.known_fields (coll_fields c) data]>
                    (coll_data c) |}) w).
Proof.
  intros Hc Hf Hid Hne Hok.
  unfold VikingVectorIndexBackend.upsert.
  unfold bind at 1. rewrite (context_type_ok_valid data w Hok).
  unfold bind at 1. unfold get_truthy. rewrite Hid. cbn [truthy]. rewrite Hne.
  unfold ret at 1.
  unfold bind at 1. unfold VikingVectorIndexBackend._filter_known_fields,
    try_except, CollectionAdapter.get_collection.
  unfold bind at 1. rewrite Hc. unfold ret at 1.
  unfold bind at 1.
  erewrite adapter_upsert_with_id; eauto.
  apply known_fields_lookup; [assumption | assumption | discriminate].
Qed.

Lemma assign_id_with_uri (data : record) (uri account : string) (w : world) :
  data !! "uri" = Some (PStr uri) ->
  uri <> "" ->
  data !! "account_id" = Some (PStr account) ->
  TextEmbeddingHandler.assign_id data w
  = (inr (<["id" := PStr (TextEmbeddingHandler.stable_id account uri)]> data), w).
Proof.
  intros Hu Hne Ha. unfold TextEmbeddingHandler.assign_id, get_truthy.
  rewrite Hu, Ha. cbn [truthy default from_option id py_str].
  destruct uri; [congruence | reflexivity].
Qed.

Lemma log_written_state (d : record) (w : world) :
  (TextEmbeddingHandler.log_written d w).2 = w.
Proof.
  unfold TextEmbeddingHandler.log_written.
  destruct (d !! "abstract"); [|reflexivity].
  destruct (d !! "vector") as [[]|]; reflexivity.
Qed.

Lemma context_type_ok_insert_id (data : record) (v : pyval) :
  context_type_ok data -> context_type_ok (<["id" := v]> data).
Proof.
  unfold context_type_ok. now rewrite lookup_insert_ne.
Qed.

(** What [write_to_db] leaves in the collection, whether or not the debug
    line after the write raises. *)
Lemma write_to_db_stored (w : world) (c : Collection) (data : record) (uri account : string) :
  collection w = Some c ->
  List.In "id" (coll_fields c) ->
  data !! "uri" = Some (PStr uri) ->
  uri <> "" ->
  data !! "account_id" = Some (PStr account) ->
  context_type_ok data ->
  let key := TextEmbeddingHandler.stable_id account uri in
  stored (TextEmbeddingHandler.write_to_db data w).2
  = <[key := VikingVectorIndexBackend.known_fields (coll_fields c)
               (<["id" := PStr key]> data)]> (coll_data c).
Proof.
  intros Hc Hf Hu Hne Ha Hok key.
  unfold TextEmbeddingHandler.write_to_db.
  unfold bind at 1. rewrite (assign_id_with_uri data uri account w Hu Hne Ha).
  fold key. unfold bind at 1.
  rewrite (backend_upsert_with_id w c (<["id" := PStr key]> data) key Hc Hf).
  2: apply lookup_insert_eq.
  2: apply md5_hexdigest_nonempty.
  2: now apply context_type_ok_insert_id.
  assert (Hk : Str.nonempty key = true) by apply md5_hexdigest_nonempty.
  cbn [truthy]. rewrite Hk.
  unfold bind at 1.
  match goal with
  | |- context [TextEmbeddingHandler.log_written ?d ?w1] =>
      pose proof (log_written_state d w1) as Hs;
      destruct (TextEmbeddingHandler.log_written d w1) as [[e|[]] w2]
  end; cbn in Hs; subst.
  - destruct (is_closing _); reflexivity.
  - reflexivity.
Qed.

Lemma record_key_of (r : record) (uri account : string) :
  r !! "uri" = Some (PStr uri) ->
  uri <> "" ->
  r !! "account_id" = Some (PStr account) ->
  record_key r = Some (TextEmbeddingHandler.stable_id account uri).
Proof.
  intros Hu Hne Ha. unfold record_key. rewrite Hu, Ha.
  cbn [default from_option id]. destruct uri; [congruence | reflexivity].
Qed.

(** In a collection keyed by the stable id, a (account_id, uri) pair has at
    most one record. *)
Lemma keyed_by_stable_id_unique (m : gmap string record) :
  keyed_by_stable_id m ->
  forall k1 k2 r1 r2 uri account,
    m !! k1 = Some r1 -> m !! k2 = Some r2 ->
    uri <> "" ->
    r1 !! "uri" = Some (PStr uri) -> r2 !! "uri" = Some (PStr uri) ->
    r1 !! "account_id" = Some (PStr account) ->
    r2 !! "account_id" = Some (PStr account) ->
    k1 = k2.
Proof.
  intros Hinv k1 k2 r1 r2 uri account H1 H2 Hne Hu1 Hu2 Ha1 Ha2.
  rewrite (Hinv k1 r1 _ H1 (record_key_of r1 uri account Hu1 Hne Ha1)).
  rewrite (Hinv k2 r2 _ H2 (record_key_of r2 uri account Hu2 Hne Ha2)).
  reflexivity.
Qed.

(** C1 (as amended). The stable id is assigned by the embedding handler,
    not by [upsert]: for every record that carries a non-empty [uri] and an
    [account_id], the handler's write (collection_schemas.py, lines 206-215)
    sets [id = md5(account_id ":" uri)] before it calls
    [VikingVectorIndexBackend.upsert], which keeps an id it is given; the
    record is stored under that primary key and no other key changes.  Hence
    two handler writes for the same (account_id, uri) go to the same key, and
    in a collection whose records all sit under their stable key there is,
    after the write as before it, at most one record per (account_id, uri). *)
Theorem handler_writes_under_stable_id (w : world) (c : Collection) (data : record)
    (uri account : string) :
  collection w = Some c ->
  List.In "id" (coll_fields c) ->
  List.In "uri" (coll_fields c) ->
  List.In "account_id" (coll_fields c) ->
  data !! "uri" = Some (PStr uri) ->
  uri <> "" ->
  data !! "account_id" = Some (PStr account) ->
  context_type_ok data ->
  let key := Hashlib.md5_hexdigest (account +:+ ":" +:+ uri) in
  let w' := (TextEmbeddingHandler.write_to_db data w).2 in
  (exists r,
      stored w' = <[key := r]> (stored w)
      /\ r !! "id" = Some (PStr key)
      /\ r !! "uri" = Some (PStr uri)
      /\ r !! "account_id" = Some (PStr account))
  /\ (keyed_by_stable_id (stored w) ->
      keyed_by_stable_id (stored w')
      /\ forall k1 k2 r1 r2 u a,
           stored w' !! k1 = Some r1 -> stored w' !! k2 = Some r2 ->
           u <> "" ->
           r1 !! "uri" = Some (PStr u) -> r2 !! "uri" = Some (PStr u) ->
           r1 !! "account_id" = Some (PStr a) -> r2 !! "account_id" = Some (PStr a) ->
           k1 = k2).
Proof.
  intros Hc Hid Huri Hacc Hu Hne Ha Hok key w'.
  pose proof (write_to_db_stored w c data uri account Hc Hid Hu Hne Ha Hok) as Hst.
  cbn zeta in Hst. fold w' in Hst.
  change (TextEmbeddingHandler.stable_id account uri) with key in Hst.
  set (r := VikingVectorIndexBackend.known_fields (coll_fields c)
              (<["id" := PStr key]> data)) in Hst.
  assert (Hsw : stored w = coll_data c) by (unfold stored; now rewrite Hc).
  assert (Hrid : r !! "id" = Some (PStr key)).
  { apply known_fields_lookup; [assumption | apply lookup_insert_eq | discriminate]. }
  assert (Hru : r !! "uri" = Some (PStr uri)).
  { apply known_fields_lookup; [assumption | | discriminate].
    now rewrite lookup_insert_ne. }
  assert (Hra : r !! "account_id" = Some (PStr account)).
  { apply known_fields_lookup; [assumption | | discriminate].
    now rewrite lookup_insert_ne. }
  split.
  - exists r. rewrite Hsw. auto.
  - intros Hinv.
    assert (Hinv' : keyed_by_stable_id (stored w')).
    { intros k r' key' Hk Hkey. rewrite Hst in Hk.
      destruct (decide (key = k)) as [<-|Hneq].
      - rewrite lookup_insert_eq in Hk. injection Hk as <-.
        rewrite (record_key_of r uri account Hru Hne Hra) in Hkey.
        now injection Hkey.
      - rewrite lookup_insert_ne in Hk by assumption.
        rewrite <- Hsw in Hk. eapply Hinv; eassumption. }
    split; [exact Hinv'|].
    intros k1 k2 r1 r2 u a. apply keyed_by_stable_id_unique. exact Hinv'.
Qed.

Lemma handler_writes_under_stable_id_witness :
  exists r,
    stored (TextEmbeddingHandler.write_to_db guide_payload quiet_world).2
    = <["a84134823cfd73144ab48f313e6e2350" := r]> (stored quiet_world)
    /\ r !! "id" = Some (PStr "a84134823cfd73144ab48f313e6e2350")
    /\ r !! "uri" = Some (PStr "viking://resources/guides/x.md")
    /\ r !! "account_id" = Some (PStr "acme").
Proof.
  assert (Hk : Hashlib.md5_hexdigest ("acme" +:+ ":" +:+ "viking://resources/guides/x.md")
               = "a84134823cfd73144ab48f313e6e2350") by (vm_compute; reflexivity).
  rewrite <- Hk.
  refine (proj1 (handler_writes_under_stable_id quiet_world empty_collection guide_payload
                   "viking://resources/guides/x.md" "acme" _ _ _ _ _ _ _ _)).
  - reflexivity.
  - simpl; tauto.
  - simpl; tauto.
  - simpl; tauto.
  - reflexivity.
  - discriminate.
  - reflexivity.
  - unfold context_type_ok.
    replace (guide_payload !! "context_type") with (Some (PStr "resource"))
      by reflexivity.
    right. simpl; tauto.
Defined.

(** C1 as stated fails: [upsert] of a payload with a uri and no id stores it
    under a fresh uuid, not under the md5 of [account_id:uri]. *)
Lemma upsert_without_id_draws_uuid :
  ~ (forall (w : world) (c : Collection) (data : record) (uri account : string),
       collection w = Some c ->
       coll_fields c = context_collection_fields ->
       data !! "uri" = Some (PStr uri) ->
       uri <> "" ->
       data !! "id" = None ->
       data !! "account_id" = Some (PStr account) ->
       context_type_ok data ->
       (VikingVectorIndexBackend.upsert data w).1
       = inr (PStr (Hashlib.md5_hexdigest (account +:+ ":" +:+ uri)))).
Proof.
  intros H.
  assert (Hr : (VikingVectorIndexBackend.upsert guide_payload quiet_world).1
               = inr (PStr "uuid-0")) by (vm_compute; reflexivity).
  assert (Hk : Hashlib.md5_hexdigest ("acme" +:+ ":" +:+ "viking://resources/guides/x.md")
               = "a84134823cfd73144ab48f313e6e2350") by (vm_compute; reflexivity).
  assert (E : @inr exn pyval (PStr "uuid-0")
              = inr (PStr "a84134823cfd73144ab48f313e6e2350")).
  { rewrite <- Hr, <- Hk.
    apply (H quiet_world empty_collection guide_payload
             "viking://resources/guides/x.md" "acme").
    - reflexivity.
    - reflexivity.
    - vm_compute; reflexivity.
    - discriminate.
    - vm_compute; reflexivity.
    - vm_compute; reflexivity.
    - unfold context_type_ok.
      replace (guide_payload !! "context_type") with (Some (PStr "resource"))
        by (vm_compute; reflexivity).
      right. simpl; tauto. }
  discriminate E.
Qed.

(** Two upserts of that payload leave two records with the same
    (account_id, uri), under two different uuids. *)
Example upsert_twice_two_records :
  let w1 := (VikingVectorIndexBackend.upsert guide_payload quiet_world).2 in
  let w2 := (VikingVectorIndexBackend.upsert guide_payload w1).2 in
  List.map (fun kr : string * record => (kr.1, kr.2 !! "account_id", kr.2 !! "uri"))
           (map_to_list (stored w2))
  = [("uuid-1", Some (PStr "acme"), Some (PStr "viking://resources/guides/x.md"));
     ("uuid-0", Some (PStr "acme"), Some (PStr "viking://resources/guides/x.md"))].
Proof. vm_compute. reflexivity. Qed.

(** ** [TextEmbeddingHandler.on_dequeue] *)

Lemma stored_set_processed_total (n : nat) (w : world) :
  stored (set_processed_total n w) = stored w.
Proof. reflexivity. Qed.

Lemma stored_set_error_count (n : nat) (w : world) :
  stored (set_error_count n w) = stored w.
Proof. reflexivity. Qed.

(** The write of a record that has an abstract and a vector succeeds. *)
Lemma write_to_db_success (w : world) (c : Collection) (data : record)
    (uri account : string) (vec : list pyval) :
  collection w = Some c ->
  List.In "id" (coll_fields c) ->
  data !! "uri" = Some (PStr uri) ->
  uri <> "" ->
  data !! "account_id" = Some (PStr account) ->
  is_Some (data !! "abstract") ->
  data !! "vector" = Some (PList vec) ->
  context_type_ok data ->
  let key := TextEmbeddingHandler.stable_id account uri in
  TextEmbeddingHandler.write_to_db data w
  = (inr (Some (<["id" := PStr key]> data)),
     set_collection
       (Some {| coll_fields := coll_fields c;
                coll_data :=
                  <[key := VikingVectorIndexBackend.known_fields (coll_fields c)
                             (<["id" := PStr key]> data)]> (coll_data c) |}) w).
Proof.
  intros Hc Hf Hu Hne Ha [ab Hab] Hv Hok key.
  unfold TextEmbeddingHandler.write_to_db.
  unfold bind at 1. rewrite (assign_id_with_uri data uri account w Hu Hne Ha).
  fold key. unfold bind at 1.
  rewrite (backend_upsert_with_id w c (<["id" := PStr key]> data) key Hc Hf).
  2: apply lookup_insert_eq.
  2: apply md5_hexdigest_nonempty.
  2: now apply context_type_ok_insert_id.
  assert (Hk : Str.nonempty key = true) by apply md5_hexdigest_nonempty.
  cbn [truthy]. rewrite Hk.
  unfold bind at 1. unfold TextEmbeddingHandler.log_written.
  rewrite !lookup_insert_ne by discriminate. rewrite Hab, Hv.
  reflexivity.
Qed.

(** One embeddable message: the record is upserted under its stable id,
    [report_success] is called once and [report_error] never. *)
Lemma on_dequeue_embeddable (self : TextEmbeddingHandler.t) (d : dequeued)
    (w : world) (c : Collection) :
  embeddable self d ->
  collection w = Some c ->
  List.In "id" (coll_fields c) ->
  is_closing w = false ->
  exists r key w',
    TextEmbeddingHandler.on_dequeue self d w = (inr (ReturnInserted r), w')
    /\ stored w' !! key = Some (VikingVectorIndexBackend.known_fields (coll_fields c) r)
    /\ r !! "id" = Some (PStr key)
    /\ processed_total w' = S (processed_total w)
    /\ error_count w' = error_count w
    /\ is_closing w' = false
    /\ (exists c', collection w' = Some c' /\ coll_fields c' = coll_fields c).
Proof.
  intros (msg & text & uri & account & embed & result & -> & Hm & Hu & Hne & Ha
          & Hab & Hok & He & Hr & Hd & Hlen) Hc Hf Hcl.
  unfold TextEmbeddingHandler.on_dequeue, try_except.
  unfold bind at 1. unfold get_state at 1. rewrite Hcl, Hm, He.
  unfold bind at 1. unfold TextEmbeddingHandler.lift_result. rewrite Hr.
  destruct (dense_vector result) as [|x dense] eqn:Ed; [congruence|].
  rewrite Hlen, Z.eqb_refl. cbn [negb andb].
  set (data := match sparse_vector result with
               | [] => _
               | _ :: _ => _
               end).
  assert (Hdu : data !! "uri" = Some (PStr uri)).
  { subst data. destruct (sparse_vector result); now rewrite !lookup_insert_ne. }
  assert (Hda : data !! "account_id" = Some (PStr account)).
  { subst data. destruct (sparse_vector result); now rewrite !lookup_insert_ne. }
  assert (Hdab : is_Some (data !! "abstract")).
  { subst data. destruct (sparse_vector result); now rewrite !lookup_insert_ne. }
  assert (Hdv : data !! "vector" = Some (PList (List.map PFloat (x :: dense)))).
  { subst data. destruct (sparse_vector result).
    - apply lookup_insert_eq.
    - rewrite lookup_insert_ne by discriminate. apply lookup_insert_eq. }
  assert (Hdok : context_type_ok data).
  { subst data. unfold context_type_ok in *.
    destruct (sparse_vector result); now rewrite !lookup_insert_ne. }
  unfold bind at 1.
  rewrite (write_to_db_success w c data uri account _ Hc Hf Hdu Hne Hda Hdab Hdv Hdok).
  eexists _, _, _. split; [reflexivity|].
  cbn. rewrite lookup_insert_eq.
  repeat split; try reflexivity; try assumption.
  - apply lookup_insert_eq.
  - eexists. split; reflexivity.
Qed.

(** Draining embeddable messages counts each one as processed. *)
Lemma drain_embeddable (self : TextEmbeddingHandler.t) (msgs : list dequeued) :
  Forall (embeddable self) msgs ->
  forall (w : world) (c : Collection),
    collection w = Some c ->
    List.In "id" (coll_fields c) ->
    is_closing w = false ->
    exists w',
      TextEmbeddingHandler.drain self msgs w = (inr tt, w')
      /\ processed_total w' = (processed_total w + length msgs)%nat
      /\ error_count w' = error_count w.
Proof.
  induction 1 as [|d msgs Hd _ IH]; intros w c Hc Hf Hcl.
  - exists w. cbn. repeat split; lia.
  - destruct (on_dequeue_embeddable self d w c Hd Hc Hf Hcl)
      as (r & key & w1 & Hrun & _ & _ & Hp & He & Hcl1 & c1 & Hc1 & Hf1).
    destruct (IH w1 c1 Hc1) as (w' & Hrun' & Hp' & He'); [congruence | assumption |].
    exists w'. cbn [TextEmbeddingHandler.drain]. unfold bind. rewrite Hrun, Hrun'.
    repeat split; cbn [length]; lia.
Qed.

(** C3 (the code at the failing input). The message carries a string, a
    uri and an account_id, the embedder returns a vector of the configured
    dimension and the upsert succeeds: the record is in the index under its
    stable id.  But the record has no [abstract], the debug line after the
    write raises [KeyError], and the handler counts the message as an error:
    [report_success] is not called, [error_count] is 1. *)
Theorem on_dequeue_without_abstract_reports_error :
  let res := TextEmbeddingHandler.on_dequeue unit_embedder bare_msg quiet_world in
  res.1 = inr ReturnNone
  /\ (stored res.2 !! "a84134823cfd73144ab48f313e6e2350") ≫= (fun r => r !! "uri")
     = Some (PStr "viking://resources/guides/x.md")
  /\ processed_total res.2 = 0%nat
  /\ error_count res.2 = 1%nat.
Proof. cbv zeta. repeat split; vm_compute; reflexivity. Qed.

(** With its abstract the same message is written and counted as processed. *)
Example on_dequeue_guide_msg :
  let res := TextEmbeddingHandler.on_dequeue unit_embedder guide_msg quiet_world in
  processed_total res.2 = 1%nat /\ error_count res.2 = 0%nat.
Proof. cbv zeta. split; vm_compute; reflexivity. Qed.

(** ** [rm]: the records of a deleted subtree *)

Lemma fold_delete_lookup (ids : list string) (m : gmap string record) (k : string) :
  List.fold_left (fun m k => delete k m) ids m !! k
  = if Str.mem k ids then None else m !! k.
Proof.
  revert m. induction ids as [|i ids IH]; intros m; cbn [List.fold_left].
  - reflexivity.
  - rewrite IH. unfold Str.mem. cbn [existsb].
    fold (Str.mem k ids). destruct (Str.mem k ids); [now rewrite orb_true_r|].
    rewrite orb_false_r. destruct (String.eqb_spec k i) as [->|Hne].
    + apply lookup_delete_eq.
    + apply lookup_delete_ne. congruence.
Qed.

(** The ids a filter delete collects: every stored record that satisfies
    the compiled filter, as long as the matches fit in [limit] and no record
    sits under the empty key. *)
Lemma query_matched_ids (c : Collection) (w : world) (f : filter_arg) (limit : Z)
    (k : string) (r : record) :
  collection w = Some c ->
  (size (coll_data c) <= Z.to_nat limit)%nat ->
  coll_data c !! k = Some r ->
  k <> "" ->
  dsl_match (_compile_filter f) r = true ->
  exists matched,
    CollectionAdapter.query f limit 0 true w = (inr matched, w)
    /\ List.In k (CollectionAdapter.matched_ids matched).
Proof.
  intros Hc Hsize Hk Hne Hm.
  unfold CollectionAdapter.query, CollectionAdapter.get_collection, bind, ret.
  rewrite Hc. eexists. split; [reflexivity|].
  unfold CollectionAdapter.matched_ids.
  apply list_elem_of_In, list_elem_of_omap.
  exists (<["_score" := PFloat 0]> (<["id" := PStr k]> r)). split.
  - apply list_elem_of_In, in_map_iff. exists (k, r). split; [reflexivity|].
    unfold search_by_random. cbn [Z.to_nat drop].
    rewrite take_ge.
    + apply filter_In. split; [|exact Hm].
      apply list_elem_of_In, elem_of_map_to_list. exact Hk.
    + etransitivity; [apply filter_length_le|].
      rewrite length_map_to_list. exact Hsize.
  - unfold CollectionAdapter._normalize_record_for_read.
    rewrite lookup_insert_ne by discriminate. rewrite lookup_insert_eq.
    destruct k; [congruence | reflexivity].
Qed.

Lemma set_collection_same (w : world) (c : Collection) :
  collection w = Some c -> set_collection (Some c) w = w.
Proof. destruct w; cbn; intros ->; reflexivity. Qed.

Lemma fold_delete_subseteq (ids : list string) (m : gmap string record) :
  List.fold_left (fun m k => delete k m) ids m ⊆ m.
Proof.
  apply map_subseteq_spec. intros k r. rewrite fold_delete_lookup.
  destruct (Str.mem k ids); [discriminate | trivial].
Qed.

(** A filter delete removes the collected ids and nothing else; the ids
    cover every match when the collection fits in [limit]. *)
Lemma adapter_delete_filter (w : world) (c : Collection) (e : FilterExpr) (limit : Z) :
  collection w = Some c ->
  exists n ids,
    CollectionAdapter.delete [] (FExpr e) limit w
    = (inr n,
       set_collection
         (Some {| coll_fields := coll_fields c;
                  coll_data := List.fold_left (fun m k => delete k m) ids (coll_data c) |})
         w)
    /\ ((size (coll_data c) <= Z.to_nat limit)%nat ->
        forall k r, coll_data c !! k = Some r -> k <> "" ->
                    dsl_match (compile_expr e) r = true -> List.In k ids).
Proof.
  intros Hc.
  destruct (CollectionAdapter.query (FExpr e) limit 0 true w) as [[x|matched] w1] eqn:Eq.
  { unfold CollectionAdapter.query, CollectionAdapter.get_collection, bind, ret in Eq.
    rewrite Hc in Eq. discriminate Eq. }
  assert (w1 = w) as ->.
  { unfold CollectionAdapter.query, CollectionAdapter.get_collection, bind, ret in Eq.
    rewrite Hc in Eq. now injection Eq. }
  exists (match CollectionAdapter.matched_ids matched with
          | [] => 0
          | ids => Z.of_nat (length ids)
          end), (CollectionAdapter.matched_ids matched).
  split.
  - unfold CollectionAdapter.delete.
    unfold bind at 1. unfold CollectionAdapter.get_collection at 1. rewrite Hc.
    unfold bind at 1. unfold bind at 1. rewrite Eq. unfold ret at 1.
    destruct (CollectionAdapter.matched_ids matched) as [|i ids] eqn:Ei.
    + cbn [List.fold_left]. unfold ret.
      replace {| coll_fields := coll_fields c; coll_data := coll_data c |} with c
        by (destruct c; reflexivity).
      now rewrite set_collection_same.
    + unfold bind, on_collection, ret. rewrite Hc. reflexivity.
  - intros Hsize k r Hk Hne Hm.
    destruct (query_matched_ids c w (FExpr e) limit k r Hc Hsize Hk Hne Hm)
      as (matched' & Eq' & Hin).
    rewrite Eq in Eq'. injection Eq' as <-. exact Hin.
Qed.

(** [delete_uris]: no exception when the collection exists; the collection
    shrinks; and once it is done no record stored under a non-empty key
    satisfies the filter of any of the URIs (for a collection of at most
    100000 records). *)
Lemma delete_uris_spec (ctx : RequestContext) (uris : list string) :
  forall (w : world) (c : Collection),
    collection w = Some c ->
    exists c',
      VikingVectorIndexBackend.delete_uris ctx uris w
      = (inr tt, set_collection (Some c') w)
      /\ coll_fields c' = coll_fields c
      /\ coll_data c' ⊆ coll_data c
      /\ ((size (coll_data c) <= Z.to_nat 100000)%nat ->
          forall uri k r,
            List.In uri uris ->
            k <> EmptyString ->
            coll_data c' !! k = Some r ->
            dsl_match (compile_expr (VikingVectorIndexBackend.delete_uri_filter ctx uri)) r
            = false).
Proof.
  induction uris as [|u uris IH]; intros w c Hc.
  - exists c. cbn. rewrite (set_collection_same w c Hc).
    split; [reflexivity|]. split; [reflexivity|]. split; [reflexivity|].
    intros _ uri k r [].
  - unfold VikingVectorIndexBackend.delete_uris. cbn [for_each].
    unfold bind at 1. unfold bind at 1.
    destruct (adapter_delete_filter w c
                (VikingVectorIndexBackend.delete_uri_filter ctx u) 100000 Hc)
      as (n & ids & Hdel & Hcover).
    rewrite Hdel. unfold ret at 1.
    set (c1 := {| coll_fields := coll_fields c;
                  coll_data := List.fold_left (fun m k => delete k m) ids (coll_data c) |}).
    destruct (IH (set_collection (Some c1) w) c1 eq_refl)
      as (c' & Hrun & Hf & Hsub & Hgone).
    exists c'. unfold VikingVectorIndexBackend.delete_uris in Hrun. rewrite Hrun.
    assert (Hsub1 : coll_data c1 ⊆ coll_data c) by apply fold_delete_subseteq.
    split; [reflexivity|]. split; [exact Hf|]. split.
    + etransitivity; eassumption.
    + intros Hsize uri k r [<-|Hin] Hne Hk.
      * destruct (dsl_match _ r) eqn:Hm; [exfalso | reflexivity].
        pose proof (proj1 (map_subseteq_spec _ _) Hsub k r Hk) as Hk1.
        pose proof (proj1 (map_subseteq_spec _ _) Hsub1 k r Hk1) as Hk0.
        pose proof (Hcover Hsize k r Hk0 Hne Hm) as Hin.
        cbn [coll_data c1] in Hk1. rewrite fold_delete_lookup in Hk1.
        apply mem_true_iff in Hin. rewrite Hin in Hk1. discriminate.
      * assert (Hsize1 : (size (coll_data c1) <= Z.to_nat 100000)%nat).
        { etransitivity; [apply map_subseteq_size; exact Hsub1 | exact Hsize]. }
        exact (Hgone Hsize1 uri k r Hin Hne Hk).
Qed.

Lemma delete_uris_no_collection (ctx : RequestContext) (uris : list string) (w : world) :
  collection w = None ->
  (VikingVectorIndexBackend.delete_uris ctx uris w).2 = w.
Proof.
  intros Hc. destruct uris as [|u uris]; [reflexivity|].
  unfold VikingVectorIndexBackend.delete_uris. cbn [for_each].
  unfold bind, CollectionAdapter.delete, CollectionAdapter.get_collection, bind.
  now rewrite Hc.
Qed.

Lemma must_match_eq (field s : string) (r : record) :
  r !! field = Some (PStr s) ->
  must_match field [PStr s] r = true.
Proof.
  intros H. unfold must_match. rewrite H. cbn [existsb pyval_eqb].
  now rewrite String.eqb_refl.
Qed.

(** On the path field [uri] an [Eq] is equality, and the condition [U/] of
    [delete_uris] matches what lies below [U]: the note under alice's
    memories satisfies the second, not the first. *)
Example eq_on_uri_is_equality :
  dsl_match (compile_expr (Expr.Eq "uri" (PStr "viking://user/alice/memories")))
    memory_note = false
  /\ dsl_match (compile_expr (Expr.In "uri" [PStr "viking://user/alice/memories/"]))
       memory_note = true.
Proof. split; vm_compute; reflexivity. Qed.

Lemma must_match_uri_prefix (p u : string) (r : record) :
  r !! "uri" = Some (PStr u) ->
  String.prefix (p +:+ "/") u = true ->
  must_match "uri" [PStr (p +:+ "/")] r = true.
Proof.
  intros H Hp. unfold must_match. rewrite H. cbn [existsb].
  rewrite Hp, endswith_slash_app. change (Str.mem "uri" path_fields) with true.
  cbn [andb]. now rewrite orb_true_r.
Qed.

(** The filter [delete_uris] builds for the URI [N] that [rm(U)] hands it
    ([N] is [U], or [U] lies below [N/]) is satisfied by every record of the
    caller's account in the subtree of [U] that is within the owner-space
    scope of the deletion. *)
Lemma delete_uri_filter_matches (ctx : RequestContext) (U N : string) (r : record) :
  U = N \/ Str.startswith (N +:+ "/") U = true ->
  r !! "account_id" = Some (PStr (account_id ctx)) ->
  in_subtree U r ->
  in_delete_scope ctx U r ->
  dsl_match (compile_expr (VikingVectorIndexBackend.delete_uri_filter ctx N)) r = true.
Proof.
  intros HN Ha (u & Hu & Hsub) Hscope.
  assert (Huri : must_match "uri" [PStr N] r || must_match "uri" [PStr (N +:+ "/")] r
                 = true).
  { destruct HN as [<-|HN].
    - destruct Hsub as [->|Hp].
      + now rewrite (must_match_eq "uri" U r Hu).
      + rewrite (must_match_uri_prefix _ u r Hu Hp). apply orb_true_r.
    - rewrite (must_match_uri_prefix N u r Hu); [apply orb_true_r|].
      destruct Hsub as [->|Hp]; [exact HN|].
      apply (prefix_trans _ (U +:+ "/")); [now apply prefix_append | exact Hp]. }
  assert (Hup : forall x, Str.startswith x N = true -> Str.startswith x U = true).
  { intros x Hx. destruct HN as [<-|HN]; [exact Hx|]. now apply (startswith_below x N). }
  pose proof (must_match_eq "account_id" _ r Ha) as Hacc.
  unfold VikingVectorIndexBackend.delete_uri_filter, in_delete_scope in *.
  destruct (Role_eqb (role ctx) USER); cbn [andb] in *.
  - destruct (Str.startswith "viking://user/" N) eqn:Eu; cbn [orb] in *.
    + rewrite (Hup _ Eu) in Hscope. cbn [orb] in Hscope.
      pose proof (must_match_eq "owner_space" _ r Hscope) as Hown.
      change (dsl_match _ r)
        with (must_match "account_id" [PStr (account_id ctx)] r
              && ((must_match "uri" [PStr N] r
                   || (must_match "uri" [PStr (N +:+ "/")] r || false))
                  && (must_match "owner_space" [PStr (user_space_name ctx)] r && true))).
      rewrite Hacc, Hown, orb_false_r, Huri. reflexivity.
    + destruct (Str.startswith "viking://agent/" N) eqn:Eg.
      * pose proof (Hup _ Eg) as Hg.
        assert (Hnu : Str.startswith "viking://user/" U = false).
        { unfold Str.startswith in *. rewrite (prefix_split _ _ Hg). reflexivity. }
        rewrite Hnu, Hg in Hscope. cbn [orb] in Hscope.
        pose proof (must_match_eq "owner_space" _ r Hscope) as Hown.
        change (dsl_match _ r)
          with (must_match "account_id" [PStr (account_id ctx)] r
                && ((must_match "uri" [PStr N] r
                     || (must_match "uri" [PStr (N +:+ "/")] r || false))
                    && (must_match "owner_space" [PStr (agent_space_name ctx)] r && true))).
        rewrite Hacc, Hown, orb_false_r, Huri. reflexivity.
      * change (dsl_match _ r)
          with (must_match "account_id" [PStr (account_id ctx)] r
                && ((must_match "uri" [PStr N] r
                     || (must_match "uri" [PStr (N +:+ "/")] r || false))
                    && true)).
        rewrite Hacc, orb_false_r, Huri. reflexivity.
  - change (dsl_match _ r)
      with (must_match "account_id" [PStr (account_id ctx)] r
            && ((must_match "uri" [PStr N] r
                 || (must_match "uri" [PStr (N +:+ "/")] r || false))
                && true)).
    rewrite Hacc, orb_false_r, Huri. reflexivity.
Qed.

(** C4 (as amended). Let [N] be the URI that [rm] derives from [U]
    ([_path_to_uri] of [_uri_to_path]), and let [U] be [N] itself or lie
    below [N/] (a URI in normal form, or one with trailing slashes).  After
    [VikingFS.rm(U, recursive)] completes, with a vector store configured and
    an index of at most 100000 records, the index holds, under a non-empty
    id, no record of the caller's account whose uri is [U] or begins with
    [U/] and that is within the owner-space scope of [delete_uris]: for a
    USER caller and a URI under [viking://user/] or [viking://agent/], the
    records deleted are those whose [owner_space] is the caller's space. *)
Theorem rm_purges_subtree (w w' : world) (ctx : RequestContext) (U : string)
    (recursive : bool) :
  let N := VikingFS._path_to_uri (VikingFS._uri_to_path U ctx) ctx in
  vector_store w = true ->
  (size (stored w) <= Z.to_nat 100000)%nat ->
  U = N \/ Str.startswith (N +:+ "/") U = true ->
  VikingFS.rm U recursive (Some ctx) w = (inr tt, w') ->
  forall k r,
    k <> EmptyString ->
    stored w' !! k = Some r ->
    r !! "account_id" = Some (PStr (account_id ctx)) ->
    in_delete_scope ctx U r ->
    ~ in_subtree U r.
Proof.
  intros N Hvs Hsize Hnorm Hrm k r Hne Hk Ha Hscope Hsub.
  unfold VikingFS.rm in Hrm.
  unfold bind at 1 in Hrm. unfold VikingFS._ensure_access in Hrm.
  destruct (VikingFS._is_accessible U (VikingFS._ctx_or_default w (Some ctx)));
    [|discriminate Hrm].
  unfold bind at 1 in Hrm. unfold get_state at 1 in Hrm.
  cbn [VikingFS._ctx_or_default] in Hrm. fold N in Hrm.
  unfold bind at 1 in Hrm. unfold VikingFS.agfs_rm_call in Hrm.
  destruct (agfs_rm w (VikingFS._uri_to_path U ctx) recursive) as [e|[]];
    [discriminate Hrm|].
  unfold VikingFS._delete_from_vector_store, try_except in Hrm.
  rewrite Hvs in Hrm. cbn [VikingFS._ctx_or_default] in Hrm.
  set (uris := VikingFS._collect_uris w (VikingFS._uri_to_path U ctx) recursive (Some ctx)
               ++ [N]) in Hrm.
  destruct (collection w) as [c|] eqn:Hc.
  - destruct (delete_uris_spec ctx uris w c Hc) as (c' & Hrun & _ & _ & Hgone).
    rewrite Hrun in Hrm. injection Hrm as <-.
    unfold stored in Hsize, Hk. rewrite Hc in Hsize.
    cbn [collection set_collection] in Hk.
    assert (Hin : List.In N uris) by (apply in_or_app; right; now left).
    pose proof (Hgone Hsize N k r Hin Hne Hk) as Hno.
    rewrite (delete_uri_filter_matches ctx U N r Hnorm Ha Hsub Hscope) in Hno.
    discriminate Hno.
  - pose proof (delete_uris_no_collection ctx uris w Hc) as Hw.
    destruct (VikingVectorIndexBackend.delete_uris ctx uris w) as [[e|[]] w1];
      cbn in Hw; subst w1; injection Hrm as <-;
      unfold stored in Hk; rewrite Hc in Hk; rewrite lookup_empty in Hk;
      discriminate Hk.
Qed.

Lemma pair_eta_fst {A B : Type} (p : A * B) (a : A) : p.1 = a -> p = (a, p.2).
Proof. destruct p; cbn; now intros ->. Defined.

(** A lookup decided by comparing the fields of small records. *)
Lemma lookup_small (m : gmap string record) (k : string) (r : record) :
  (map_to_list <$> m !! k) = Some (map_to_list r) -> m !! k = Some r.
Proof.
  destruct (m !! k) as [r'|]; [|discriminate]. cbn. intros H.
  injection H as H. f_equal.
  rewrite <- (list_to_map_to_list r'), <- (list_to_map_to_list r). now rewrite H.
Defined.

Lemma rm_purges_subtree_witness :
  ~ in_subtree "viking://user/alice/memories/" kept_note.
Proof.
  refine (rm_purges_subtree two_notes_world
            (VikingFS.rm "viking://user/alice/memories/" true (Some alice_ctx)
               two_notes_world).2
            alice_ctx "viking://user/alice/memories/" true _ _ _ _
            "n2" kept_note _ _ _ _).
  - reflexivity.
  - apply Nat.leb_le. vm_compute. reflexivity.
  - right. vm_compute. reflexivity.
  - apply pair_eta_fst. vm_compute. reflexivity.
  - discriminate.
  - apply lookup_small. vm_compute. reflexivity.
  - vm_compute. reflexivity.
  - vm_compute. reflexivity.
Defined.

(** What [rm] leaves in that world: the note beside the memories only. *)
Example rm_two_notes :
  List.map fst
    (map_to_list
       (stored (VikingFS.rm "viking://user/alice/memories" true (Some alice_ctx)
                  two_notes_world).2))
  = ["n2"].
Proof. vm_compute. reflexivity. Qed.

(** C4 as stated fails: a record of the account under the removed URI whose
    [owner_space] is not the caller's space survives the [rm] of a USER. *)
Lemma rm_keeps_foreign_owner_space :
  ~ (forall (w w' : world) (ctx : RequestContext) (U : string),
       vector_store w = true ->
       (size (stored w) <= Z.to_nat 100000)%nat ->
       stored w !! "" = None ->
       VikingFS._path_to_uri (VikingFS._uri_to_path U ctx) ctx = U ->
       VikingFS.rm U true (Some ctx) w = (inr tt, w') ->
       forall k r,
         stored w' !! k = Some r ->
         r !! "account_id" = Some (PStr (account_id ctx)) ->
         ~ in_subtree U r).
Proof.
  intros H.
  apply (H unowned_world
           (VikingFS.rm "viking://user/alice/memories" true (Some alice_ctx)
              unowned_world).2
           alice_ctx "viking://user/alice/memories"
           ltac:(reflexivity)
           ltac:(apply Nat.leb_le; vm_compute; reflexivity)
           ltac:(vm_compute; reflexivity)
           ltac:(vm_compute; reflexivity)
           ltac:(apply pair_eta_fst; vm_compute; reflexivity)
           "n1" unowned_note
           ltac:(apply lookup_small; vm_compute; reflexivity)
           ltac:(vm_compute; reflexivity)).
  exists "viking://user/alice/memories/n.md". split.
  - vm_compute. reflexivity.
  - right. vm_compute. reflexivity.
Qed.

(** ** [mv]: what becomes of the embeddings *)

(** [filter] never returns the embeddings: [query] is called with
    [with_vector=False] and drops both fields from every record. *)
Lemma filter_strips_vectors (f : filter_arg) (limit offset : Z) (w : world) :
  Forall (fun r : record => r !! "vector" = None /\ r !! "sparse_vector" = None)
         match (VikingVectorIndexBackend.filter f limit offset w).1 with
         | inr records => records
         | inl _ => []
         end.
Proof.
  unfold VikingVectorIndexBackend.filter, VikingVectorIndexBackend.query, try_except,
    CollectionAdapter.query, CollectionAdapter.get_collection, bind, ret.
  destruct (collection w) as [c|]; cbn [fst]; [|constructor].
  apply Forall_forall. intros r Hin.
  apply list_elem_of_In, in_map_iff in Hin as (item & <- & _).
  split.
  - rewrite lookup_delete_ne by discriminate. apply lookup_delete_eq.
  - apply lookup_delete_eq.
Qed.

(** C2 (the code at the failing input). alice moves her memories directory,
    which holds one embedded note.  The record of the note is found and
    rewritten under its id: no record keeps the old uri and exactly one has
    the rewritten uri and parent.  But [update_uri_mapping] reads the record
    through [filter], without its vectors, and upserts what it read: the
    record stored after the move has neither [vector] nor [sparse_vector]. *)
Theorem mv_drops_vectors :
  let res := VikingFS.mv "viking://user/alice/memories" "viking://user/alice/archive"
               (Some alice_ctx) embedded_world in
  let fields_of (m : gmap string record) :=
    List.map (fun kr : string * record =>
                (kr.1, kr.2 !! "uri", kr.2 !! "parent_uri",
                 kr.2 !! "vector", kr.2 !! "sparse_vector"))
             (map_to_list m) in
  res.1 = inr tt
  /\ fields_of (stored embedded_world)
     = [("n1", Some (PStr "viking://user/alice/memories/n.md"),
         Some (PStr "viking://user/alice/memories"),
         Some (PList [PFloat 4607182418800017408; PFloat 0]),
         Some (PDict [("install", PFloat 4602678819172646912)]))]
  /\ fields_of (stored res.2)
     = [("n1", Some (PStr "viking://user/alice/archive/n.md"),
         Some (PStr "viking://user/alice/archive"), None, None)].
Proof. cbv zeta. repeat split; vm_compute; reflexivity. Qed.

(** ** The relation table *)

Lemma mapM_as_str (us : list string) :
  mapM RelationEntry.as_str (List.map PStr us) = Some us.
Proof.
  induction us as [|u us IH]; [reflexivity|].
  cbn [List.map]. rewrite mapM_Some. constructor; [reflexivity|].
  now apply mapM_Some.
Qed.

Lemma from_dict_to_dict (timestamp : string) (e : RelationEntry.t) :
  RelationEntry.from_dict timestamp (RelationEntry.to_dict e) = inr e.
Proof.
  unfold RelationEntry.from_dict, RelationEntry.to_dict.
  change (forallb _ _) with true. cbn [dict_get String.eqb Ascii.eqb Bool.eqb].
  cbn. rewrite mapM_as_str. destruct e; reflexivity.
Qed.

Lemma parse_entries_to_dict (timestamp : string) (l : list RelationEntry.t) :
  VikingFS.parse_entries timestamp (List.map RelationEntry.to_dict l) = inr l.
Proof.
  induction l as [|e l IH]; [reflexivity|].
  unfold VikingFS.parse_entries in *. cbn [List.map List.fold_right].
  now rewrite IH, from_dict_to_dict.
Qed.

Lemma unlink_entries_skip (uri : string) (l before rest : list RelationEntry.t) :
  (forall e, List.In e l -> ~ List.In uri (RelationEntry.uris e)) ->
  VikingFS.unlink_entries uri before (l ++ rest)
  = VikingFS.unlink_entries uri (before ++ l) rest.
Proof.
  revert before. induction l as [|e l IH]; intros before Hl.
  - now rewrite app_nil_r.
  - cbn [app VikingFS.unlink_entries].
    assert (Str.mem uri (RelationEntry.uris e) = false) as ->.
    { apply mem_false_iff, Hl. now left. }
    rewrite IH by (intros e' He'; apply Hl; now right).
    now rewrite <- app_assoc.
Qed.

Lemma remove_first_last (x : RelationEntry.t) (l : list RelationEntry.t) :
  (forall y, List.In y l -> RelationEntry.id y <> RelationEntry.id x) ->
  RelationEntry.eqb x x = true ->
  VikingFS.remove_first RelationEntry.eqb x (l ++ [x]) = l.
Proof.
  intros Hl Hx. induction l as [|y l IH]; cbn [app VikingFS.remove_first].
  - now rewrite Hx.
  - assert (RelationEntry.eqb y x = false) as ->.
    { unfold RelationEntry.eqb.
      destruct (String.eqb_spec (RelationEntry.id y) (RelationEntry.id x)) as [E|_];
        [|reflexivity].
      exfalso. apply (Hl y); [now left | exact E]. }
    f_equal. apply IH. intros y' Hy'. apply Hl. now right.
Qed.

Lemma next_link_id_fresh (ids : list string) (w : world) :
  (exists i, (1 <= i <= Z.to_nat 9999)%nat /\ ~ List.In ("link_" +:+ pretty i) ids) ->
  exists lid, VikingFS.next_link_id ids w = (inr lid, w) /\ ~ List.In lid ids.
Proof.
  intros (i & Hi & Hfree). unfold VikingFS.next_link_id.
  destruct (List.find _ _) as [j|] eqn:Ef.
  - exists ("link_" +:+ pretty j). split; [reflexivity|].
    apply find_some in Ef as [_ Hj]. apply negb_true_iff in Hj.
    now apply mem_false_iff.
  - exfalso. pose proof (find_none _ _ Ef i) as Hn.
    assert (Hin : List.In i (List.seq 1 (Z.to_nat 9999))) by (apply in_seq; lia).
    specialize (Hn Hin). apply negb_false_iff, mem_true_iff in Hn. contradiction.
Qed.

(** C8 (as amended). For every directory [F], URI [U] and reason [r] such
    that no entry of [F]'s relation table lists [U] yet: [link(F, [U], r)]
    followed by [unlink(F, U)] leaves the table as it was read before (the
    entry just created, emptied of its only URI, is removed).  Both calls
    succeed when [F] and [U] are accessible and a link id is free. *)
Theorem link_unlink_restores_table (w : world) (ctx : option RequestContext)
    (F U reason : string) (table : list RelationEntry.t) :
  let real_ctx := VikingFS._ctx_or_default w ctx in
  VikingFS._is_accessible F real_ctx = true ->
  VikingFS._is_accessible U real_ctx = true ->
  VikingFS.get_relation_table F ctx w = (inr table, w) ->
  (forall e, List.In e table -> ~ List.In U (RelationEntry.uris e)) ->
  (exists i, (1 <= i <= Z.to_nat 9999)%nat
             /\ ~ List.In ("link_" +:+ pretty i) (List.map RelationEntry.id table)) ->
  exists w1 w2,
    VikingFS.link F [U] reason ctx w = (inr tt, w1)
    /\ VikingFS.unlink F U ctx w1 = (inr tt, w2)
    /\ VikingFS.get_relation_table F ctx w2 = (inr table, w2).
Proof.
  intros real_ctx HF HU Hread Hfresh Hfree.
  set (path := VikingFS._uri_to_path F real_ctx).
  assert (HaF : forall w0, VikingFS._ctx_or_default w0 ctx = real_ctx ->
                           VikingFS._ensure_access F ctx w0 = (inr tt, w0)).
  { intros w0 E. unfold VikingFS._ensure_access. now rewrite E, HF. }
  assert (HaU : forall w0, VikingFS._ctx_or_default w0 ctx = real_ctx ->
                           VikingFS._ensure_access U ctx w0 = (inr tt, w0)).
  { intros w0 E. unfold VikingFS._ensure_access. now rewrite E, HU. }
  assert (Hctx : forall f w0, VikingFS._ctx_or_default w0 ctx = real_ctx ->
                   VikingFS._ctx_or_default (set_agfs_files f w0) ctx = real_ctx).
  { intros f w0 <-. destruct ctx; reflexivity. }
  (* the table as read before *)
  assert (Hread0 : VikingFS._read_relation_table path w = (inr table, w)).
  { unfold VikingFS.get_relation_table in Hread. unfold bind at 1 in Hread.
    rewrite (HaF w eq_refl) in Hread. exact Hread. }
  destruct (next_link_id_fresh (List.map RelationEntry.id table) w Hfree)
    as (lid & Hlid & Hnot).
  set (entry := {| RelationEntry.id := lid; RelationEntry.uris := [U];
                   RelationEntry.reason := reason;
                   RelationEntry.created_at := now w |}).
  set (file := path +:+ "/.relations.json").
  set (w1 := set_agfs_files
               (<[file := Json (PList (List.map RelationEntry.to_dict (table ++ [entry])))]>
                  (agfs_files w)) w).
  set (w2 := set_agfs_files
               (<[file := Json (PList (List.map RelationEntry.to_dict table))]>
                  (agfs_files w1)) w1).
  assert (Hreadf : forall l f w0,
             agfs_files w0 = <[file := Json (PList (List.map RelationEntry.to_dict l))]> f ->
             VikingFS._read_relation_table path w0 = (inr l, w0)).
  { intros l f w0 E. unfold VikingFS._read_relation_table. fold file.
    rewrite E, lookup_insert_eq. now rewrite parse_entries_to_dict. }
  exists w1, w2. split; [|split].
  - unfold VikingFS.link. unfold bind at 1. rewrite (HaF w eq_refl).
    unfold bind at 1. cbn [for_each]. unfold bind at 1. rewrite (HaU w eq_refl).
    unfold ret at 1. unfold bind at 1. unfold get_state at 1.
    fold real_ctx. fold path.
    unfold bind at 1. rewrite Hread0.
    unfold bind at 1. rewrite Hlid.
    reflexivity.
  - assert (E1 : VikingFS._ctx_or_default w1 ctx = real_ctx) by (apply Hctx; reflexivity).
    unfold VikingFS.unlink. unfold bind at 1. rewrite (HaF w1 E1).
    unfold bind at 1. rewrite (HaU w1 E1).
    unfold bind at 1. unfold get_state at 1. rewrite E1. fold path.
    unfold try_except. unfold bind at 1.
    rewrite (Hreadf (table ++ [entry]) (agfs_files w) w1 eq_refl).
    rewrite (unlink_entries_skip U table [] [entry] Hfresh).
    cbn [app VikingFS.unlink_entries RelationEntry.uris entry Str.mem existsb].
    rewrite String.eqb_refl. cbn [orb VikingFS.remove_first RelationEntry.uris].
    rewrite String.eqb_refl.
    rewrite remove_first_last.
    + reflexivity.
    + intros y Hy E. apply Hnot. cbn in E. rewrite <- E. now apply in_map.
    + unfold RelationEntry.eqb. cbn. now rewrite !String.eqb_refl.
  - assert (E2 : VikingFS._ctx_or_default w2 ctx = real_ctx).
    { apply Hctx. apply Hctx. reflexivity. }
    unfold VikingFS.get_relation_table. unfold bind at 1. rewrite (HaF w2 E2).
    unfold bind at 1. unfold get_state at 1. rewrite E2. fold path.
    apply (Hreadf table (agfs_files w1) w2 eq_refl).
Qed.

Lemma link_unlink_restores_table_witness :
  exists w1 w2,
    VikingFS.link "viking://resources/docs" ["viking://resources/a"] "see also"
      (Some alice_ctx) quiet_world = (inr tt, w1)
    /\ VikingFS.unlink "viking://resources/docs" "viking://resources/a"
         (Some alice_ctx) w1 = (inr tt, w2)
    /\ VikingFS.get_relation_table "viking://resources/docs" (Some alice_ctx) w2
       = (inr [], w2).
Proof.
  apply (link_unlink_restores_table quiet_world (Some alice_ctx)
           "viking://resources/docs" "viking://resources/a" "see also" []).
  - vm_compute. reflexivity.
  - vm_compute. reflexivity.
  - reflexivity.
  - intros e [].
  - exists 1%nat. split; [lia | intros []].
Defined.

(** C8 as stated fails: when an older entry of the table already lists
    [U], [unlink] takes [U] out of that entry (the first that lists it) and
    the entry created by [link] stays in the table. *)
Lemma link_unlink_changes_table_with_older_link :
  ~ (forall (w : world) (ctx : option RequestContext) (F U reason : string)
            (table : list RelationEntry.t),
       (VikingFS.get_relation_table F ctx w).1 = inr table ->
       (VikingFS.link F [U] reason ctx w).1 = inr tt ->
       let w1 := (VikingFS.link F [U] reason ctx w).2 in
       (VikingFS.unlink F U ctx w1).1 = inr tt ->
       let w2 := (VikingFS.unlink F U ctx w1).2 in
       (VikingFS.get_relation_table F ctx w2).1 = inr table).
Proof.
  intros H.
  specialize (H linked_world (Some alice_ctx) "viking://resources/docs"
                "viking://resources/a" "again" [shared_link]
                ltac:(vm_compute; reflexivity)
                ltac:(vm_compute; reflexivity)
                ltac:(vm_compute; reflexivity)).
  vm_compute in H. discriminate H.
Qed.

(** The table after [link] and [unlink] in that world. *)
Example link_unlink_with_older_link :
  let w1 := (VikingFS.link "viking://resources/docs" ["viking://resources/a"] "again"
               (Some alice_ctx) linked_world).2 in
  let w2 := (VikingFS.unlink "viking://resources/docs" "viking://resources/a"
               (Some alice_ctx) w1).2 in
  List.map (fun e => (RelationEntry.id e, RelationEntry.uris e))
    match (VikingFS.get_relation_table "viking://resources/docs" (Some alice_ctx) w2).1 with
    | inr table => table
    | inl _ => []
    end
  = [("link_1", ["viking://resources/b"]); ("link_2", ["viking://resources/a"])].
Proof. vm_compute. reflexivity. Qed.

(** ** Termination of the best-first search *)

Section RecursiveSearch.

Import HierarchicalRetriever.

Variable search_children : string -> list Hit.
Variable starting_points : list (string * Q).
Variable limit : nat.
Variable threshold : Q.
Variable score_gte : bool.
Variable universe : list string.

Hypothesis universe_closed :
  forall uri, reachable search_children starting_points uri -> List.In uri universe.

Lemma heappop_none (q : list (Q * string)) : heappop q = None -> q = [].
Proof.
  destruct q as [|x q]; [reflexivity|]. cbn [heappop].
  destruct (heappop q) as [[m r]|]; [destruct (entry_ltb m x)|]; discriminate.
Qed.

Lemma heappop_spec (q : list (Q * string)) (e : Q * string) (rest : list (Q * string)) :
  heappop q = Some (e, rest) ->
  length q = S (length rest) /\ List.In e q /\ (forall x, List.In x rest -> List.In x q).
Proof.
  revert e rest. induction q as [|x q IH]; intros e rest H; [discriminate|].
  cbn [heappop] in H. destruct (heappop q) as [[m r]|] eqn:Eq.
  - destruct (IH m r eq_refl) as (Hl & Hin & Hsub).
    destruct (entry_ltb m x); injection H as <- <-.
    + cbn [length]. split; [lia|]. split; [now right|].
      intros y [<-|Hy]; [now left | right; auto].
    + split; [reflexivity|]. split; [now left|]. intros y Hy. now right.
  - injection H as <- <-. apply heappop_none in Eq as ->.
    split; [reflexivity|]. split; [now left|]. intros y [].
Qed.

Lemma mem_cons_mono (x : string) (vis : list string) (u : string) :
  Str.mem u vis = true -> Str.mem u (x :: vis) = true.
Proof.
  intros Hu. unfold Str.mem in *. cbn [existsb]. now rewrite Hu, orb_true_r.
Qed.

(** Visiting more URIs leaves less to do. *)
Lemma weight_mono (f : string -> nat) (vis vis' : list string) (l : list string) :
  (forall u, Str.mem u vis = true -> Str.mem u vis' = true) ->
  (list_sum (List.map (fun u => if Str.mem u vis' then 0 else f u) l)
   <= list_sum (List.map (fun u => if Str.mem u vis then 0 else f u) l))%nat.
Proof.
  intros Hsub. unfold list_sum.
  induction l as [|x l IH]; cbn [List.map List.fold_right]; [lia|].
  destruct (Str.mem x vis) eqn:E.
  - rewrite (Hsub x E). lia.
  - destruct (Str.mem x vis'); lia.
Qed.

Lemma weight_visit (f : string -> nat) (vis : list string) (x : string) (l : list string) :
  List.In x l ->
  Str.mem x vis = false ->
  (list_sum (List.map (fun u => if Str.mem u (x :: vis) then 0 else f u) l) + f x
   <= list_sum (List.map (fun u => if Str.mem u vis then 0 else f u) l))%nat.
Proof.
  intros Hin Hx. induction l as [|y l IH]; [destruct Hin|].
  pose proof (weight_mono f vis (x :: vis) l (mem_cons_mono x vis)) as Hm.
  unfold list_sum in *. cbn [List.map List.fold_right].
  destruct Hin as [->|Hin].
  - rewrite Hx. unfold Str.mem at 1. cbn [existsb]. rewrite String.eqb_refl.
    cbn [orb]. lia.
  - specialize (IH Hin).
    destruct (Str.mem y (x :: vis)) eqn:E1; destruct (Str.mem y vis) eqn:E2; try lia.
    rewrite (mem_cons_mono x vis y E2) in E1. discriminate.
Qed.

Lemma remaining_nil : remaining universe [] = length universe.
Proof.
  unfold remaining, list_sum. generalize universe as l.
  induction l as [|x l IH]; [reflexivity|].
  cbn [List.map List.fold_right length]. rewrite IH. reflexivity.
Qed.

(** One result of a child query: the heap grows by at most one entry, of a
    reachable URI; nothing leaves the visited set; the count of child
    queries is untouched. *)
Lemma visit_result_spec (current_score : Q) (parent : string) (st : state) (r : Hit) :
  reachable search_children starting_points parent ->
  List.In r (search_children parent) ->
  let st' := visit_result score_gte threshold current_score st r in
  (length (dir_queue st') <= S (length (dir_queue st)))%nat
  /\ (forall e, List.In e (dir_queue st') ->
                List.In e (dir_queue st)
                \/ reachable search_children starting_points e.2)
  /\ (forall u, Str.mem u (visited st) = true -> Str.mem u (visited st') = true)
  /\ expansions st' = expansions st.
Proof.
  intros Hp Hr. unfold visit_result.
  destruct (negb (passes_threshold _ _ _)).
  { cbn zeta. repeat split; auto. }
  destruct (Str.mem (hit_uri r) (visited st)) eqn:Ev.
  { cbn. repeat split; auto. }
  destruct (match hit_level r with Some level => level =? 2 | None => false end).
  - cbn. repeat split; auto. intros u. apply mem_cons_mono.
  - cbn. unfold heappush. split; [|split; [|split]]; auto.
    + rewrite length_app. cbn. lia.
    + intros e He. apply in_app_or in He as [He|[<-|[]]]; [now left|].
      right. cbn. now apply reach_child with parent.
Qed.

(** The whole [for] loop over the results of one child query. *)
Lemma visit_results_spec (current_score : Q) (parent : string)
    (results : list Hit) (st : state) :
  reachable search_children starting_points parent ->
  (forall r, List.In r results -> List.In r (search_children parent)) ->
  let st' := List.fold_left (visit_result score_gte threshold current_score) results st in
  (length (dir_queue st') <= length results + length (dir_queue st))%nat
  /\ (forall e, List.In e (dir_queue st') ->
                List.In e (dir_queue st)
                \/ reachable search_children starting_points e.2)
  /\ (forall u, Str.mem u (visited st) = true -> Str.mem u (visited st') = true)
  /\ expansions st' = expansions st.
Proof.
  intros Hp. revert st.
  induction results as [|r results IH]; intros st Hsub; cbn [List.fold_left].
  { cbn. repeat split; auto. }
  destruct (visit_result_spec current_score parent st r Hp (Hsub r (or_introl eq_refl)))
    as (Hl & Hq & Hv & He).
  destruct (IH (visit_result score_gte threshold current_score st r)
              (fun x Hx => Hsub x (or_intror Hx))) as (Hl' & Hq' & Hv' & He').
  cbn zeta in *. split; [|split; [|split]].
  - cbn [length]. lia.
  - intros e Hin. destruct (Hq' e Hin) as [H|H]; [apply Hq, H | now right].
  - intros u Hu. apply Hv', Hv, Hu.
  - congruence.
Qed.

Lemma convergence_check_fields (st : state) :
  let st' := (convergence_check limit st).1 in
  dir_queue st' = dir_queue st /\ visited st' = visited st
  /\ expansions st' = expansions st.
Proof.
  unfold convergence_check.
  destruct (bool_decide _ && _); cbn; repeat split.
Qed.

(** One iteration keeps the invariant and lowers the measure. *)
Lemma iteration_spec (entry : Q * string) (rest : list (Q * string)) (st : state) :
  heappop (dir_queue st) = Some (entry, rest) ->
  search_inv search_children starting_points universe st ->
  let st' := (iteration search_children limit score_gte threshold entry rest st).1 in
  search_inv search_children starting_points universe st'
  /\ (potential search_children universe st' < potential search_children universe st)%nat.
Proof.
  intros Hpop [Hreach Hexp].
  destruct (heappop_spec _ _ _ Hpop) as (Hlen & Hin & Hrest).
  pose proof (Hreach entry Hin) as Hcur.
  unfold iteration.
  cbn [dir_queue visited expansions collected prev_topk_uris convergence_rounds].
  destruct (Str.mem entry.2 (visited st)) eqn:Ev.
  { cbn zeta. cbn [fst]. unfold search_inv, potential. cbn.
    split; [split; [intros e He; apply Hreach, Hrest, He | exact Hexp] | lia]. }
  pose proof (weight_visit (fun u => length (search_children u)) (visited st) entry.2
                universe (universe_closed _ Hcur) Ev) as Hw.
  pose proof (weight_visit (fun _ => 1%nat) (visited st) entry.2
                universe (universe_closed _ Hcur) Ev) as Hr.
  set (st1 := {| collected := collected st; dir_queue := rest;
                 visited := entry.2 :: visited st;
                 prev_topk_uris := prev_topk_uris st;
                 convergence_rounds := convergence_rounds st;
                 expansions := S (expansions st) |}).
  destruct (search_children entry.2) as [|r0 results0] eqn:Ech.
  { cbn zeta. cbn [fst]. unfold search_inv, potential, weight, remaining in *.
    cbn in *.
    split; [split; [intros e He; apply Hreach, Hrest, He | lia] | lia]. }
  assert (Hsub : forall r, List.In r (r0 :: results0) ->
                 List.In r (search_children entry.2)) by (rewrite Ech; auto).
  cbn beta in Hw. rewrite Ech in Hw.
  destruct (visit_results_spec (- entry.1)%Q entry.2 (r0 :: results0) st1 Hcur Hsub)
    as (Hl & Hq & Hv & He).
  destruct (convergence_check_fields
              (List.fold_left (visit_result score_gte threshold (- entry.1)%Q)
                 (r0 :: results0) st1)) as (Cq & Cv & Ce).
  cbv beta iota zeta in *.
  set (st2 := List.fold_left _ (r0 :: results0) st1) in *.
  pose proof (weight_mono (fun u => length (search_children u)) (visited st1)
                (visited st2) universe Hv) as Hw2.
  pose proof (weight_mono (fun _ => 1%nat) (visited st1) (visited st2) universe Hv) as Hr2.
  unfold search_inv, potential, weight, remaining in *.
  rewrite Cq, Cv, Ce, He. cbn [dir_queue visited expansions st1] in *.
  split; [split|].
  - intros e Hine. destruct (Hq e Hine) as [H|H]; [apply Hreach, Hrest, H | exact H].
  - lia.
  - cbn [length] in Hl, Hw. lia.
Qed.

(** The loop ends within as many iterations as the measure allows, and by
    then it has queried the children of at most [length universe] URIs. *)
Lemma search_loop_terminates (fuel : nat) (st : state) :
  search_inv search_children starting_points universe st ->
  (potential search_children universe st <= fuel)%nat ->
  exists st', search_loop search_children limit score_gte threshold fuel st = Some st'
              /\ (expansions st' <= length universe)%nat.
Proof.
  revert st. induction fuel as [|fuel IH]; intros st Hinv Hpot.
  - destruct (heappop (dir_queue st)) as [[entry rest]|] eqn:Hpop.
    + apply heappop_spec in Hpop as (Hlen & _).
      unfold potential in Hpot. lia.
    + exists st. cbn [search_loop]. rewrite Hpop. split; [reflexivity|].
      destruct Hinv as [_ H]. lia.
  - cbn [search_loop].
    destruct (heappop (dir_queue st)) as [[entry rest]|] eqn:Hpop.
    + destruct (iteration_spec entry rest st Hpop Hinv) as [Hinv' Hlt].
      cbn zeta in *.
      destruct (iteration search_children limit score_gte threshold entry rest st)
        as [st' stop].
      cbn [fst] in *. destruct stop.
      * exists st'. split; [reflexivity|]. destruct Hinv' as [_ H]. lia.
      * apply IH; [exact Hinv' | lia].
    + exists st. split; [reflexivity|]. destruct Hinv as [_ H]. lia.
Qed.

Lemma initial_queue (q : list (Q * string)) :
  let q' := List.fold_left (fun q (p : string * Q) => heappush q ((- p.2)%Q, p.1))
              starting_points q in
  length q' = (length q + length starting_points)%nat
  /\ (forall e, List.In e q' ->
        List.In e q \/ exists score, List.In (e.2, score) starting_points).
Proof.
  revert q. generalize starting_points as l.
  induction l as [|[u s] l IH]; intros q; cbn [List.fold_left].
  { cbn. split; [lia | auto]. }
  destruct (IH (heappush q ((- (u, s).2)%Q, (u, s).1))) as [Hl Hin].
  cbn zeta in *. split.
  - rewrite Hl. unfold heappush. rewrite length_app. cbn. lia.
  - intros e He. destruct (Hin e He) as [H|[score H]].
    + unfold heappush in H. apply in_app_or in H as [H|[<-|[]]]; [now left|].
      right. exists s. now left.
    + right. exists score. now right.
Qed.

Lemma initial_state_inv :
  search_inv search_children starting_points universe (initial_state starting_points)
  /\ potential search_children universe (initial_state starting_points)
     = enough_fuel search_children starting_points universe.
Proof.
  destruct (initial_queue []) as [Hl Hin]. cbn zeta in *.
  unfold search_inv, potential, enough_fuel, initial_state.
  cbn [dir_queue visited expansions]. split; [split|].
  - intros e He. destruct (Hin e He) as [[]|[score H]].
    now apply reach_start with score.
  - rewrite remaining_nil. lia.
  - rewrite Hl. reflexivity.
Qed.

End RecursiveSearch.

(** C7. When [universe] lists, without repetition, the URIs that can be
    reached from the starting points through the records that
    [search_children] returns, then whatever the scores, the limit and the
    threshold are, [_recursive_search] returns once it is allowed
    [enough_fuel] iterations, and it has queried the children of at most
    [length universe] URIs by then. *)
Theorem recursive_search_terminates
    (search_children : string -> list HierarchicalRetriever.Hit)
    (starting_points : list (string * Q)) (limit : nat) (threshold : Q)
    (score_gte : bool) (universe : list string) (fuel : nat) :
  List.NoDup universe ->
  (forall uri,
     HierarchicalRetriever.reachable search_children starting_points uri
     <-> List.In uri universe) ->
  (enough_fuel search_children starting_points universe <= fuel)%nat ->
  exists result n,
    HierarchicalRetriever._recursive_search search_children starting_points
      limit threshold score_gte fuel = Some (result, n)
    /\ (n <= length universe)%nat.
Proof.
  intros _ Hreach Hfuel.
  assert (Hclosed : forall uri,
            HierarchicalRetriever.reachable search_children starting_points uri ->
            List.In uri universe) by (intros uri; apply Hreach).
  destruct (initial_state_inv search_children starting_points universe) as [Hinv Hpot].
  destruct (search_loop_terminates search_children starting_points limit threshold
              score_gte universe Hclosed fuel _ Hinv) as (st & Hloop & Hn).
  { rewrite Hpot. exact Hfuel. }
  unfold HierarchicalRetriever._recursive_search. rewrite Hloop.
  eexists _, _. split; [reflexivity | exact Hn].
Qed.

Lemma tree_uris_reachable (uri : string) :
  HierarchicalRetriever.reachable tree_children tree_starting_points uri
  <-> List.In uri tree_uris.
Proof.
  assert (Hroot : HierarchicalRetriever.reachable tree_children tree_starting_points
                    "viking://resources").
  { apply HierarchicalRetriever.reach_start with (Qmake 5 10). now left. }
  assert (Hdocs : HierarchicalRetriever.reachable tree_children tree_starting_points
                    "viking://resources/docs").
  { apply (HierarchicalRetriever.reach_child _ _ "viking://resources"
             {| HierarchicalRetriever.hit_uri := "viking://resources/docs";
                HierarchicalRetriever.hit_level := Some 1;
                HierarchicalRetriever.hit_score := Qmake 8 10 |} Hroot).
    now left. }
  split.
  - induction 1 as [uri score Hin | parent r Hp IH Hr].
    + destruct Hin as [H|[H|[]]]; injection H as <- _; now left.
    + destruct IH as [<-|[<-|[<-|[<-|[]]]]]; cbn in Hr.
      * destruct Hr as [<-|[<-|[]]]; cbn; auto.
      * destruct Hr as [<-|[]]; cbn; auto.
      * destruct Hr.
      * destruct Hr.
  - intros [<-|[<-|[<-|[<-|[]]]]].
    + exact Hroot.
    + exact Hdocs.
    + apply (HierarchicalRetriever.reach_child _ _ "viking://resources"
               {| HierarchicalRetriever.hit_uri := "viking://resources/readme.md";
                  HierarchicalRetriever.hit_level := Some 2;
                  HierarchicalRetriever.hit_score := Qmake 6 10 |} Hroot).
      right. now left.
    + apply (HierarchicalRetriever.reach_child _ _ "viking://resources/docs"
               {| HierarchicalRetriever.hit_uri := "viking://resources/docs/guide.md";
                  HierarchicalRetriever.hit_level := Some 2;
                  HierarchicalRetriever.hit_score := Qmake 9 10 |} Hdocs).
      now left.
Qed.

Lemma tree_uris_nodup : List.NoDup tree_uris.
Proof.
  unfold tree_uris.
  repeat (constructor; [cbn; intuition discriminate|]).
  constructor.
Qed.

Lemma recursive_search_terminates_witness :
  exists result n,
    HierarchicalRetriever._recursive_search tree_children tree_starting_points
      (Z.to_nat 5) (Qmake 1 10) false (Z.to_nat 5) = Some (result, n)
    /\ (n <= length tree_uris)%nat.
Proof.
  apply (recursive_search_terminates tree_children tree_starting_points
           (Z.to_nat 5) (Qmake 1 10) false tree_uris (Z.to_nat 5)).
  - exact tree_uris_nodup.
  - exact tree_uris_reachable.
  - apply Nat.leb_le. vm_compute. reflexivity.
Defined.

(** On that tree the loop queries the children of the two directories and
    returns the three records, best first. *)
Example recursive_search_tree :
  (fun r : option (list (HierarchicalRetriever.Hit * Q) * nat) =>
     match r with
     | Some (result, n) =>
         Some (List.map (fun c : HierarchicalRetriever.Hit * Q =>
                           HierarchicalRetriever.hit_uri c.1) result, n)
     | None => None
     end)
    (HierarchicalRetriever._recursive_search tree_children tree_starting_points
       (Z.to_nat 5) (Qmake 1 10) false (Z.to_nat 5))
  = Some ([ "viking://resources/docs/guide.md"; "viking://resources/docs";
            "viking://resources/readme.md" ], 2%nat).
Proof. vm_compute. reflexivity. Qed.

(** * Further properties *)

(** ** [VikingFS]: URIs and paths *)

Lemma uri_parts_segments (uri : string) :
  VikingFS.uri_parts uri = Str.segments (Str.drop 9 uri).
Proof. apply segments_strip_slash. Qed.

Lemma uri_parts_child (uri child : string) :
  Str.startswith "viking://" uri = true ->
  VikingFS.uri_parts (uri +:+ "/" +:+ child)
  = VikingFS.uri_parts uri ++ Str.segments child.
Proof.
  intros H. rewrite !uri_parts_segments.
  rewrite drop_append by (apply prefix_length in H; exact H).
  change ("/" +:+ child) with (String "/" child). apply segments_app.
Qed.

(** X1. Access is decided by the first two segments of a URI: for a URI
    [viking://p1/p2/...], every URI [uri/child] below it is accessible to a
    context exactly when [uri] is. *)
Theorem access_inherited_below_second_segment (uri child : string)
    (ctx : RequestContext) (p1 p2 : string) (rest : list string) :
  Str.startswith "viking://" uri = true ->
  VikingFS.uri_parts uri = p1 :: p2 :: rest ->
  VikingFS._is_accessible (uri +:+ "/" +:+ child) ctx = VikingFS._is_accessible uri ctx.
Proof.
  intros Hs Hp. unfold VikingFS._is_accessible, VikingFS._extract_space_from_uri.
  rewrite (uri_parts_child uri child Hs), Hp.
  unfold Str.startswith in *. rewrite (prefix_append _ _ _ Hs), Hs.
  reflexivity.
Qed.

Lemma access_inherited_below_second_segment_witness :
  VikingFS._is_accessible ("viking://user/bob/memories" +:+ "/" +:+ "notes/n.md") alice_ctx
  = VikingFS._is_accessible "viking://user/bob/memories" alice_ctx.
Proof.
  apply (access_inherited_below_second_segment
           "viking://user/bob/memories" "notes/n.md" alice_ctx "user" "bob" ["memories"]);
    reflexivity.
Defined.

Lemma uri_parts_scoped (scope space leaf : string) :
  is_segment scope = true ->
  slash_free space = true ->
  is_segment leaf = true ->
  VikingFS.uri_parts ("viking://" +:+ scope +:+ "/" +:+ space +:+ "/" +:+ leaf)
  = scope :: (if Str.nonempty space then [space] else []) ++ [leaf].
Proof.
  intros Hscope Hspace Hleaf. rewrite uri_parts_segments.
  change 9%nat with (String.length "viking://"). rewrite drop_append_self.
  change ("/" +:+ space +:+ "/" +:+ leaf) with (String "/" (space +:+ String "/" leaf)).
  rewrite !segments_app, (segments_segment scope Hscope), (segments_segment leaf Hleaf).
  now rewrite (segments_slash_free space Hspace).
Qed.

(** How [_is_accessible] decides a URI of at least two segments, for a
    context that is not ROOT. *)
Lemma is_accessible_two_segments (uri : string) (ctx : RequestContext)
    (scope second : string) (rest : list string) :
  Role_eqb (role ctx) ROOT = false ->
  Str.startswith "viking://" uri = true ->
  VikingFS.uri_parts uri = scope :: second :: rest ->
  VikingFS._is_accessible uri ctx
  = if Str.mem scope ["resources"; "temp"; "transactions"] then true
    else if String.eqb scope "_system" then false
    else if String.eqb scope "user"
    then Str.mem second VikingFS._USER_STRUCTURE_DIRS
         || String.eqb second (user_space_name ctx)
    else if String.eqb scope "agent"
    then Str.mem second VikingFS._AGENT_STRUCTURE_DIRS
         || String.eqb second (agent_space_name ctx)
    else if String.eqb scope "session" then String.eqb second (user_space_name ctx)
    else true.
Proof.
  intros Hrole Hs Hp.
  unfold VikingFS._is_accessible, VikingFS._extract_space_from_uri.
  rewrite Hrole, Hs, Hp. cbn [negb].
  set (mu := Str.mem second VikingFS._USER_STRUCTURE_DIRS).
  set (ma := Str.mem second VikingFS._AGENT_STRUCTURE_DIRS).
  destruct (String.eqb_spec scope "user") as [->|Hu].
  { destruct mu; reflexivity. }
  destruct (String.eqb_spec scope "agent") as [->|Ha].
  { destruct ma; reflexivity. }
  destruct (String.eqb_spec scope "session") as [->|Hse].
  { reflexivity. }
  cbn [Str.mem existsb andb orb].
  apply String.eqb_neq in Hu, Ha, Hse. rewrite ?Hu, ?Hse, ?Ha.
  destruct (String.eqb scope "resources" || _); [reflexivity|].
  destruct (String.eqb scope "_system"); reflexivity.
Qed.

(** X2. The starting directories the retriever derives from the request
    context are all accessible to that context, provided the user and agent
    space names hold no [/]. *)
Theorem root_uris_accessible (context_type : option ContextType)
    (ctx : RequestContext) (uri : string) :
  slash_free (user_space_name ctx) = true ->
  slash_free (agent_space_name ctx) = true ->
  List.In uri (_get_root_uris_for_type context_type (Some ctx)) ->
  VikingFS._is_accessible uri ctx = true.
Proof.
  intros Hu Ha Hin. unfold _get_root_uris_for_type in Hin.
  destruct (Role_eqb (role ctx) ROOT) eqn:Hrole; [destruct Hin|].
  assert (Hscoped : forall scope space leaf,
             is_segment scope = true -> slash_free space = true ->
             is_segment leaf = true ->
             (if String.eqb scope "user"
              then Str.mem leaf VikingFS._USER_STRUCTURE_DIRS
                   && String.eqb space (user_space_name ctx)
              else String.eqb scope "agent"
                   && Str.mem leaf VikingFS._AGENT_STRUCTURE_DIRS
                   && String.eqb space (agent_space_name ctx)) = true ->
             VikingFS._is_accessible
               ("viking://" +:+ scope +:+ "/" +:+ space +:+ "/" +:+ leaf) ctx = true).
  { intros scope space leaf Hscope Hspace Hleaf Hcase.
    pose proof (uri_parts_scoped scope space leaf Hscope Hspace Hleaf) as Hparts.
    pose proof (prefix_append_self "viking://"
                  (scope +:+ "/" +:+ space +:+ "/" +:+ leaf)) as Hpre.
    destruct (Str.nonempty space); cbn [app] in Hparts;
      rewrite (is_accessible_two_segments _ ctx _ _ _ Hrole Hpre Hparts).
    - destruct (String.eqb_spec scope "user") as [->|_].
      + apply andb_prop in Hcase as [_ ->]. now rewrite orb_true_r.
      + apply andb_prop in Hcase as [[->%String.eqb_eq _]%andb_prop ->].
        now rewrite orb_true_r.
    - destruct (String.eqb_spec scope "user") as [->|_].
      + apply andb_prop in Hcase as [-> _]. reflexivity.
      + apply andb_prop in Hcase as [[->%String.eqb_eq ->]%andb_prop _].
        reflexivity. }
  assert (Hres : VikingFS._is_accessible "viking://resources" ctx = true).
  { unfold VikingFS._is_accessible. rewrite Hrole. reflexivity. }
  assert (Hum : VikingFS._is_accessible
                  ("viking://user/" +:+ user_space_name ctx +:+ "/memories") ctx = true).
  { apply (Hscoped "user" (user_space_name ctx) "memories");
      [reflexivity | exact Hu | reflexivity |].
    cbn. apply String.eqb_refl. }
  assert (Ham : VikingFS._is_accessible
                  ("viking://agent/" +:+ agent_space_name ctx +:+ "/memories") ctx = true).
  { apply (Hscoped "agent" (agent_space_name ctx) "memories");
      [reflexivity | exact Ha | reflexivity |].
    cbn. apply String.eqb_refl. }
  assert (Has : VikingFS._is_accessible
                  ("viking://agent/" +:+ agent_space_name ctx +:+ "/skills") ctx = true).
  { apply (Hscoped "agent" (agent_space_name ctx) "skills");
      [reflexivity | exact Ha | reflexivity |].
    cbn. apply String.eqb_refl. }
  destruct context_type as [[| |]|]; cbn [List.In] in Hin;
    repeat (destruct Hin as [<-|Hin]; [assumption|]); destruct Hin.
Qed.

Lemma root_uris_accessible_witness :
  VikingFS._is_accessible "viking://agent/helper/skills" alice_ctx = true.
Proof.
  apply (root_uris_accessible (Some SKILL) alice_ctx);
    [reflexivity | reflexivity | now left].
Defined.

(** ** [VikingFS._shorten_component] and the URI/path mapping *)

Lemma length_substring_le (n m : nat) (s : string) :
  (String.length (String.substring n m s) <= m)%nat.
Proof.
  revert n m. induction s as [|c s IH]; intros n m.
  - destruct n, m; cbn; lia.
  - destruct n as [|n]; [destruct m as [|m]|]; cbn; [lia | specialize (IH 0%nat m); lia|].
    apply IH.
Qed.

Lemma length_string_of_list_ascii (l : list ascii) :
  String.length (string_of_list_ascii l) = length l.
Proof. induction l as [|c l IH]; cbn; [reflexivity | now rewrite IH]. Qed.

Lemma length_list_ascii_of_string (s : string) :
  length (list_ascii_of_string s) = String.length s.
Proof. induction s as [|c s IH]; cbn; [reflexivity | now rewrite IH]. Qed.

(** Dropping the last code point shortens a non-empty string. *)
Lemma drop_last_char_shorter (s : string) :
  Str.nonempty s = true ->
  (Str.byte_len (Str.drop_last_char s) < Str.byte_len s)%nat.
Proof.
  intros Hn. unfold Str.drop_last_char, Str.byte_len.
  set (go := fix go (l : list ascii) : list ascii :=
               match l with
               | [] => []
               | c :: l' => if Str.is_continuation c then go l' else l'
               end).
  assert (Hgo : forall l, (length (go l) <= Nat.pred (length l))%nat).
  { induction l as [|c l IH]; cbn; [lia|].
    destruct (Str.is_continuation c); lia. }
  rewrite length_string_of_list_ascii, length_rev.
  specialize (Hgo (List.rev (list_ascii_of_string s))).
  rewrite length_rev, length_list_ascii_of_string in Hgo.
  destruct s; [discriminate|]. cbn in *. lia.
Qed.

Lemma trim_to_fits (fuel target : nat) (prefix : string) :
  (Str.byte_len prefix <= fuel)%nat ->
  (Str.byte_len (VikingFS.trim_to fuel target prefix) <= target)%nat.
Proof.
  revert prefix. induction fuel as [|fuel IH]; intros prefix Hlen.
  - cbn [VikingFS.trim_to]. lia.
  - cbn [VikingFS.trim_to].
    destruct (target <? Str.byte_len prefix)%nat eqn:Elt; cbn [andb].
    + destruct (Str.nonempty prefix) eqn:En.
      * apply IH. pose proof (drop_last_char_shorter prefix En). lia.
      * destruct prefix; [cbn; lia | discriminate].
    + apply Nat.ltb_ge in Elt. exact Elt.
Qed.

(** X3. [_shorten_component] returns a name of at most [max_bytes] bytes
    (for [max_bytes] of 9 or more, the room the hash suffix needs), and
    leaves a name that already fits as it is. *)
Theorem shorten_component_fits (component : string) (max_bytes : nat) :
  (9 <= max_bytes)%nat ->
  (Str.byte_len (VikingFS._shorten_component component max_bytes) <= max_bytes)%nat
  /\ ((Str.byte_len component <= max_bytes)%nat ->
      VikingFS._shorten_component component max_bytes = component).
Proof.
  intros Hmax. unfold VikingFS._shorten_component.
  destruct (Str.byte_len component <=? max_bytes)%nat eqn:E.
  - apply Nat.leb_le in E. split; [exact E | reflexivity].
  - apply Nat.leb_gt in E. split; [|lia].
    set (hash_suffix := String.substring 0 8 (Hashlib.sha256_hexdigest component)).
    pose proof (length_substring_le 0 8 (Hashlib.sha256_hexdigest component)) as Hh.
    fold hash_suffix in Hh.
    set (target := (max_bytes - Str.byte_len ("_" +:+ hash_suffix))%nat).
    pose proof (trim_to_fits (Str.byte_len component) target component (Nat.le_refl _))
      as Ht.
    unfold Str.byte_len in *. rewrite !length_append.
    change (String.length "_") with 1%nat.
    assert (Htarget : target = (max_bytes - (1 + String.length hash_suffix))%nat).
    { unfold target. now rewrite length_append. }
    lia.
Qed.

Lemma shorten_component_fits_witness :
  (Str.byte_len (VikingFS._shorten_component "notes" 255) <= 255)%nat
  /\ ((Str.byte_len "notes" <= 255)%nat ->
      VikingFS._shorten_component "notes" 255 = "notes").
Proof.
  apply (shorten_component_fits "notes" 255). apply Nat.leb_le. reflexivity.
Defined.

Lemma shorten_short_parts (parts : list string) :
  Forall (fun p => (Str.byte_len p <= VikingFS._MAX_FILENAME_BYTES)%nat) parts ->
  List.map (fun p => VikingFS._shorten_component p VikingFS._MAX_FILENAME_BYTES) parts
  = parts.
Proof.
  induction 1 as [|p ps Hp _ IH]; [reflexivity|]. cbn [List.map]. rewrite IH. f_equal.
  unfold VikingFS._shorten_component. apply Nat.leb_le in Hp. now rewrite Hp.
Qed.

Lemma path_to_uri_local (account : string) (parts : list string) (ctx : RequestContext) :
  account = account_id ctx ->
  is_segment account = true ->
  Forall (fun p => is_segment p = true) parts ->
  VikingFS._path_to_uri ("/local/" +:+ account +:+ "/" +:+ Str.join_slash parts) ctx
  = "viking://" +:+ Str.join_slash parts.
Proof.
  intros -> Hacc Hparts. unfold VikingFS._path_to_uri.
  assert (Hnv : Str.startswith "viking://"
                  ("/local/" +:+ account_id ctx +:+ "/" +:+ Str.join_slash parts) = false)
    by reflexivity.
  rewrite Hnv.
  assert (Hl : Str.startswith "/local/"
                 ("/local/" +:+ account_id ctx +:+ "/" +:+ Str.join_slash parts) = true)
    by apply (prefix_append_self "/local/").
  rewrite Hl.
  change 7%nat with (String.length "/local/"). rewrite drop_append_self.
  assert (Hseg : Str.segments
                   (Str.strip_slash (account_id ctx +:+ "/" +:+ Str.join_slash parts))
                 = account_id ctx :: parts).
  { rewrite segments_strip_slash.
    change ("/" +:+ Str.join_slash parts) with (String "/" (Str.join_slash parts)).
    now rewrite segments_app, (segments_segment _ Hacc), (segments_join_slash _ Hparts). }
  rewrite (segments_nonempty _ ltac:(rewrite Hseg; discriminate)), Hseg.
  cbn [negb]. rewrite String.eqb_refl.
  destruct parts; [reflexivity | reflexivity].
Qed.

(** X4. Mapping a URI to its storage path and back normalises it: the
    result is [viking://] followed by the non-empty segments of the URI
    joined by single slashes, whenever no segment exceeds 255 bytes and the
    account id is a single path segment. *)
Theorem path_to_uri_of_uri_to_path (uri : string) (ctx : RequestContext) :
  Str.startswith "viking://" uri = true ->
  is_segment (account_id ctx) = true ->
  Forall (fun p => (Str.byte_len p <= 255)%nat) (VikingFS.uri_parts uri) ->
  VikingFS._path_to_uri (VikingFS._uri_to_path uri ctx) ctx
  = "viking://" +:+ Str.join_slash (VikingFS.uri_parts uri).
Proof.
  intros Hs Hacc Hshort. unfold VikingFS._uri_to_path. rewrite Hs.
  assert (Hparts : VikingFS.uri_parts uri
                   = Str.segments (Str.strip_slash (Str.drop 9 uri)))
    by reflexivity.
  destruct (Str.nonempty (Str.strip_slash (Str.drop 9 uri))) eqn:En; cbn [negb].
  - rewrite <- Hparts. rewrite (shorten_short_parts _ Hshort).
    apply path_to_uri_local; [reflexivity | exact Hacc |].
    rewrite uri_parts_segments. apply segments_are_segments.
  - assert (Hnil : VikingFS.uri_parts uri = []).
    { unfold VikingFS.uri_parts.
      destruct (Str.strip_slash (Str.drop 9 uri)); [reflexivity | discriminate]. }
    rewrite Hnil.
    unfold VikingFS._path_to_uri.
    assert (Hnv : Str.startswith "viking://" ("/local/" +:+ account_id ctx) = false)
      by reflexivity.
    rewrite Hnv.
    assert (Hl : Str.startswith "/local/" ("/local/" +:+ account_id ctx) = true)
      by apply (prefix_append_self "/local/").
    rewrite Hl. change 7%nat with (String.length "/local/"). rewrite drop_append_self.
    assert (Hseg : Str.segments (Str.strip_slash (account_id ctx)) = [account_id ctx])
      by (rewrite segments_strip_slash; now apply segments_segment).
    rewrite (segments_nonempty _ ltac:(rewrite Hseg; discriminate)), Hseg.
    cbn [negb]. now rewrite String.eqb_refl.
Qed.

Lemma path_to_uri_of_uri_to_path_witness :
  VikingFS._path_to_uri
    (VikingFS._uri_to_path "viking://user//alice/memories/" alice_ctx) alice_ctx
  = "viking://" +:+ Str.join_slash (VikingFS.uri_parts "viking://user//alice/memories/").
Proof.
  apply (path_to_uri_of_uri_to_path "viking://user//alice/memories/" alice_ctx).
  - reflexivity.
  - reflexivity.
  - repeat constructor; apply Nat.leb_le; reflexivity.
Defined.

(** ** [VikingFS]: the relation table *)

Lemma read_written_table (path : string) (l : list RelationEntry.t)
    (f : gmap string blob) (w : world) :
  agfs_files w
  = <[path +:+ "/.relations.json" := Json (PList (List.map RelationEntry.to_dict l))]> f ->
  VikingFS._read_relation_table path w = (inr l, w).
Proof.
  intros E. unfold VikingFS._read_relation_table.
  rewrite E, lookup_insert_eq. now rewrite parse_entries_to_dict.
Qed.

Lemma ensure_access_ok (uri : string) (ctx : option RequestContext) (w : world) :
  VikingFS._is_accessible uri (VikingFS._ctx_or_default w ctx) = true ->
  VikingFS._ensure_access uri ctx w = (inr tt, w).
Proof. intros H. unfold VikingFS._ensure_access. now rewrite H. Qed.

Lemma ensure_access_all (uris : list string) (ctx : option RequestContext) (w : world) :
  (forall u, List.In u uris ->
             VikingFS._is_accessible u (VikingFS._ctx_or_default w ctx) = true) ->
  for_each uris (fun uri => VikingFS._ensure_access uri ctx) w = (inr tt, w).
Proof.
  induction uris as [|u uris IH]; intros H; [reflexivity|].
  cbn [for_each]. unfold bind.
  rewrite (ensure_access_ok u ctx w (H u (or_introl eq_refl))).
  apply IH. intros v Hv. apply H. now right.
Qed.

Lemma ctx_or_default_files (f : gmap string blob) (w : world)
    (ctx : option RequestContext) :
  VikingFS._ctx_or_default (set_agfs_files f w) ctx = VikingFS._ctx_or_default w ctx.
Proof. destruct ctx; reflexivity. Qed.

Lemma get_relation_table_read (uri : string) (ctx : option RequestContext) (w : world) :
  VikingFS._is_accessible uri (VikingFS._ctx_or_default w ctx) = true ->
  VikingFS.get_relation_table uri ctx w
  = VikingFS._read_relation_table
      (VikingFS._uri_to_path uri (VikingFS._ctx_or_default w ctx)) w.
Proof.
  intros H. unfold VikingFS.get_relation_table. unfold bind at 1.
  now rewrite (ensure_access_ok uri ctx w H).
Qed.

Lemma read_relation_table_state (path : string) (w : world) :
  (VikingFS._read_relation_table path w).2 = w.
Proof.
  unfold VikingFS._read_relation_table.
  destruct (agfs_files w !! _) as [[|[]]|]; try reflexivity.
  destruct (VikingFS.legacy_entries d); reflexivity.
Qed.

(** What [link] does once access is granted and the table is read. *)
Lemma link_appends (w : world) (ctx : option RequestContext) (F reason : string)
    (uris : list string) (table : list RelationEntry.t) :
  let real_ctx := VikingFS._ctx_or_default w ctx in
  let path := VikingFS._uri_to_path F real_ctx in
  VikingFS._is_accessible F real_ctx = true ->
  (forall u, List.In u uris -> VikingFS._is_accessible u real_ctx = true) ->
  VikingFS._read_relation_table path w = (inr table, w) ->
  (exists i, (1 <= i <= Z.to_nat 9999)%nat
             /\ ~ List.In ("link_" +:+ pretty i) (List.map RelationEntry.id table)) ->
  exists lid,
    ~ List.In lid (List.map RelationEntry.id table)
    /\ VikingFS.link F uris reason ctx w
       = (inr tt,
          set_agfs_files
            (<[path +:+ "/.relations.json" :=
                 Json (PList (List.map RelationEntry.to_dict
                                (table ++ [{| RelationEntry.id := lid;
                                              RelationEntry.uris := uris;
                                              RelationEntry.reason := reason;
                                              RelationEntry.created_at := now w |}])))]>
               (agfs_files w)) w).
Proof.
  intros real_ctx path HF HU Hread Hfree.
  destruct (next_link_id_fresh (List.map RelationEntry.id table) w Hfree)
    as (lid & Hlid & Hnot).
  exists lid. split; [exact Hnot|].
  unfold VikingFS.link. unfold bind at 1. rewrite (ensure_access_ok F ctx w HF).
  unfold bind at 1. rewrite (ensure_access_all uris ctx w HU).
  unfold bind at 1. unfold get_state at 1. fold real_ctx. fold path.
  unfold bind at 1. rewrite Hread.
  unfold bind at 1. rewrite Hlid. reflexivity.
Qed.

Lemma filter_all_true {A : Type} (f : A -> bool) (l : list A) :
  (forall x, List.In x l -> f x = true) -> List.filter f l = l.
Proof.
  induction l as [|x l IH]; intros H; [reflexivity|]. cbn.
  rewrite (H x (or_introl eq_refl)). f_equal. apply IH. intros y Hy. apply H. now right.
Qed.

(** X6. After a successful [link(F, uris, reason)], [get_relations(F)]
    returns what it returned before followed by [uris]: the new relations are
    readable at once, and the older ones are kept in order. *)
Theorem link_then_get_relations (w : world) (ctx : option RequestContext)
    (F reason : string) (uris : list string) (table : list RelationEntry.t) :
  let real_ctx := VikingFS._ctx_or_default w ctx in
  VikingFS._is_accessible F real_ctx = true ->
  (forall u, List.In u uris -> VikingFS._is_accessible u real_ctx = true) ->
  VikingFS.get_relation_table F ctx w = (inr table, w) ->
  (exists i, (1 <= i <= Z.to_nat 9999)%nat
             /\ ~ List.In ("link_" +:+ pretty i) (List.map RelationEntry.id table)) ->
  exists old w1,
    Relations.get_relations F ctx w = (inr old, w)
    /\ VikingFS.link F uris reason ctx w = (inr tt, w1)
    /\ Relations.get_relations F ctx w1 = (inr (old ++ uris), w1).
Proof.
  intros real_ctx HF HU Hread Hfree.
  pose proof Hread as Hread0. rewrite (get_relation_table_read F ctx w HF) in Hread0.
  destruct (link_appends w ctx F reason uris table HF HU Hread0 Hfree)
    as (lid & _ & Hlink).
  eexists _, _. split; [|split; [exact Hlink|]].
  - unfold Relations.get_relations. unfold bind at 1. rewrite Hread. reflexivity.
  - unfold Relations.get_relations. unfold bind at 1.
    rewrite get_relation_table_read by (rewrite ctx_or_default_files; exact HF).
    rewrite ctx_or_default_files.
    erewrite read_written_table by reflexivity.
    unfold bind, get_state, ret. rewrite ctx_or_default_files. fold real_ctx.
    rewrite List.flat_map_app. cbn [List.flat_map RelationEntry.uris].
    rewrite app_nil_r, (filter_all_true _ uris HU). reflexivity.
Qed.

Lemma link_then_get_relations_witness :
  exists old w1,
    Relations.get_relations "viking://resources/docs" (Some alice_ctx) quiet_world
    = (inr old, quiet_world)
    /\ VikingFS.link "viking://resources/docs" ["viking://resources/a"] "see also"
         (Some alice_ctx) quiet_world = (inr tt, w1)
    /\ Relations.get_relations "viking://resources/docs" (Some alice_ctx) w1
       = (inr (old ++ ["viking://resources/a"]), w1).
Proof.
  apply (link_then_get_relations quiet_world (Some alice_ctx)
           "viking://resources/docs" "see also" ["viking://resources/a"] []).
  - vm_compute. reflexivity.
  - intros u [<-|[]]. vm_compute. reflexivity.
  - reflexivity.
  - exists 1%nat. split; [lia | intros []].
Defined.

Lemma get_relation_table_inr (uri : string) (ctx : option RequestContext)
    (w w0 : world) (table : list RelationEntry.t) :
  VikingFS.get_relation_table uri ctx w = (inr table, w0) ->
  VikingFS._is_accessible uri (VikingFS._ctx_or_default w ctx) = true /\ w0 = w.
Proof.
  intros Ht.
  destruct (VikingFS._is_accessible uri (VikingFS._ctx_or_default w ctx)) eqn:Hacc.
  - split; [reflexivity|]. rewrite (get_relation_table_read uri ctx w Hacc) in Ht.
    pose proof (read_relation_table_state
                  (VikingFS._uri_to_path uri (VikingFS._ctx_or_default w ctx)) w) as Hs.
    now rewrite Ht in Hs.
  - unfold VikingFS.get_relation_table, bind, VikingFS._ensure_access in Ht.
    rewrite Hacc in Ht. discriminate.
Qed.

(** X7. [get_relations] returns only URIs that the caller may access, each
    of them listed in an entry of the relation table, and leaves the state
    as it is; [relations] returns the same URIs in the same order. *)
Theorem get_relations_only_accessible (uri : string) (ctx : option RequestContext)
    (w w' : world) (result : list string) :
  Relations.get_relations uri ctx w = (inr result, w') ->
  w' = w
  /\ (forall u, List.In u result ->
        VikingFS._is_accessible u (VikingFS._ctx_or_default w ctx) = true
        /\ exists table entry,
             VikingFS.get_relation_table uri ctx w = (inr table, w)
             /\ List.In entry table /\ List.In u (RelationEntry.uris entry))
  /\ exists pairs, Relations.relations uri ctx w = (inr pairs, w)
                   /\ List.map fst pairs = result.
Proof.
  unfold Relations.get_relations, Relations.relations. unfold bind at 1.
  destruct (VikingFS.get_relation_table uri ctx w) as [[e|table] w0] eqn:Ht;
    [discriminate|].
  destruct (get_relation_table_inr uri ctx w w0 table Ht) as [Hok Hw0].
  subst w0. unfold bind, get_state, ret. intros [= <- <-].
  split; [reflexivity|]. split.
  - intros u Hu. apply in_flat_map in Hu as (entry & Hentry & Hu).
    apply filter_In in Hu as [Hu Hacc]. split; [exact Hacc|].
    exists table, entry. auto.
  - pose proof (ensure_access_ok uri ctx w Hok) as Hacc.
    rewrite Hacc, Ht. eexists. split; [reflexivity|].
    induction table as [|entry table IH]; [reflexivity|].
    cbn [List.flat_map]. rewrite !List.map_app, List.map_map. cbn [fst].
    rewrite List.map_id. f_equal.
    clear -table. induction table as [|e t IHt]; [reflexivity|].
    cbn [List.flat_map]. rewrite !List.map_app, List.map_map. cbn [fst].
    rewrite List.map_id. now f_equal.
Qed.

Lemma get_relations_only_accessible_witness :
  VikingFS._is_accessible "viking://resources/b"
    (VikingFS._ctx_or_default linked_world (Some alice_ctx)) = true.
Proof.
  apply (proj1 (proj2 (get_relations_only_accessible
                         "viking://resources/docs" (Some alice_ctx)
                         linked_world linked_world
                         ["viking://resources/a"; "viking://resources/b"] eq_refl))).
  right. now left.
Defined.

Lemma unlink_entries_none (uri : string) (table before : list RelationEntry.t) :
  (forall e, List.In e table -> ~ List.In uri (RelationEntry.uris e)) ->
  VikingFS.unlink_entries uri before table = None.
Proof.
  intros H. rewrite <- (app_nil_r table).
  now rewrite (unlink_entries_skip uri table before [] H).
Qed.

(** X8. [unlink(F, U)] for a URI [U] that no entry of [F]'s relation table
    lists succeeds and writes nothing: the whole state is unchanged. *)
Theorem unlink_unknown_uri_is_noop (w : world) (ctx : option RequestContext)
    (F U : string) (table : list RelationEntry.t) :
  let real_ctx := VikingFS._ctx_or_default w ctx in
  VikingFS._is_accessible F real_ctx = true ->
  VikingFS._is_accessible U real_ctx = true ->
  VikingFS.get_relation_table F ctx w = (inr table, w) ->
  (forall e, List.In e table -> ~ List.In U (RelationEntry.uris e)) ->
  VikingFS.unlink F U ctx w = (inr tt, w).
Proof.
  intros real_ctx HF HU Hread Habsent.
  rewrite (get_relation_table_read F ctx w HF) in Hread.
  unfold VikingFS.unlink. unfold bind at 1. rewrite (ensure_access_ok F ctx w HF).
  unfold bind at 1. rewrite (ensure_access_ok U ctx w HU).
  unfold bind at 1. unfold get_state at 1.
  unfold try_except, bind. rewrite Hread.
  now rewrite (unlink_entries_none U table [] Habsent).
Qed.

Lemma unlink_unknown_uri_is_noop_witness :
  VikingFS.unlink "viking://resources/docs" "viking://resources/c" (Some alice_ctx)
    linked_world = (inr tt, linked_world).
Proof.
  apply (unlink_unknown_uri_is_noop linked_world (Some alice_ctx)
           "viking://resources/docs" "viking://resources/c" [shared_link]).
  - vm_compute. reflexivity.
  - vm_compute. reflexivity.
  - reflexivity.
  - intros e [<-|[]] [H|[H|[]]]; discriminate H.
Defined.

(** X9. A relation table that cannot be parsed (an entry that
    [RelationEntry.from_dict] rejects) is an error, not an empty table:
    [get_relation_table] and [link] raise what the parser raised, [unlink]
    raises [IOError], and none of them writes. *)
Theorem unparsable_table_is_an_error (w : world) (ctx : option RequestContext)
    (F U reason : string) (uris : list string) (e : exn) :
  let real_ctx := VikingFS._ctx_or_default w ctx in
  VikingFS._is_accessible F real_ctx = true ->
  VikingFS._is_accessible U real_ctx = true ->
  (forall u, List.In u uris -> VikingFS._is_accessible u real_ctx = true) ->
  (VikingFS._read_relation_table (VikingFS._uri_to_path F real_ctx) w).1 = inl e ->
  VikingFS.get_relation_table F ctx w = (inl e, w)
  /\ VikingFS.link F uris reason ctx w = (inl e, w)
  /\ VikingFS.unlink F U ctx w = (inl IOError, w)
  /\ Relations.get_relations F ctx w = (inl e, w).
Proof.
  intros real_ctx HF HU Huris Hread.
  assert (Hread' : VikingFS._read_relation_table (VikingFS._uri_to_path F real_ctx) w
                   = (inl e, w)).
  { pose proof (read_relation_table_state (VikingFS._uri_to_path F real_ctx) w) as Hs.
    destruct (VikingFS._read_relation_table _ w) as [r w0]. cbn in *. now subst. }
  assert (Hget : VikingFS.get_relation_table F ctx w = (inl e, w)).
  { rewrite (get_relation_table_read F ctx w HF). exact Hread'. }
  split; [exact Hget|]. split; [|split].
  - unfold VikingFS.link. unfold bind at 1. rewrite (ensure_access_ok F ctx w HF).
    unfold bind at 1. rewrite (ensure_access_all uris ctx w Huris).
    unfold bind at 1. unfold get_state at 1. fold real_ctx.
    unfold bind at 1. now rewrite Hread'.
  - unfold VikingFS.unlink. unfold bind at 1. rewrite (ensure_access_ok F ctx w HF).
    unfold bind at 1. rewrite (ensure_access_ok U ctx w HU).
    unfold bind at 1. unfold get_state at 1. fold real_ctx.
    unfold try_except, bind. now rewrite Hread'.
  - unfold Relations.get_relations, bind. now rewrite Hget.
Qed.

Lemma unparsable_table_is_an_error_witness :
  VikingFS.unlink "viking://resources/docs" "viking://resources/a" (Some alice_ctx)
    broken_table_world = (inl IOError, broken_table_world).
Proof.
  apply (unparsable_table_is_an_error broken_table_world (Some alice_ctx)
           "viking://resources/docs" "viking://resources/a" "" [] TypeError).
  - vm_compute. reflexivity.
  - vm_compute. reflexivity.
  - intros u [].
  - reflexivity.
Defined.

(** ** [VikingFS.rm] and [VikingFS.mv] when the blob store fails *)

Lemma delete_from_vector_store_ok (uris : list string) (ctx : option RequestContext)
    (w : world) :
  (VikingFS._delete_from_vector_store uris ctx w).1 = inr tt.
Proof.
  unfold VikingFS._delete_from_vector_store.
  destruct (vector_store w); [|reflexivity].
  unfold try_except.
  destruct (VikingVectorIndexBackend.delete_uris _ uris w) as [[e|[]] w']; reflexivity.
Qed.

(** X10. When the blob store refuses the removal, [rm] raises that error
    and the whole state, the vector index included, is left as it was: the
    index is purged only after the blob store removed the path. *)
Theorem rm_blob_failure_keeps_index (w : world) (ctx : option RequestContext)
    (uri : string) (recursive : bool) (e : exn) :
  let real_ctx := VikingFS._ctx_or_default w ctx in
  VikingFS._is_accessible uri real_ctx = true ->
  agfs_rm w (VikingFS._uri_to_path uri real_ctx) recursive = inl e ->
  VikingFS.rm uri recursive ctx w = (inl e, w).
Proof.
  intros real_ctx Hacc Hrm.
  unfold VikingFS.rm. unfold bind at 1. rewrite (ensure_access_ok uri ctx w Hacc).
  unfold bind at 1. unfold get_state at 1. fold real_ctx.
  unfold bind at 1. unfold VikingFS.agfs_rm_call. now rewrite Hrm.
Qed.

Lemma rm_blob_failure_keeps_index_witness :
  VikingFS.rm "viking://user/alice/memories" true (Some alice_ctx) read_only_world
  = (inl (AGFSError 403), read_only_world).
Proof.
  apply (rm_blob_failure_keeps_index read_only_world (Some alice_ctx)
           "viking://user/alice/memories" true (AGFSError 403)).
  - vm_compute. reflexivity.
  - reflexivity.
Defined.

(** X11. When the blob store fails to move the source, [mv] raises the
    error of the blob store.  For any error but a 404 the state is left as
    it was; for a 404 the vector index is left exactly as a recursive [rm]
    of the source leaves it (the orphan records are removed). *)
Theorem mv_blob_failure (w : world) (ctx : option RequestContext)
    (old_uri new_uri : string) (e : exn) :
  let real_ctx := VikingFS._ctx_or_default w ctx in
  VikingFS._is_accessible old_uri real_ctx = true ->
  VikingFS._is_accessible new_uri real_ctx = true ->
  agfs_mv w (VikingFS._uri_to_path old_uri real_ctx)
            (VikingFS._uri_to_path new_uri real_ctx) = inl e ->
  (e <> AGFSError 404 -> VikingFS.mv old_uri new_uri ctx w = (inl e, w))
  /\ (e = AGFSError 404 ->
      agfs_rm w (VikingFS._uri_to_path old_uri real_ctx) true = inr tt ->
      exists w',
        VikingFS.mv old_uri new_uri ctx w = (inl e, w')
        /\ VikingFS.rm old_uri true ctx w = (inr tt, w')).
Proof.
  intros real_ctx Hold Hnew Hmv.
  assert (Hstep : VikingFS.mv old_uri new_uri ctx w
                  = match e with
                    | AGFSError status_code =>
                        if status_code =? 404
                        then (inl e,
                              (VikingFS._delete_from_vector_store
                                 (VikingFS._collect_uris w
                                    (VikingFS._uri_to_path old_uri real_ctx) true ctx
                                  ++ [VikingFS._path_to_uri
                                        (VikingFS._uri_to_path old_uri real_ctx) real_ctx])
                                 ctx w).2)
                        else (inl e, w)
                    | _ => (inl e, w)
                    end).
  { unfold VikingFS.mv. unfold bind at 1. rewrite (ensure_access_ok old_uri ctx w Hold).
    unfold bind at 1. rewrite (ensure_access_ok new_uri ctx w Hnew).
    unfold bind at 1. unfold get_state at 1. fold real_ctx.
    unfold try_except. unfold bind at 1. unfold VikingFS.agfs_mv_call at 1.
    rewrite Hmv. destruct e; try reflexivity.
    destruct (status_code =? 404); [|reflexivity].
    unfold bind.
    pose proof (delete_from_vector_store_ok
                  (VikingFS._collect_uris w (VikingFS._uri_to_path old_uri real_ctx) true ctx
                   ++ [VikingFS._path_to_uri
                         (VikingFS._uri_to_path old_uri real_ctx) real_ctx]) ctx w) as Hok.
    destruct (VikingFS._delete_from_vector_store _ ctx w) as [r w']. cbn in Hok.
    subst r. reflexivity. }
  split.
  - intros Hne. rewrite Hstep. destruct e; try reflexivity.
    destruct (status_code =? 404) eqn:E; [|reflexivity].
    apply Z.eqb_eq in E. subst. now contradiction Hne.
  - intros -> Hrm. rewrite Hstep. cbn [Z.eqb Pos.eqb]. eexists. split; [reflexivity|].
    unfold VikingFS.rm. unfold bind at 1. rewrite (ensure_access_ok old_uri ctx w Hold).
    unfold bind at 1. unfold get_state at 1. fold real_ctx.
    unfold bind at 1. unfold VikingFS.agfs_rm_call. rewrite Hrm.
    pose proof (delete_from_vector_store_ok
                  (VikingFS._collect_uris w (VikingFS._uri_to_path old_uri real_ctx) true ctx
                   ++ [VikingFS._path_to_uri
                         (VikingFS._uri_to_path old_uri real_ctx) real_ctx]) ctx w) as Hok.
    destruct (VikingFS._delete_from_vector_store _ ctx w) as [r w']. cbn in Hok.
    subst r. reflexivity.
Qed.

Lemma mv_blob_failure_witness :
  exists w',
    VikingFS.mv "viking://user/alice/memories" "viking://user/alice/archive"
      (Some alice_ctx) lost_source_world = (inl (AGFSError 404), w')
    /\ VikingFS.rm "viking://user/alice/memories" true (Some alice_ctx) lost_source_world
       = (inr tt, w').
Proof.
  apply (mv_blob_failure lost_source_world (Some alice_ctx)
           "viking://user/alice/memories" "viking://user/alice/archive"
           (AGFSError 404)).
  - vm_compute. reflexivity.
  - vm_compute. reflexivity.
  - reflexivity.
  - reflexivity.
  - reflexivity.
Defined.

(** ** The backend without a collection, and its id-based operations *)

(** X12. Without a collection the reading operations of the backend and
    [delete(ids)] swallow the adapter's [CollectionNotFoundError]: they
    return the neutral value and change nothing.  [delete_account_data],
    [delete_uris] and [upsert] are not guarded: they raise it. *)
Theorem backend_without_collection (w : world) (ids : list string) (id : string)
    (f : filter_arg) (limit offset : Z) (with_vector : bool) (account : string)
    (ctx : RequestContext) (uri : string) (uris : list string) (data : record) :
  collection w = None ->
  VectorOps.get ids w = (inr [], w)
  /\ VectorOps.delete ids w = (inr 0, w)
  /\ VectorOps.exists_ id w = (inr false, w)
  /\ VikingVectorIndexBackend.query f limit offset with_vector w = (inr [], w)
  /\ VectorOps.delete_account_data account w = (inl CollectionNotFoundError, w)
  /\ VikingVectorIndexBackend.delete_uris ctx (uri :: uris) w
     = (inl CollectionNotFoundError, w)
  /\ (context_type_ok data ->
      (VikingVectorIndexBackend.upsert data w).1 = inl CollectionNotFoundError).
Proof.
  intros Hc.
  assert (Hget : forall l, VectorOps.get l w = (inr [], w)).
  { intros l. unfold VectorOps.get, try_except, VectorOps.adapter_get, bind,
      CollectionAdapter.get_collection. now rewrite Hc. }
  assert (Hdel : forall l f0 n, CollectionAdapter.delete l f0 n w
                                = (inl CollectionNotFoundError, w)).
  { intros l f0 n. unfold CollectionAdapter.delete, bind,
      CollectionAdapter.get_collection. now rewrite Hc. }
  repeat split.
  - apply Hget.
  - unfold VectorOps.delete, try_except. now rewrite Hdel.
  - unfold VectorOps.exists_, try_except, bind. now rewrite Hget.
  - unfold VikingVectorIndexBackend.query, try_except, CollectionAdapter.query, bind,
      CollectionAdapter.get_collection. now rewrite Hc.
  - apply Hdel.
  - unfold VikingVectorIndexBackend.delete_uris. cbn [for_each]. unfold bind.
    now rewrite Hdel.
  - intros Hok. unfold VikingVectorIndexBackend.upsert. unfold bind at 1.
    rewrite (context_type_ok_valid data w Hok).
    assert (Hup : forall p w0, collection w0 = None ->
                    (bind (VikingVectorIndexBackend._filter_known_fields p)
                       (fun payload =>
                          bind (CollectionAdapter.upsert payload)
                            (fun ids0 =>
                               ret (match ids0 with i :: _ => i | [] => PStr "" end)))
                       w0).1 = inl CollectionNotFoundError).
    { intros p w0 H0. unfold bind, VikingVectorIndexBackend._filter_known_fields,
        try_except, CollectionAdapter.upsert, CollectionAdapter.get_collection, bind, ret.
      rewrite H0. cbn [fst snd]. rewrite H0. reflexivity. }
    destruct (get_truthy data "id").
    + unfold bind at 1. unfold ret at 1. now apply Hup.
    + unfold bind at 1. unfold bind at 1. unfold uuid4 at 1. unfold ret at 1.
      apply Hup. exact Hc.
Qed.

Lemma backend_without_collection_witness :
  VectorOps.exists_ "n1" no_collection_world = (inr false, no_collection_world).
Proof.
  apply (backend_without_collection no_collection_world [] "n1" FNone 10 0 false
           "acme" alice_ctx "viking://resources" [] ∅ eq_refl).
Defined.

Lemma known_fields_spec (allowed : list string) (data : record) (k : string) (v : pyval) :
  VikingVectorIndexBackend.known_fields allowed data !! k = Some v
  <-> List.In k allowed /\ data !! k = Some v /\ v <> PNone.
Proof.
  unfold VikingVectorIndexBackend.known_fields. rewrite map_lookup_filter_Some. cbn.
  rewrite mem_true_iff. split.
  - intros (Hk & Hin & Hn). repeat split; auto. intros ->. discriminate.
  - intros (Hin & Hk & Hn). repeat split; auto. now destruct v.
Qed.

(** X13. A record upserted under its own id is read back by [get] and seen
    by [exists]: [get] returns exactly one record, which holds the fields of
    the payload that the schema knows and whose value is not [None], and
    nothing else. *)
Theorem upsert_then_get (w : world) (c : Collection) (data : record) (sid : string) :
  collection w = Some c ->
  List.In "id" (coll_fields c) ->
  data !! "id" = Some (PStr sid) ->
  Str.nonempty sid = true ->
  context_type_ok data ->
  exists w1 r,
    VikingVectorIndexBackend.upsert data w = (inr (PStr sid), w1)
    /\ VectorOps.get [sid] w1 = (inr [r], w1)
    /\ VectorOps.exists_ sid w1 = (inr true, w1)
    /\ forall k v, r !! k = Some v
                   <-> List.In k (coll_fields c) /\ data !! k = Some v /\ v <> PNone.
Proof.
  intros Hc Hid Hsid Hne Hok.
  pose proof (backend_upsert_with_id w c data sid Hc Hid Hsid Hne Hok) as Hup.
  set (r := VikingVectorIndexBackend.known_fields (coll_fields c) data) in *.
  assert (Hrid : r !! "id" = Some (PStr sid)).
  { apply known_fields_lookup; [exact Hid | exact Hsid | discriminate]. }
  set (w1 := set_collection
               (Some {| coll_fields := coll_fields c;
                        coll_data := <[sid := r]> (coll_data c) |}) w) in *.
  assert (Hget : VectorOps.get [sid] w1 = (inr [r], w1)).
  { unfold VectorOps.get, try_except, VectorOps.adapter_get, bind,
      CollectionAdapter.get_collection, ret.
    cbn [collection w1 set_collection]. unfold fetch_data.
    cbn [omap list_omap coll_data].
    rewrite lookup_insert_eq. cbn [fmap option_fmap option_map List.map fst snd].
    unfold CollectionAdapter._normalize_record_for_read.
    now rewrite (insert_id r "id" (PStr sid) Hrid). }
  exists w1, r. split; [exact Hup|]. split; [exact Hget|]. split.
  - unfold VectorOps.exists_, try_except, bind. now rewrite Hget.
  - intros k v. apply known_fields_spec.
Qed.

Lemma upsert_then_get_witness :
  exists w1 r,
    VikingVectorIndexBackend.upsert memory_note quiet_world = (inr (PStr "n1"), w1)
    /\ VectorOps.get ["n1"] w1 = (inr [r], w1)
    /\ VectorOps.exists_ "n1" w1 = (inr true, w1)
    /\ forall k v, r !! k = Some v
                   <-> List.In k (coll_fields empty_collection)
                       /\ memory_note !! k = Some v /\ v <> PNone.
Proof.
  apply (upsert_then_get quiet_world empty_collection memory_note "n1").
  - reflexivity.
  - now left.
  - reflexivity.
  - reflexivity.
  - exact I.
Defined.

(** X14. [delete(ids)] on an existing collection removes the records of
    these ids and no other, and answers [len(ids)] whether or not the ids
    were stored; afterwards [get] finds none of them and [exists] is false. *)
Theorem delete_by_ids (w : world) (c : Collection) (ids : list string) :
  collection w = Some c ->
  exists w',
    VectorOps.delete ids w = (inr (Z.of_nat (length ids)), w')
    /\ (forall k, stored w' !! k = if Str.mem k ids then None else stored w !! k)
    /\ (forall id, List.In id ids ->
          VectorOps.get [id] w' = (inr [], w')
          /\ VectorOps.exists_ id w' = (inr false, w')).
Proof.
  intros Hc.
  set (c' := delete_data ids c).
  exists (set_collection (Some c') w).
  assert (Hstored : forall k, stored (set_collection (Some c') w) !! k
                              = if Str.mem k ids then None else stored w !! k).
  { intros k. unfold stored at 1 2. rewrite Hc. cbn [collection set_collection c' delete_data coll_data].
    apply fold_delete_lookup. }
  split; [|split; [exact Hstored|]].
  - unfold VectorOps.delete, try_except, CollectionAdapter.delete.
    unfold bind at 1. unfold CollectionAdapter.get_collection at 1. rewrite Hc.
    destruct ids as [|i ids].
    + unfold bind, ret. cbn [length Z.of_nat]. f_equal.
      unfold c', delete_data. cbn [List.fold_left].
      replace {| coll_fields := coll_fields c; coll_data := coll_data c |} with c
        by (destruct c; reflexivity).
      now rewrite set_collection_same.
    + unfold bind, ret, on_collection. rewrite Hc. reflexivity.
  - intros id Hid.
    assert (Hget : VectorOps.get [id] (set_collection (Some c') w)
                   = (inr [], set_collection (Some c') w)).
    { unfold VectorOps.get, try_except, VectorOps.adapter_get, bind,
        CollectionAdapter.get_collection, ret.
      cbn [collection set_collection]. unfold fetch_data. cbn [omap list_omap].
      specialize (Hstored id). unfold stored in Hstored at 1.
      cbn [collection set_collection] in Hstored. rewrite Hstored.
      apply mem_true_iff in Hid. rewrite Hid. reflexivity. }
    split; [exact Hget|].
    unfold VectorOps.exists_, try_except, bind. now rewrite Hget.
Qed.

Lemma delete_by_ids_witness :
  exists w',
    VectorOps.delete ["n1"; "n9"] two_notes_world = (inr 2, w')
    /\ (forall k, stored w' !! k
                  = if Str.mem k ["n1"; "n9"] then None else stored two_notes_world !! k)
    /\ (forall id, List.In id ["n1"; "n9"] ->
          VectorOps.get [id] w' = (inr [], w')
          /\ VectorOps.exists_ id w' = (inr false, w')).
Proof.
  apply (delete_by_ids two_notes_world
           {| coll_fields := context_collection_fields;
              coll_data := <["n1" := memory_note]> (<["n2" := kept_note]> ∅) |}
           ["n1"; "n9"]).
  reflexivity.
Defined.

(** ** Deleting by filter *)

Lemma matched_ids_keys (l : list (string * record)) :
  (forall kr, List.In kr l -> kr.1 <> EmptyString) ->
  CollectionAdapter.matched_ids
    (List.map (fun item : string * record =>
                 CollectionAdapter._normalize_record_for_read
                   (<["_score" := PFloat 0]> (<["id" := PStr item.1]> item.2))) l)
  = List.map fst l.
Proof.
  induction l as [|[k r] l IH]; intros H; [reflexivity|].
  cbn [List.map fst snd]. unfold CollectionAdapter.matched_ids in *.
  cbn [omap list_omap]. unfold CollectionAdapter._normalize_record_for_read at 1.
  rewrite lookup_insert_ne by discriminate. rewrite lookup_insert_eq.
  assert (Hk : Str.nonempty k = true).
  { specialize (H (k, r) (or_introl eq_refl)). cbn in H. now destruct k. }
  rewrite Hk. f_equal. apply IH. intros kr Hkr. apply H. now right.
Qed.

Lemma NoDup_map_filter {A B : Type} (f : A -> B) (P : A -> bool) (l : list A) :
  List.NoDup (List.map f l) -> List.NoDup (List.map f (List.filter P l)).
Proof.
  induction l as [|x l IH]; intros H; [exact H|].
  cbn [List.map List.filter] in *. inversion H as [|? ? Hni Hnd]; subst.
  destruct (P x); [|now apply IH]. cbn [List.map]. constructor; [|now apply IH].
  intros Hin. apply Hni. apply in_map_iff in Hin as (y & <- & Hy).
  apply filter_In in Hy as [Hy _]. now apply in_map.
Qed.

Lemma size_fold_delete (ids : list string) (m : gmap string record) :
  List.NoDup ids ->
  (forall k, List.In k ids -> is_Some (m !! k)) ->
  (size (List.fold_left (fun m k => delete k m) ids m) + length ids)%nat = size m.
Proof.
  revert m. induction ids as [|i ids IH]; intros m Hnd Hin; cbn [List.fold_left length].
  - lia.
  - inversion Hnd as [|? ? Hni Hnd']; subst.
    rewrite <- Nat.add_succ_comm. cbn [Nat.add].
    rewrite IH; [| exact Hnd' |].
    + pose proof (Hin i (or_introl eq_refl)) as Hi.
      rewrite (map_size_delete_Some i m Hi).
      assert (size m <> 0%nat).
      { intros H0. apply map_size_empty_inv in H0. subst m.
        destruct Hi as [r Hr]. rewrite lookup_empty in Hr. discriminate. }
      lia.
    + intros k Hk. rewrite lookup_delete_ne.
      * apply Hin. now right.
      * intros ->. contradiction.
Qed.

(** A filter delete on a collection that fits in [limit] and holds no record
    under the empty key: it removes the records that satisfy the compiled
    filter, keeps every other record as it is, and returns how many it
    removed. *)
Lemma adapter_delete_filter_exact (w : world) (c : Collection) (e : FilterExpr)
    (limit : Z) :
  collection w = Some c ->
  (size (coll_data c) <= Z.to_nat limit)%nat ->
  coll_data c !! EmptyString = None ->
  exists n c',
    CollectionAdapter.delete [] (FExpr e) limit w = (inr n, set_collection (Some c') w)
    /\ coll_fields c' = coll_fields c
    /\ (forall k, coll_data c' !! k
                  = match coll_data c !! k with
                    | Some r => if dsl_match (compile_expr e) r then None else Some r
                    | None => None
                    end)
    /\ (Z.to_nat n + size (coll_data c'))%nat = size (coll_data c)
    /\ 0 <= n.
Proof.
  intros Hc Hsize Hempty.
  set (hits := List.filter (fun kr : string * record => dsl_match (compile_expr e) kr.2)
                 (map_to_list (coll_data c))).
  assert (Hhits : forall k r, List.In (k, r) hits
                              <-> coll_data c !! k = Some r
                                  /\ dsl_match (compile_expr e) r = true).
  { intros k r. unfold hits. rewrite filter_In, <- list_elem_of_In, elem_of_map_to_list.
    reflexivity. }
  assert (Hquery : CollectionAdapter.query (FExpr e) limit 0 true w
                   = (inr (List.map
                             (fun item : string * record =>
                                CollectionAdapter._normalize_record_for_read
                                  (<["_score" := PFloat 0]> (<["id" := PStr item.1]> item.2)))
                             hits), w)).
  { unfold CollectionAdapter.query, CollectionAdapter.get_collection, bind, ret.
    rewrite Hc. unfold search_by_random. cbn [Z.to_nat drop _compile_filter].
    rewrite take_ge; [reflexivity|].
    etransitivity; [apply filter_length_le|]. now rewrite length_map_to_list. }
  assert (Hids : CollectionAdapter.matched_ids
                   (List.map
                      (fun item : string * record =>
                         CollectionAdapter._normalize_record_for_read
                           (<["_score" := PFloat 0]> (<["id" := PStr item.1]> item.2)))
                      hits) = List.map fst hits).
  { apply matched_ids_keys. intros [k r] Hkr. cbn. intros ->.
    apply Hhits in Hkr as [Hk _]. congruence. }
  set (ids := List.map fst hits) in *.
  assert (Hmem : forall k, Str.mem k ids = true
                           <-> exists r, coll_data c !! k = Some r
                                         /\ dsl_match (compile_expr e) r = true).
  { intros k. rewrite mem_true_iff. unfold ids. rewrite in_map_iff. split.
    - intros ([k' r] & <- & Hin). exists r. now apply Hhits.
    - intros (r & Hr). exists (k, r). split; [reflexivity | now apply Hhits]. }
  assert (Hnd : List.NoDup ids).
  { unfold ids, hits. apply NoDup_map_filter.
    apply NoDup_ListNoDup, NoDup_fst_map_to_list. }
  exists (Z.of_nat (length ids)), (delete_data ids c).
  split; [|split; [reflexivity|split; [|split; [|lia]]]].
  - unfold CollectionAdapter.delete.
    unfold bind at 1. unfold CollectionAdapter.get_collection at 1. rewrite Hc.
    unfold bind at 1. unfold bind at 1. rewrite Hquery. unfold ret at 1.
    rewrite Hids. destruct ids as [|i ids'] eqn:Ei.
    + unfold ret. cbn [length Z.of_nat]. unfold delete_data. cbn [List.fold_left].
      replace {| coll_fields := coll_fields c; coll_data := coll_data c |} with c
        by (destruct c; reflexivity).
      now rewrite set_collection_same.
    + unfold bind, on_collection, ret. rewrite Hc. reflexivity.
  - intros k. unfold delete_data. cbn [coll_data]. rewrite fold_delete_lookup.
    destruct (Str.mem k ids) eqn:Em.
    + apply Hmem in Em as (r & -> & ->). reflexivity.
    + destruct (coll_data c !! k) as [r|] eqn:Ek; [|reflexivity].
      destruct (dsl_match (compile_expr e) r) eqn:Ed; [|reflexivity].
      assert (Str.mem k ids = true) by (apply Hmem; eauto). congruence.
  - rewrite Nat2Z.id. unfold delete_data. cbn [coll_data].
    rewrite Nat.add_comm. apply size_fold_delete; [exact Hnd|].
    intros k Hk. apply mem_true_iff, Hmem in Hk as (r & -> & _). eauto.
Qed.

Lemma account_filter_matches (account : string) (r : record) :
  dsl_match (compile_expr (Expr.Eq "account_id" (PStr account))) r = true
  <-> r !! "account_id" = Some (PStr account).
Proof.
  change (dsl_match (compile_expr (Expr.Eq "account_id" (PStr account))) r)
    with (must_match "account_id" [PStr account] r).
  unfold must_match. destruct (r !! "account_id") as [v|]; [|split; discriminate].
  cbn [existsb]. rewrite orb_false_r.
  destruct v; cbn; try (split; discriminate).
  rewrite orb_false_r. split.
  - intros H. apply String.eqb_eq in H. now subst.
  - intros [= ->]. apply String.eqb_refl.
Qed.

(** X15. [delete_account_data(A)] removes every record whose [account_id]
    is [A], leaves the records of every other account exactly as they were,
    and returns the number of records it removed (for a collection of at
    most 100000 records, none of them under the empty id). *)
Theorem delete_account_data_isolated (w : world) (c : Collection) (account : string) :
  collection w = Some c ->
  (size (coll_data c) <= Z.to_nat 100000)%nat ->
  coll_data c !! EmptyString = None ->
  exists n w',
    VectorOps.delete_account_data account w = (inr n, w')
    /\ (forall k r, stored w' !! k = Some r
                    <-> stored w !! k = Some r
                        /\ r !! "account_id" <> Some (PStr account))
    /\ n = Z.of_nat (size (stored w)) - Z.of_nat (size (stored w')).
Proof.
  intros Hc Hsize Hempty.
  destruct (adapter_delete_filter_exact w c (Expr.Eq "account_id" (PStr account))
              100000 Hc Hsize Hempty) as (n & c' & Hdel & _ & Hlook & Hn & Hpos).
  exists n, (set_collection (Some c') w). split; [exact Hdel|].
  unfold stored. rewrite Hc. cbn [collection set_collection]. split.
  - intros k r. rewrite Hlook. destruct (coll_data c !! k) as [r0|]; [|split; [discriminate|]].
    + destruct (dsl_match _ r0) eqn:Ed.
      * split; [discriminate|]. intros [[= ->] Hne].
        apply account_filter_matches in Ed. contradiction.
      * split.
        -- intros [= ->]. split; [reflexivity|]. intros Ha.
           apply account_filter_matches in Ha. congruence.
        -- now intros [[= ->] _].
    + now intros [? _].
  - lia.
Qed.

Lemma delete_account_data_isolated_witness :
  exists n w',
    VectorOps.delete_account_data "acme" two_notes_world = (inr n, w')
    /\ (forall k r, stored w' !! k = Some r
                    <-> stored two_notes_world !! k = Some r
                        /\ r !! "account_id" <> Some (PStr "acme"))
    /\ n = Z.of_nat (size (stored two_notes_world)) - Z.of_nat (size (stored w')).
Proof.
  apply (delete_account_data_isolated two_notes_world
           {| coll_fields := context_collection_fields;
              coll_data := <["n1" := memory_note]> (<["n2" := kept_note]> ∅) |} "acme").
  - reflexivity.
  - apply Nat.leb_le. vm_compute. reflexivity.
  - reflexivity.
Defined.

(** ** [TextEmbeddingHandler.on_dequeue]: the counters *)

Lemma keeps_ret {A : Type} (a : A) : keeps_counters (ret a).
Proof. intros w. split; reflexivity. Qed.

Lemma keeps_raise {A : Type} (e : exn) : keeps_counters (raise (A := A) e).
Proof. intros w. split; reflexivity. Qed.

Lemma keeps_bind {A B : Type} (m : M world A) (k : A -> M world B) :
  keeps_counters m -> (forall a, keeps_counters (k a)) -> keeps_counters (bind m k).
Proof.
  intros Hm Hk w. unfold bind. specialize (Hm w).
  destruct (m w) as [[e|a] w']; cbn in *; [exact Hm|].
  destruct (Hk a w') as [H1 H2]. destruct Hm as [H3 H4]. split; congruence.
Qed.

Lemma keeps_try_except {A : Type} (m : M world A) (h : exn -> M world A) :
  keeps_counters m -> (forall e, keeps_counters (h e)) -> keeps_counters (try_except m h).
Proof.
  intros Hm Hh w. unfold try_except. specialize (Hm w).
  destruct (m w) as [[e|a] w']; cbn in *; [|exact Hm].
  destruct (Hh e w') as [H1 H2]. destruct Hm as [H3 H4]. split; congruence.
Qed.

Lemma keeps_get_collection : keeps_counters CollectionAdapter.get_collection.
Proof.
  intros w. unfold CollectionAdapter.get_collection.
  destruct (collection w); split; reflexivity.
Qed.

Lemma keeps_uuid4 : keeps_counters uuid4.
Proof. intros w. split; reflexivity. Qed.

Lemma keeps_on_collection (f : Collection -> exn + Collection) :
  keeps_counters (on_collection f).
Proof.
  intros w. unfold on_collection. destruct (collection w) as [c|]; [|split; reflexivity].
  destruct (f c); split; reflexivity.
Qed.

Lemma keeps_adapter_upsert (data : record) : keeps_counters (CollectionAdapter.upsert data).
Proof.
  unfold CollectionAdapter.upsert.
  apply keeps_bind; [apply keeps_get_collection | intros _].
  apply keeps_bind.
  - destruct (get_truthy data "id"); [apply keeps_ret|].
    apply keeps_bind; [apply keeps_uuid4 | intros u; apply keeps_ret].
  - intros rid. apply keeps_bind; [apply keeps_on_collection | intros _; apply keeps_ret].
Qed.

Lemma keeps_backend_upsert (data : record) :
  keeps_counters (VikingVectorIndexBackend.upsert data).
Proof.
  unfold VikingVectorIndexBackend.upsert. apply keeps_bind.
  - unfold VikingVectorIndexBackend.invalid_context_type.
    destruct (truthy _); [|apply keeps_ret].
    destruct (default PNone (data !! "context_type"));
      first [apply keeps_ret | apply keeps_raise].
  - intros invalid. destruct invalid; [apply keeps_ret|].
    apply keeps_bind.
    + destruct (get_truthy data "id"); [apply keeps_ret|].
      apply keeps_bind; [apply keeps_uuid4 | intros u; apply keeps_ret].
    + intros payload. apply keeps_bind.
      * unfold VikingVectorIndexBackend._filter_known_fields.
        apply keeps_try_except; [|intros _; apply keeps_ret].
        apply keeps_bind; [apply keeps_get_collection | intros c; apply keeps_ret].
      * intros payload'. apply keeps_bind; [apply keeps_adapter_upsert|].
        intros ids. apply keeps_ret.
Qed.

Lemma keeps_assign_id (data : record) : keeps_counters (TextEmbeddingHandler.assign_id data).
Proof.
  unfold TextEmbeddingHandler.assign_id. destruct (get_truthy data "uri"); [|apply keeps_ret].
  destruct (py_str _); [|apply keeps_raise].
  destruct (py_str _); [apply keeps_ret | apply keeps_raise].
Qed.

Lemma keeps_log_written (data : record) :
  keeps_counters (TextEmbeddingHandler.log_written data).
Proof.
  unfold TextEmbeddingHandler.log_written.
  destruct (data !! "abstract"); [|apply keeps_raise].
  destruct (data !! "vector") as [[]|]; first [apply keeps_ret | apply keeps_raise].
Qed.

(** The write step counts a message only when it fails: then it returns
    nothing and has counted it once. *)
Lemma write_to_db_accounts (data : record) (w : world) :
  match TextEmbeddingHandler.write_to_db data w with
  | (inr (Some _), w') =>
      processed_total w' = processed_total w /\ error_count w' = error_count w
  | (inr None, w') =>
      processed_total w' = S (processed_total w) /\ error_count w' = error_count w
      \/ processed_total w' = processed_total w /\ error_count w' = S (error_count w)
  | (inl _, _) => False
  end.
Proof.
  unfold TextEmbeddingHandler.write_to_db.
  assert (Hk : keeps_counters
                 (bind (TextEmbeddingHandler.assign_id data)
                    (fun inserted_data =>
                       bind (VikingVectorIndexBackend.upsert inserted_data)
                         (fun record_id =>
                            bind (if truthy record_id
                                  then TextEmbeddingHandler.log_written inserted_data
                                  else ret tt)
                              (fun _ => ret inserted_data))))).
  { apply keeps_bind; [apply keeps_assign_id | intros d].
    apply keeps_bind; [apply keeps_backend_upsert | intros rid].
    apply keeps_bind; [|intros _; apply keeps_ret].
    destruct (truthy rid); [apply keeps_log_written | apply keeps_ret]. }
  specialize (Hk w).
  destruct (bind (TextEmbeddingHandler.assign_id data) _ w) as [[e|r] w'];
    cbn [snd] in Hk; [|exact Hk].
  destruct Hk as [Hp He].
  destruct (is_closing w'); cbn; [left | right]; split; congruence.
Qed.

Lemma on_dequeue_outcome (self : TextEmbeddingHandler.t) (data : dequeued) (w : world) :
  match TextEmbeddingHandler.on_dequeue self data w with
  | (inr _, w') =>
      match data with
      | NoData => w' = w
      | _ =>
          processed_total w' = S (processed_total w) /\ error_count w' = error_count w
          \/ processed_total w' = processed_total w /\ error_count w' = S (error_count w)
      end
  | (inl _, _) => False
  end.
Proof.
  destruct data as [| |msg]; cbn [TextEmbeddingHandler.on_dequeue].
  - reflexivity.
  - cbn. right. split; reflexivity.
  - unfold try_except. unfold bind at 1. unfold get_state at 1. cbv beta iota.
    destruct (is_closing w) eqn:Hclosing.
    { cbn. left. split; reflexivity. }
    destruct (message msg) as [| | | |text| |];
      try (cbn; left; split; reflexivity).
    destruct (TextEmbeddingHandler._embedder self) as [embed|];
      [|cbn; right; split; reflexivity].
    unfold bind at 1. unfold TextEmbeddingHandler.lift_result at 1.
    destruct (embed text) as [e|result]; [cbn; right; split; reflexivity|].
    destruct (_ && negb _); [cbn; right; split; reflexivity|].
    unfold bind at 1.
    match goal with
    | |- context [TextEmbeddingHandler.write_to_db ?d w] =>
        pose proof (write_to_db_accounts d w) as Hw;
        destruct (TextEmbeddingHandler.write_to_db d w) as [[e|[r|]] w']
    end.
    + destruct Hw.
    + destruct Hw as [Hp He]. cbn. left. split; congruence.
    + cbn. exact Hw.
Qed.

(** X16. [on_dequeue] never raises, and it accounts for every payload
    exactly once: after the call [processed_total + error_count] has grown
    by one, or by nothing when there was no payload; neither counter ever
    decreases. *)
Theorem on_dequeue_accounts_once (self : TextEmbeddingHandler.t) (data : dequeued)
    (w : world) :
  let res := TextEmbeddingHandler.on_dequeue self data w in
  (exists h, res.1 = inr h)
  /\ accounted res.2
     = (accounted w + match data with NoData => 0 | _ => 1 end)%nat
  /\ (processed_total w <= processed_total res.2)%nat
  /\ (error_count w <= error_count res.2)%nat.
Proof.
  intros res. pose proof (on_dequeue_outcome self data w) as H. fold res in H.
  destruct res as [[e|h] w']; [destruct H|]. cbn [fst snd]. unfold accounted.
  split; [eauto|].
  destruct data; [subst w'; lia | |]; destruct H as [[Hp He]|[Hp He]]; lia.
Qed.

(** X17. [on_dequeue] changes the vector index only for a payload it
    could embed: the backend is not closing, the message is a string, an
    embedder is configured and answered, and the dense vector, if there is
    one, has the configured dimension.  In every other case the stored
    records are left as they were. *)
Theorem on_dequeue_writes_only_embedded (self : TextEmbeddingHandler.t)
    (msg : EmbeddingMsg) (w : world) :
  stored (TextEmbeddingHandler.on_dequeue self (Payload msg) w).2 <> stored w ->
  is_closing w = false
  /\ exists text embed result,
       message msg = PStr text
       /\ TextEmbeddingHandler._embedder self = Some embed
       /\ embed text = inr result
       /\ (dense_vector result = []
           \/ Z.of_nat (length (dense_vector result))
              = TextEmbeddingHandler._vector_dim self).
Proof.
  cbn [TextEmbeddingHandler.on_dequeue].
  unfold try_except. unfold bind at 1. unfold get_state at 1. cbv beta iota.
  destruct (is_closing w) eqn:Hclosing.
  { cbn. intros H. now contradiction H. }
  destruct (message msg) as [| | | |text| |];
    try (cbn; intros H; now contradiction H).
  destruct (TextEmbeddingHandler._embedder self) as [embed|];
    [|cbn; intros H; now contradiction H].
  unfold bind at 1. unfold TextEmbeddingHandler.lift_result at 1.
  destruct (embed text) as [e|result] eqn:Eembed;
    [cbn; intros H; now contradiction H|].
  destruct (dense_vector result) as [|x dense] eqn:Edense.
  - intros _. split; [reflexivity|]. exists text, embed, result. auto.
  - cbn [andb].
    destruct (Z.of_nat (length (x :: dense)) =? TextEmbeddingHandler._vector_dim self)
      eqn:Edim; cbn [negb].
    + intros _. split; [reflexivity|]. exists text, embed, result.
      apply Z.eqb_eq in Edim. rewrite Edense. auto.
    + cbn. intros H. now contradiction H.
Qed.

Lemma on_dequeue_writes_only_embedded_witness :
  is_closing quiet_world = false
  /\ exists text embed result,
       message guide_embedding = PStr text
       /\ TextEmbeddingHandler._embedder unit_embedder = Some embed
       /\ embed text = inr result
       /\ (dense_vector result = []
           \/ Z.of_nat (length (dense_vector result))
              = TextEmbeddingHandler._vector_dim unit_embedder).
Proof.
  apply (on_dequeue_writes_only_embedded unit_embedder guide_embedding quiet_world).
  intros H. apply (f_equal size) in H. vm_compute in H. discriminate H.
Defined.

(** ** [_compile_filter]: what a compiled conjunction or disjunction means *)

Lemma dsl_match_nil (r : record) : dsl_match [] r = true.
Proof. reflexivity. Qed.

Lemma forallb_map_PDict (r : record) (cs : list dict) :
  forallb (fun c => dsl_match_val c r) (List.map PDict cs)
  = forallb (fun c => dsl_match c r) cs.
Proof. induction cs as [|c cs IH]; [reflexivity|]. cbn [List.map forallb]. now rewrite IH. Qed.

Lemma existsb_map_PDict (r : record) (cs : list dict) :
  existsb (fun c => dsl_match_val c r) (List.map PDict cs)
  = existsb (fun c => dsl_match c r) cs.
Proof. induction cs as [|c cs IH]; [reflexivity|]. cbn [List.map existsb]. now rewrite IH. Qed.

Lemma dsl_match_and_node (cs : list dict) (r : record) :
  dsl_match [("op", PStr "and"); ("conds", PList (List.map PDict cs))] r
  = forallb (fun c => dsl_match c r) cs.
Proof. rewrite <- forallb_map_PDict. reflexivity. Qed.

Lemma dsl_match_or_node (cs : list dict) (r : record) :
  dsl_match [("op", PStr "or"); ("conds", PList (List.map PDict cs))] r
  = existsb (fun c => dsl_match c r) cs.
Proof. rewrite <- existsb_map_PDict. reflexivity. Qed.

Lemma forallb_live (r : record) (compiled : list dict) :
  forallb (fun c => dsl_match c r) (List.filter dict_truthy compiled)
  = forallb (fun c => dsl_match c r) compiled.
Proof.
  induction compiled as [|c cs IH]; [reflexivity|]. cbn [List.filter forallb].
  destruct c as [|kv c]; cbn [dict_truthy]; [exact IH|].
  cbn [forallb]. now rewrite IH.
Qed.

(** A compiled [And] matches exactly when every compiled condition does. *)
Lemma compiled_and_forallb (conds : list FilterExpr) (r : record) :
  dsl_match (compile_expr (Expr.And conds)) r
  = forallb (fun c => dsl_match (compile_expr c) r) conds.
Proof.
  change (compile_expr (Expr.And conds))
    with (compile_conds "and" (List.map compile_expr conds)).
  assert (Hmap : forallb (fun c => dsl_match (compile_expr c) r) conds
                 = forallb (fun c => dsl_match c r) (List.map compile_expr conds)).
  { clear. induction conds as [|c cs IH]; [reflexivity|]. cbn [List.map forallb].
    now rewrite IH. }
  rewrite Hmap, <- forallb_live. unfold compile_conds.
  destruct (List.filter dict_truthy (List.map compile_expr conds)) as [|c [|c' cs]].
  - reflexivity.
  - cbn [forallb]. now rewrite andb_true_r.
  - apply dsl_match_and_node.
Qed.

(** X18. Dropping the empty sub-filters and unwrapping a single one does
    not change what a compiled [And] means: it matches a record exactly when
    every compiled condition matches it.  A compiled [Or] matches a record
    when one of its conditions that did not compile to the empty filter
    matches; an [Or] none of whose conditions compiles to a non-empty filter
    compiles to the empty filter, which matches every record. *)
Theorem compiled_and_or_meaning (conds : list FilterExpr) (r : record) :
  dsl_match (compile_expr (Expr.And conds)) r
  = forallb (fun c => dsl_match (compile_expr c) r) conds
  /\ dsl_match (compile_expr (Expr.Or conds)) r
     = match List.filter dict_truthy (List.map compile_expr conds) with
       | [] => true
       | live => existsb (fun c => dsl_match c r) live
       end.
Proof.
  split; [apply compiled_and_forallb|].
  change (compile_expr (Expr.Or conds))
    with (compile_conds "or" (List.map compile_expr conds)).
  unfold compile_conds.
  destruct (List.filter dict_truthy (List.map compile_expr conds)) as [|c [|c' cs]].
  - reflexivity.
  - cbn [existsb]. now rewrite orb_false_r.
  - apply dsl_match_or_node.
Qed.

(** A record that satisfies a compiled filter satisfies each of its
    conjuncts. *)
Lemma conjunct_matches (c f : FilterExpr) (r : record) :
  conjunct_of c f ->
  dsl_match (compile_expr f) r = true ->
  dsl_match (compile_expr c) r = true.
Proof.
  induction 1 as [|conds f Hin _ IH]; intros Hm; [exact Hm|].
  apply IH. rewrite compiled_and_forallb in Hm.
  rewrite forallb_forall in Hm. now apply Hm.
Qed.

Lemma must_match_strings (field : string) (ss : list string) (r : record) :
  Str.mem field path_fields = false ->
  must_match field (List.map PStr ss) r = true
  <-> exists s, List.In s ss /\ r !! field = Some (PStr s).
Proof.
  intros Hf. unfold must_match. rewrite Hf. split.
  - destruct (r !! field) as [v|]; [|discriminate].
    intros H. apply existsb_exists in H as (c & Hc & Hm).
    apply in_map_iff in Hc as (s & <- & Hs). exists s. split; [exact Hs|].
    destruct v; cbn in Hm; try discriminate.
    rewrite orb_false_r in Hm. apply String.eqb_eq in Hm. now subst.
  - intros (s & Hs & ->). apply existsb_exists. exists (PStr s).
    split; [now apply in_map|]. cbn. now rewrite String.eqb_refl.
Qed.

(** X19. Tenant isolation at the level of the records: for a context that
    is not ROOT, a record that satisfies the compiled filter of
    [search_in_tenant], [search_global_roots_in_tenant] or
    [search_children_in_tenant] carries the caller's [account_id], and its
    [owner_space] is the caller's user space or agent space, or the shared
    empty space when the query is for [resource] contexts. *)
Theorem tenant_filter_admits_own_records (ctx : RequestContext)
    (context_type : option string) (target_directories : option (list string))
    (extra_filter : filter_arg) (parent_uri : string) (f : FilterExpr) (r : record) :
  role ctx <> ROOT ->
  VikingVectorIndexBackend.search_in_tenant_filter
    ctx context_type target_directories extra_filter = Some f
  \/ VikingVectorIndexBackend.search_global_roots_in_tenant_filter
       ctx context_type target_directories extra_filter = Some f
  \/ VikingVectorIndexBackend.search_children_in_tenant_filter
       ctx parent_uri context_type target_directories extra_filter = Some f ->
  dsl_match (compile_expr f) r = true ->
  r !! "account_id" = Some (PStr (account_id ctx))
  /\ exists space,
       r !! "owner_space" = Some (PStr space)
       /\ (space = user_space_name ctx \/ space = agent_space_name ctx
           \/ space = EmptyString /\ context_type = Some "resource").
Proof.
  intros Hrole Hf Hm.
  assert (Hc : conjunct_of (tenant_conjunct ctx context_type) f).
  { destruct (scope_filter_conjunct ctx context_type target_directories extra_filter
                Hrole) as (g & Hg & Hcg).
    destruct Hf as [Hf|[Hf|Hf]].
    - unfold VikingVectorIndexBackend.search_in_tenant_filter in Hf.
      rewrite Hg in Hf. now injection Hf as <-.
    - unfold VikingVectorIndexBackend.search_global_roots_in_tenant_filter in Hf.
      destruct (merge_filters_conjunct
                  [VikingVectorIndexBackend._build_scope_filter
                     ctx context_type target_directories extra_filter;
                   Some (Expr.In "level" [PInt 0; PInt 1])]
                  (tenant_conjunct ctx context_type) g) as (h & Hh & Hch);
        [rewrite Hg; now left | exact Hcg |].
      rewrite Hh in Hf. now injection Hf as <-.
    - unfold VikingVectorIndexBackend.search_children_in_tenant_filter in Hf.
      destruct (merge_filters_conjunct
                  [Some (Expr.Eq "parent_uri" (PStr parent_uri));
                   VikingVectorIndexBackend._build_scope_filter
                     ctx context_type target_directories extra_filter]
                  (tenant_conjunct ctx context_type) g) as (h & Hh & Hch);
        [rewrite Hg; right; now left | exact Hcg |].
      rewrite Hh in Hf. now injection Hf as <-. }
  pose proof (conjunct_matches _ _ r Hc Hm) as Ht.
  unfold tenant_conjunct in Ht. rewrite compiled_and_forallb in Ht.
  cbn [forallb] in Ht. rewrite andb_true_r in Ht.
  apply andb_prop in Ht as [Hacc Hown]. split.
  - change (dsl_match (compile_expr (Expr.Eq "account_id" (PStr (account_id ctx)))) r)
      with (must_match "account_id" (List.map PStr [account_id ctx]) r) in Hacc.
    apply must_match_strings in Hacc as (s & [<-|[]] & Hs); [exact Hs | reflexivity].
  - match type of Hown with
    | dsl_match (compile_expr (Expr.In "owner_space" (List.map PStr ?ss))) r = true =>
        change (must_match "owner_space" (List.map PStr ss) r = true) in Hown
    end.
    apply must_match_strings in Hown as (s & Hs & Hr); [|reflexivity].
    exists s. split; [exact Hr|].
    apply in_app_or in Hs as [[<-|[<-|[]]]|Hs]; auto.
    destruct context_type as [ct|]; [|destruct Hs].
    destruct (String.eqb_spec ct "resource") as [->|]; [|destruct Hs].
    destruct Hs as [<-|[]]. auto.
Qed.

Lemma tenant_filter_admits_own_records_witness :
  memory_note !! "account_id" = Some (PStr (account_id alice_ctx))
  /\ exists space,
       memory_note !! "owner_space" = Some (PStr space)
       /\ (space = user_space_name alice_ctx \/ space = agent_space_name alice_ctx
           \/ space = EmptyString /\ None = Some "resource").
Proof.
  apply (tenant_filter_admits_own_records alice_ctx None None FNone
           "viking://user/alice/memories" (tenant_conjunct alice_ctx None) memory_note).
  - discriminate.
  - left. reflexivity.
  - vm_compute. reflexivity.
Defined.

Lemma merge_filters_none (filters : list (option FilterExpr)) :
  VikingVectorIndexBackend._merge_filters filters = None
  <-> forall f, List.In f filters -> f = None.
Proof.
  unfold VikingVectorIndexBackend._merge_filters. split.
  - intros H f Hf. destruct f as [e|]; [|reflexivity].
    assert (Hin : e ∈ omap id filters).
    { apply list_elem_of_omap. exists (Some e). split; [now apply list_elem_of_In | reflexivity]. }
    destruct (omap id filters) as [|a [|b l]]; [inversion Hin | discriminate | discriminate].
  - intros H. assert (Hnil : omap id filters = []).
    { induction filters as [|f fs IH]; [reflexivity|]. cbn [omap list_omap].
      rewrite (H f (or_introl eq_refl)). cbn. apply IH. intros g Hg. apply H. now right. }
    now rewrite Hnil.
Qed.

(** X20. [_build_scope_filter] returns no filter at all only for a ROOT
    context that asks for no context type, no non-empty target directory
    and no extra filter; in every other case the search is filtered. *)
Theorem scope_filter_absent_iff (ctx : RequestContext) (context_type : option string)
    (target_directories : option (list string)) (extra_filter : filter_arg) :
  VikingVectorIndexBackend._build_scope_filter
    ctx context_type target_directories extra_filter = None
  <-> role ctx = ROOT
      /\ (context_type = None \/ context_type = Some EmptyString)
      /\ (forall dirs d, target_directories = Some dirs -> List.In d dirs -> d = EmptyString)
      /\ (extra_filter = FNone \/ extra_filter = FDict []).
Proof.
  unfold VikingVectorIndexBackend._build_scope_filter. rewrite merge_filters_none.
  split.
  - intros H.
    assert (H1 := H _ (or_introl eq_refl)).
    assert (H2 := H _ (or_intror (or_introl eq_refl))).
    assert (H3 := H _ (or_intror (or_intror (or_introl eq_refl)))).
    assert (H4 := H _ (or_intror (or_intror (or_intror (or_introl eq_refl))))).
    clear H. repeat split.
    + unfold VikingVectorIndexBackend._tenant_filter in H2.
      destruct (role ctx); [reflexivity | discriminate | discriminate].
    + unfold VikingVectorIndexBackend.context_type_filter in H1.
      destruct context_type as [[|c ct]|]; [now right | discriminate | now left].
    + intros dirs d -> Hd.
      unfold VikingVectorIndexBackend.target_directories_filter in H3.
      destruct d as [|c d]; [reflexivity|]. exfalso.
      assert (Hin : List.In (String c d) (List.filter Str.nonempty dirs))
        by (apply filter_In; now split).
      destruct (List.filter Str.nonempty dirs) as [|x xs]; [destruct Hin | discriminate].
    + unfold VikingVectorIndexBackend.extra_filter_expr in H4.
      destruct extra_filter as [|[|kv d]|e]; [now left | now right | discriminate | discriminate].
  - intros (Hrole & Hct & Htd & Hef) f Hf.
    destruct Hf as [<-|[<-|[<-|[<-|[]]]]].
    + destruct Hct as [-> | ->]; reflexivity.
    + unfold VikingVectorIndexBackend._tenant_filter. now rewrite Hrole.
    + unfold VikingVectorIndexBackend.target_directories_filter.
      destruct target_directories as [dirs|]; [|reflexivity].
      assert (Hnil : List.filter Str.nonempty dirs = []).
      { specialize (Htd dirs). induction dirs as [|d ds IH]; [reflexivity|].
        cbn [List.filter]. rewrite (Htd d eq_refl (or_introl eq_refl)). cbn.
        apply IH. intros d' _ Hd'. apply Htd; [reflexivity | now right]. }
      now rewrite Hnil.
    + destruct Hef as [-> | ->]; reflexivity.
Qed.

(** X21. Whatever the role and the other arguments, the filter of
    [search_children_in_tenant] carries the conjunct [parent_uri == P], and
    the filter of [search_global_roots_in_tenant] admits only records whose
    [level] is 0 or 1: neither search ever runs unfiltered. *)
Theorem children_and_roots_always_filtered (ctx : RequestContext)
    (context_type : option string) (target_directories : option (list string))
    (extra_filter : filter_arg) (parent_uri : string) :
  (exists f,
      VikingVectorIndexBackend.search_children_in_tenant_filter
        ctx parent_uri context_type target_directories extra_filter = Some f
      /\ conjunct_of (Expr.Eq "parent_uri" (PStr parent_uri)) f)
  /\ (exists f,
         VikingVectorIndexBackend.search_global_roots_in_tenant_filter
           ctx context_type target_directories extra_filter = Some f
         /\ forall r, dsl_match (compile_expr f) r = true ->
                      r !! "level" = Some (PInt 0) \/ r !! "level" = Some (PInt 1)).
Proof.
  split.
  - apply (merge_filters_conjunct _ _ (Expr.Eq "parent_uri" (PStr parent_uri)));
      [now left | constructor].
  - destruct (merge_filters_conjunct
                [VikingVectorIndexBackend._build_scope_filter
                   ctx context_type target_directories extra_filter;
                 Some (Expr.In "level" [PInt 0; PInt 1])]
                (Expr.In "level" [PInt 0; PInt 1]) (Expr.In "level" [PInt 0; PInt 1]))
      as (f & Hf & Hc); [right; now left | constructor |].
    exists f. split; [exact Hf|]. intros r Hm.
    pose proof (conjunct_matches _ _ r Hc Hm) as Hl.
    change (must_match "level" [PInt 0; PInt 1] r = true) in Hl.
    unfold must_match in Hl. destruct (r !! "level") as [v|]; [|discriminate].
    destruct v; try discriminate. cbn in Hl.
    destruct n as [|p|p]; [now left | | discriminate].
    destruct p; try discriminate. now right.
Qed.

(** ** [HierarchicalRetriever]: the starting points *)

Lemma pyval_eqb_str (s : string) (v : pyval) :
  pyval_eqb (PStr s) v = true <-> v = PStr s.
Proof.
  destruct v; cbn; try (split; discriminate). rewrite String.eqb_eq.
  split; [now intros -> | now intros [= ->]].
Qed.

Lemma seen_str (s : string) (seen : list pyval) :
  existsb (pyval_eqb (PStr s)) seen = true <-> List.In (PStr s) seen.
Proof.
  rewrite existsb_exists. split.
  - intros (v & Hv & He). apply pyval_eqb_str in He. now subst.
  - intros H. exists (PStr s). split; [exact H | now apply pyval_eqb_str].
Qed.

Lemma root_points_fresh (seen : list pyval) (root_uris : list string) (p : pyval * pyval) :
  List.In p (root_points seen root_uris) ->
  exists uri, p = (PStr uri, PFloat 0) /\ List.In uri root_uris /\ ~ List.In (PStr uri) seen.
Proof.
  revert seen. induction root_uris as [|uri rest IH]; intros seen Hp; [destruct Hp|].
  cbn [root_points] in Hp.
  destruct (existsb (pyval_eqb (PStr uri)) seen) eqn:E.
  - destruct (IH seen Hp) as (u & -> & Hu & Hn). exists u. auto using in_cons.
  - destruct Hp as [<-|Hp].
    + exists uri. split; [reflexivity|]. split; [now left|].
      intros H. apply seen_str in H. congruence.
    + destruct (IH _ Hp) as (u & -> & Hu & Hn). exists u.
      split; [reflexivity|]. split; [now right|]. intros H. apply Hn. now right.
Qed.

Lemma root_points_nodup (seen : list pyval) (root_uris : list string) :
  List.NoDup (List.map fst (root_points seen root_uris)).
Proof.
  revert seen. induction root_uris as [|uri rest IH]; intros seen; [constructor|].
  cbn [root_points]. destruct (existsb (pyval_eqb (PStr uri)) seen); [apply IH|].
  cbn [List.map fst]. constructor; [|apply IH].
  intros Hin. apply in_map_iff in Hin as (p & Hp & Hin).
  apply root_points_fresh in Hin as (u & -> & _ & Hn). cbn in Hp. subst.
  apply Hn. now left.
Qed.

Lemma root_points_cover (seen : list pyval) (root_uris : list string) (uri : string) :
  List.In uri root_uris ->
  List.In (PStr uri) seen
  \/ List.In (PStr uri, PFloat 0) (root_points seen root_uris).
Proof.
  revert seen. induction root_uris as [|u rest IH]; intros seen Hin; [destruct Hin|].
  cbn [root_points]. destruct (existsb (pyval_eqb (PStr u)) seen) eqn:E.
  - destruct Hin as [->|Hin]; [left; now apply seen_str | now apply IH].
  - destruct Hin as [->|Hin]; [right; now left|].
    destruct (IH (PStr u :: seen) Hin) as [[H|H]|H].
    + injection H as ->. right. now left.
    + now left.
    + right. now right.
Qed.

Lemma global_points_spec (global_results : list record) (points : list (pyval * pyval)) :
  global_points global_results = inr points ->
  Forall2 (fun r p => r !! "uri" = Some p.1 /\ r !! "_score" = Some p.2)
          global_results points.
Proof.
  revert points. induction global_results as [|r rest IH]; intros points H.
  - injection H as <-. constructor.
  - cbn [global_points] in H. unfold global_point in H.
    destruct (r !! "uri") as [u|] eqn:Eu; [|discriminate].
    destruct (r !! "_score") as [s|] eqn:Es; [|discriminate].
    assert (Hp : exists ps, global_points rest = inr ps /\ points = (u, s) :: ps).
    { destruct u; try discriminate;
        (destruct (global_points rest) as [e|ps]; [discriminate|]);
        injection H as <-; eauto. }
    destruct Hp as (ps & Hps & ->). constructor; [split; assumption | now apply IH].
Qed.

Lemma global_points_total (global_results : list record) :
  Forall (fun r : record =>
            exists u s, r !! "uri" = Some (PStr u) /\ r !! "_score" = Some s)
         global_results ->
  exists globals, global_points global_results = inr globals.
Proof.
  induction 1 as [|r rs (u & s & Hu & Hs) _ [globals IH]]; [now exists []|].
  cbn [global_points]. unfold global_point. rewrite Hu, Hs, IH. eauto.
Qed.

(** X22. [_merge_starting_points] succeeds whenever every global result has
    a string ["uri"] and a ["_score"].  The global results come first, each
    with its own uri and score; every root URI is a starting point; a root
    URI is added (with score 0.0) only when no earlier point has that URI, so
    the URIs of the points are pairwise distinct whenever those of the global
    results are. *)
Theorem merge_starting_points_spec (root_uris : list string)
    (global_results : list record) :
  Forall (fun r : record =>
            exists u s, r !! "uri" = Some (PStr u) /\ r !! "_score" = Some s)
         global_results ->
  exists points,
    _merge_starting_points root_uris global_results = inr points
    /\ (exists globals roots,
           points = globals ++ roots
           /\ Forall2 (fun r p => r !! "uri" = Some p.1 /\ r !! "_score" = Some p.2)
                      global_results globals
           /\ Forall (fun p => p.2 = PFloat 0) roots)
    /\ (forall uri, List.In uri root_uris -> List.In (PStr uri) (List.map fst points))
    /\ (List.NoDup (List.map (fun r : record => r !! "uri") global_results) ->
        List.NoDup (List.map fst points)).
Proof.
  intros Hall. destruct (global_points_total _ Hall) as [globals Eg]. clear Hall.
  unfold _merge_starting_points. rewrite Eg. eexists. split; [reflexivity|].
  pose proof (global_points_spec _ _ Eg) as Hg.
  split; [|split].
  - exists globals, (root_points (List.map fst globals) root_uris).
    split; [reflexivity|]. split; [exact Hg|].
    apply List.Forall_forall. intros p Hp.
    apply root_points_fresh in Hp as (u & -> & _). reflexivity.
  - intros uri Hin. rewrite List.map_app. apply in_or_app.
    destruct (root_points_cover (List.map fst globals) root_uris uri Hin) as [H|H];
      [now left | right].
    apply in_map_iff. exists (PStr uri, PFloat 0). auto.
  - intros Hnd. rewrite List.map_app.
    assert (Hgn : List.NoDup (List.map fst globals)).
    { assert (Hmap : List.map (fun r : record => r !! "uri") global_results
                     = List.map Some (List.map fst globals)).
      { clear -Hg. induction Hg as [|r p rs ps [Hu _] _ IH]; [reflexivity|].
        cbn [List.map]. now rewrite Hu, IH. }
      rewrite Hmap in Hnd. now apply List.NoDup_map_inv in Hnd. }
    clear Hnd Eg Hg. induction globals as [|g gs IH] in Hgn |- *.
    + apply root_points_nodup.
    + assert (Hall : forall x, List.In x (List.map fst (g :: gs)) ->
                ~ List.In x (List.map fst (root_points (List.map fst (g :: gs)) root_uris))).
      { intros x Hx Hin. apply in_map_iff in Hin as (p & <- & Hp).
        apply root_points_fresh in Hp as (u & -> & _ & Hn). now apply Hn. }
      apply NoDup_ListNoDup. apply NoDup_app. split; [now apply NoDup_ListNoDup|].
      split; [|apply NoDup_ListNoDup, root_points_nodup].
      intros x Hx%list_elem_of_In Hin%list_elem_of_In. now apply (Hall x).
Qed.

Lemma merge_starting_points_spec_witness :
  exists points,
    _merge_starting_points ["viking://resources"; "viking://agent/helper/skills"]
      [resources_hit] = inr points
    /\ List.In (PStr "viking://agent/helper/skills") (List.map fst points)
    /\ List.NoDup (List.map fst points).
Proof.
  destruct (merge_starting_points_spec
              ["viking://resources"; "viking://agent/helper/skills"] [resources_hit])
    as (points & Hrun & _ & Hcover & Hnd).
  - constructor; [|constructor].
    exists "viking://resources", (PFloat 4605380978949069210). split; reflexivity.
  - exists points. split; [exact Hrun|]. split.
    + apply Hcover. right. now left.
    + apply Hnd. constructor; [intros []|constructor].
Defined.

(** ** Rewrites through [filter]: the vectors are not carried over *)

Lemma stored_set_uuid_next (n : nat) (w : world) : stored (set_uuid_next n w) = stored w.
Proof. reflexivity. Qed.

Lemma bind_ret_state {A B : Type} (m : M world A) (f : A -> B) (w : world) :
  (bind m (fun a => ret (f a)) w).2 = (m w).2.
Proof. unfold bind, ret. destruct (m w) as [[e|a] w']; reflexivity. Qed.

Lemma on_collection_upsert_one (record : record) (w : world) :
  let w' := (on_collection (upsert_data [record]) w).2 in
  stored w' = stored w \/ exists k, stored w' = <[k := record]> (stored w).
Proof.
  cbv zeta. unfold on_collection. destruct (collection w) as [c|] eqn:Ec; [|now left].
  cbn [upsert_data]. destruct (primary_key record) as [k|]; [|now left].
  right. exists k. unfold stored. rewrite Ec. reflexivity.
Qed.

Lemma adapter_upsert_effect (payload : record) (w : world) :
  let w' := (CollectionAdapter.upsert payload w).2 in
  stored w' = stored w
  \/ exists k rid, stored w' = <[k := <["id" := rid]> payload]> (stored w).
Proof.
  intros w'. subst w'.
  remember (CollectionAdapter.upsert payload w).2 as w' eqn:E.
  unfold CollectionAdapter.upsert in E. unfold bind at 1 in E.
  unfold CollectionAdapter.get_collection at 1 in E.
  destruct (collection w) as [c|] eqn:Ec; [|subst; now left].
  unfold bind at 1 in E. destruct (get_truthy payload "id").
  - unfold ret at 1 in E. rewrite bind_ret_state in E. subst w'.
    destruct (on_collection_upsert_one
                (<["id" := default PNone (payload !! "id")]> payload) w) as [H|[k H]];
      [now left | right; exists k, (default PNone (payload !! "id")); exact H].
  - unfold bind at 1 in E. unfold uuid4 at 1 in E. unfold ret at 1 in E.
    rewrite bind_ret_state in E. subst w'.
    destruct (on_collection_upsert_one
                (<["id" := PStr (uuid_source w (uuid_next w))]> payload)
                (set_uuid_next (S (uuid_next w)) w)) as [H|[k H]];
      [now left | right; exists k, (PStr (uuid_source w (uuid_next w))); exact H].
Qed.

Lemma filter_known_fields_run (payload : record) (w : world) :
  exists payload',
    VikingVectorIndexBackend._filter_known_fields payload w = (inr payload', w)
    /\ forall f, payload !! f = None -> payload' !! f = None.
Proof.
  unfold VikingVectorIndexBackend._filter_known_fields, try_except, bind,
    CollectionAdapter.get_collection, ret.
  destruct (collection w) as [c|]; eexists; (split; [reflexivity|]).
  - intros f Hf. unfold VikingVectorIndexBackend.known_fields.
    apply map_lookup_filter_None. now left.
  - auto.
Qed.

(** What [upsert] can do to the stored records: nothing, or put one record
    under one key; a field (other than [id]) that the payload lacks is not
    in that record. *)
Lemma backend_upsert_effect (data : record) (w : world) :
  let w' := (VikingVectorIndexBackend.upsert data w).2 in
  stored w' = stored w
  \/ exists k r, stored w' = <[k := r]> (stored w)
                 /\ forall f, f <> "id" -> data !! f = None -> r !! f = None.
Proof.
  intros w'. subst w'.
  remember (VikingVectorIndexBackend.upsert data w).2 as w' eqn:E.
  unfold VikingVectorIndexBackend.upsert in E. unfold bind at 1 in E.
  destruct (VikingVectorIndexBackend.invalid_context_type _ w) as [[e|invalid] w0] eqn:Ei.
  { left. unfold VikingVectorIndexBackend.invalid_context_type in Ei.
    destruct (truthy _); [|discriminate].
    destruct (default PNone (data !! "context_type")); try discriminate;
      injection Ei as _ <-; now subst. }
  assert (w0 = w) as ->.
  { unfold VikingVectorIndexBackend.invalid_context_type in Ei.
    destruct (truthy _); [|now injection Ei].
    destruct (default PNone (data !! "context_type")); try discriminate;
      now injection Ei. }
  destruct invalid; [subst; now left|].
  assert (Hgen : forall payload w1,
             stored w1 = stored w ->
             (forall f, f <> "id" -> data !! f = None -> payload !! f = None) ->
             w' = (bind (VikingVectorIndexBackend._filter_known_fields payload)
                     (fun payload0 =>
                        bind (CollectionAdapter.upsert payload0)
                          (fun ids =>
                             ret (match ids with i :: _ => i | [] => PStr "" end)))
                     w1).2 ->
             stored w' = stored w
             \/ exists k r, stored w' = <[k := r]> (stored w)
                            /\ forall f, f <> "id" -> data !! f = None -> r !! f = None).
  { intros payload w1 Hs Hp E'. unfold bind at 1 in E'.
    destruct (filter_known_fields_run payload w1) as (payload' & Hrun & Hp').
    rewrite Hrun in E'. rewrite bind_ret_state in E'. subst w'.
    destruct (adapter_upsert_effect payload' w1) as [H|(k & rid & H)].
    - left. congruence.
    - right. exists k, (<["id" := rid]> payload'). split; [congruence|].
      intros f Hf Hd. rewrite lookup_insert_ne by congruence. auto. }
  destruct (get_truthy data "id").
  - unfold bind at 1 in E. unfold ret at 1 in E.
    apply (Hgen data w); [reflexivity | auto | exact E].
  - unfold bind at 1 in E. unfold bind at 1 in E. unfold uuid4 at 1 in E.
    unfold ret at 1 in E.
    apply (Hgen (<["id" := PStr (uuid_source w (uuid_next w))]> data)
                (set_uuid_next (S (uuid_next w)) w)); [reflexivity | | exact E].
    intros f Hf Hd. rewrite lookup_insert_ne by congruence. exact Hd.
Qed.

Lemma rewritten_bare_refl (w w' : world) :
  stored w' = stored w -> rewritten_bare w w'.
Proof. intros E k. left. now rewrite E. Qed.

Lemma rewritten_bare_trans (w1 w2 w3 : world) :
  rewritten_bare w1 w2 -> rewritten_bare w2 w3 -> rewritten_bare w1 w3.
Proof.
  intros H12 H23 k. destruct (H23 k) as [E|H]; [|now right].
  rewrite E. apply H12.
Qed.

Lemma filter_run (f : filter_arg) (limit offset : Z) (w : world) :
  exists records,
    VikingVectorIndexBackend.filter f limit offset w = (inr records, w)
    /\ Forall (fun r : record => r !! "vector" = None /\ r !! "sparse_vector" = None)
              records.
Proof.
  pose proof (filter_strips_vectors f limit offset w) as H.
  unfold VikingVectorIndexBackend.filter, VikingVectorIndexBackend.query, try_except,
    CollectionAdapter.query, CollectionAdapter.get_collection, bind, ret in *.
  destruct (collection w) as [c|]; cbn [fst] in H; eauto.
Qed.

Lemma upsert_bare (data : record) (w : world) :
  data !! "vector" = None -> data !! "sparse_vector" = None ->
  rewritten_bare w (VikingVectorIndexBackend.upsert data w).2.
Proof.
  intros Hv Hs.
  destruct (backend_upsert_effect data w) as [E|(k0 & r & E & Hr)].
  - now apply rewritten_bare_refl.
  - intros k. rewrite E. destruct (decide (k = k0)) as [->|Hne].
    + right. exists r. rewrite lookup_insert_eq.
      repeat split; apply Hr; (discriminate || assumption).
    + left. now rewrite lookup_insert_ne by congruence.
Qed.

Lemma update_uri_mapping_bare (ctx : RequestContext) (uri new_uri new_parent_uri : string)
    (w : world) :
  rewritten_bare w
    (VikingVectorIndexBackend.update_uri_mapping ctx uri new_uri new_parent_uri w).2.
Proof.
  unfold VikingVectorIndexBackend.update_uri_mapping. unfold bind at 1.
  destruct (filter_run
              (FExpr (Expr.And [Expr.Eq "uri" (PStr uri);
                                Expr.Eq "account_id" (PStr (account_id ctx))])) 1 0 w)
    as (records & -> & Hbare).
  destruct records as [|r0 rest]; [now apply rewritten_bare_refl|].
  destruct (r0 !! "id"); [|now apply rewritten_bare_refl].
  rewrite bind_ret_state.
  apply Forall_cons in Hbare as [[Hv Hs] _].
  apply upsert_bare; now rewrite !lookup_insert_ne by discriminate.
Qed.

Section ActiveCountProps.

Variable py_int : pyval -> exn + Z.

Lemma increment_one_bare (ctx : RequestContext) (uri : string) (w : world) :
  rewritten_bare w (increment_one py_int ctx uri w).2.
Proof.
  unfold increment_one, VikingVectorIndexBackend.get_context_by_uri. unfold bind at 1.
  destruct (filter_run
              (FExpr (Expr.And [Expr.Eq "uri" (PStr uri);
                                Expr.Eq "account_id" (PStr (account_id ctx))])) 1 0 w)
    as (records & -> & Hbare).
  destruct records as [|r0 rest]; [now apply rewritten_bare_refl|].
  apply Forall_cons in Hbare as [[Hv Hs] _].
  unfold bind at 1.
  destruct (if truthy (default (PInt 0) (r0 !! "active_count"))
            then py_int (default (PInt 0) (r0 !! "active_count")) else inr 0)
    as [e|current]; [now apply rewritten_bare_refl|].
  rewrite bind_ret_state.
  apply upsert_bare; now rewrite lookup_insert_ne by discriminate.
Qed.

(** X24. [increment_active_count] never stores an embedding, whatever
    the list of URIs and whatever [int] makes of the stored counters: each
    record it bumps was read through [filter] and is written back without
    [vector] and [sparse_vector]; every other key keeps its record. *)
Theorem increment_active_count_stores_no_vector (ctx : RequestContext)
    (uris : list string) (w : world) :
  rewritten_bare w (increment_active_count py_int ctx uris w).2.
Proof.
  revert w. induction uris as [|uri rest IH]; intros w.
  - now apply rewritten_bare_refl.
  - cbn [increment_active_count]. unfold bind at 1.
    pose proof (increment_one_bare ctx uri w) as H1.
    destruct (increment_one py_int ctx uri w) as [[e|written] w1]; [exact H1|].
    cbn [snd] in H1. rewrite bind_ret_state.
    exact (rewritten_bare_trans _ _ _ H1 (IH w1)).
Qed.

End ActiveCountProps.

(** ** [VikingFS.rm] and [VikingFS.mv] when the blob store succeeds *)

Lemma matched_ids_in (l : list (string * record)) (k : string) :
  List.In k (CollectionAdapter.matched_ids
               (List.map (fun item : string * record =>
                            CollectionAdapter._normalize_record_for_read
                              (<["_score" := PFloat 0]> (<["id" := PStr item.1]> item.2)))
                         l)) ->
  exists r, List.In (k, r) l.
Proof.
  induction l as [|[k' r'] l IH]; [intros []|].
  unfold CollectionAdapter.matched_ids in *. cbn [List.map fst snd omap list_omap].
  unfold CollectionAdapter._normalize_record_for_read at 1.
  rewrite lookup_insert_ne by discriminate. rewrite lookup_insert_eq.
  destruct (Str.nonempty k').
  - intros [<-|H]; [exists r'; now left|].
    destruct (IH H) as (r & Hr). exists r. now right.
  - intros H. destruct (IH H) as (r & Hr). exists r. now right.
Qed.

Lemma length_matched_ids (l : list record) :
  (length (CollectionAdapter.matched_ids l) <= length l)%nat.
Proof.
  unfold CollectionAdapter.matched_ids.
  induction l as [|r l IH]; [reflexivity|]. cbn [omap list_omap length].
  destruct (match r !! "id" with
            | Some (PStr s) => if Str.nonempty s then Some s else None
            | _ => None
            end); cbn [length]; lia.
Qed.

Lemma size_fold_delete_ge (ids : list string) (m : gmap string record) :
  (size m <= size (List.fold_left (fun m k => delete k m) ids m) + length ids)%nat.
Proof.
  revert m. induction ids as [|i ids IH]; intros m; cbn [List.fold_left length]; [lia|].
  specialize (IH (delete i m)). rewrite map_size_delete in IH.
  destruct (m !! i); cbn in IH; lia.
Qed.

(** A filter delete removes records that satisfy the filter, and no other,
    and at most [limit] of them. *)
Lemma adapter_delete_filter_sound (w : world) (c : Collection) (e : FilterExpr)
    (limit : Z) :
  collection w = Some c ->
  exists n c',
    CollectionAdapter.delete [] (FExpr e) limit w = (inr n, set_collection (Some c') w)
    /\ coll_data c' ⊆ coll_data c
    /\ (forall k r, coll_data c !! k = Some r ->
                    dsl_match (compile_expr e) r = false ->
                    coll_data c' !! k = Some r)
    /\ (size (coll_data c) <= size (coll_data c') + Z.to_nat limit)%nat.
Proof.
  intros Hc.
  set (hits := search_by_random limit 0 (compile_expr e) c).
  assert (Hquery : CollectionAdapter.query (FExpr e) limit 0 true w
                   = (inr (List.map
                             (fun item : string * record =>
                                CollectionAdapter._normalize_record_for_read
                                  (<["_score" := PFloat 0]> (<["id" := PStr item.1]> item.2)))
                             hits), w)).
  { unfold CollectionAdapter.query, CollectionAdapter.get_collection, bind, ret.
    now rewrite Hc. }
  set (ids := CollectionAdapter.matched_ids
                (List.map
                   (fun item : string * record =>
                      CollectionAdapter._normalize_record_for_read
                        (<["_score" := PFloat 0]> (<["id" := PStr item.1]> item.2)))
                   hits)).
  assert (Hids : forall k, List.In k ids ->
                           exists r, coll_data c !! k = Some r
                                     /\ dsl_match (compile_expr e) r = true).
  { intros k Hk. apply matched_ids_in in Hk as (r & Hr). exists r.
    unfold hits, search_by_random in Hr. cbn [Z.to_nat drop] in Hr.
    apply list_elem_of_In in Hr. apply (subseteq_take (Z.to_nat limit)) in Hr.
    apply list_elem_of_In, filter_In in Hr as [Hr Hm].
    split; [|exact Hm]. now apply elem_of_map_to_list, list_elem_of_In. }
  assert (Hlen : (length ids <= Z.to_nat limit)%nat).
  { unfold ids. etransitivity; [apply length_matched_ids|].
    rewrite List.length_map. unfold hits, search_by_random. rewrite length_take. lia. }
  exists (match ids with [] => 0 | _ => Z.of_nat (length ids) end), (delete_data ids c).
  split; [|split; [|split]].
  - unfold CollectionAdapter.delete.
    unfold bind at 1. unfold CollectionAdapter.get_collection at 1. rewrite Hc.
    unfold bind at 1. unfold bind at 1. rewrite Hquery. unfold ret at 1.
    fold ids. destruct ids as [|i ids'] eqn:Ei.
    + unfold ret, delete_data. cbn [List.fold_left].
      replace {| coll_fields := coll_fields c; coll_data := coll_data c |} with c
        by (destruct c; reflexivity).
      now rewrite set_collection_same.
    + unfold bind, on_collection, ret. rewrite Hc. reflexivity.
  - apply fold_delete_subseteq.
  - intros k r Hk Hm. unfold delete_data. cbn [coll_data]. rewrite fold_delete_lookup.
    destruct (Str.mem k ids) eqn:Em; [|exact Hk].
    apply mem_true_iff, Hids in Em as (r' & Hr' & Hm'). congruence.
  - unfold delete_data. cbn [coll_data].
    pose proof (size_fold_delete_ge ids (coll_data c)). lia.
Qed.

Lemma delete_uri_filter_account (ctx : RequestContext) (uri : string) (r : record) :
  dsl_match (compile_expr (VikingVectorIndexBackend.delete_uri_filter ctx uri)) r = true ->
  r !! "account_id" = Some (PStr (account_id ctx)).
Proof.
  intros Hm. apply account_filter_matches.
  apply (conjunct_matches _ (VikingVectorIndexBackend.delete_uri_filter ctx uri)); [|exact Hm].
  unfold VikingVectorIndexBackend.delete_uri_filter.
  destruct (Role_eqb (role ctx) USER && _);
    (apply (conjunct_and _ _ (Expr.Eq "account_id" (PStr (account_id ctx))));
     [now left | constructor]).
Qed.

(** [delete_uris] on an existing collection: only records of the caller's
    account are removed. *)
Lemma delete_uris_keeps (ctx : RequestContext) (uris : list string) :
  forall (w : world) (c : Collection),
    collection w = Some c ->
    exists c',
      VikingVectorIndexBackend.delete_uris ctx uris w
      = (inr tt, set_collection (Some c') w)
      /\ coll_data c' ⊆ coll_data c
      /\ forall k r, coll_data c !! k = Some r ->
                     r !! "account_id" <> Some (PStr (account_id ctx)) ->
                     coll_data c' !! k = Some r.
Proof.
  induction uris as [|u uris IH]; intros w c Hc.
  - exists c. cbn. rewrite (set_collection_same w c Hc). auto.
  - unfold VikingVectorIndexBackend.delete_uris. cbn [for_each].
    unfold bind at 1. unfold bind at 1.
    destruct (adapter_delete_filter_sound w c
                (VikingVectorIndexBackend.delete_uri_filter ctx u) 100000 Hc)
      as (n & c1 & Hdel & Hsub1 & Hkeep1 & _).
    rewrite Hdel. unfold ret at 1.
    destruct (IH (set_collection (Some c1) w) c1 eq_refl) as (c' & Hrun & Hsub & Hkeep).
    exists c'. unfold VikingVectorIndexBackend.delete_uris in Hrun. rewrite Hrun.
    split; [reflexivity|]. split; [etransitivity; eassumption|].
    intros k r Hk Ha. apply Hkeep; [|exact Ha]. apply Hkeep1; [exact Hk|].
    destruct (dsl_match _ r) eqn:Hm; [|reflexivity].
    apply delete_uri_filter_account in Hm. contradiction.
Qed.

(** X25. When the blob store removes the path, [rm] succeeds whatever the
    vector index does (no vector store, no collection, a failing delete).
    The index only shrinks, and the records of every other account than the
    caller's stay exactly as they were. *)
Theorem rm_succeeds_with_blob_store (w : world) (ctx : option RequestContext)
    (uri : string) (recursive : bool) :
  let real_ctx := VikingFS._ctx_or_default w ctx in
  VikingFS._is_accessible uri real_ctx = true ->
  agfs_rm w (VikingFS._uri_to_path uri real_ctx) recursive = inr tt ->
  exists w',
    VikingFS.rm uri recursive ctx w = (inr tt, w')
    /\ stored w' ⊆ stored w
    /\ forall k r, stored w !! k = Some r ->
                   r !! "account_id" <> Some (PStr (account_id real_ctx)) ->
                   stored w' !! k = Some r.
Proof.
  intros real_ctx Hacc Hrm.
  unfold VikingFS.rm. unfold bind at 1. rewrite (ensure_access_ok uri ctx w Hacc).
  unfold bind at 1. unfold get_state at 1. fold real_ctx.
  unfold bind at 1. unfold VikingFS.agfs_rm_call. rewrite Hrm.
  unfold VikingFS._delete_from_vector_store. fold real_ctx.
  destruct (vector_store w); [|exists w; auto].
  unfold try_except.
  destruct (collection w) as [c|] eqn:Hc.
  - destruct (delete_uris_keeps real_ctx
                (VikingFS._collect_uris w (VikingFS._uri_to_path uri real_ctx) recursive ctx
                 ++ [VikingFS._path_to_uri (VikingFS._uri_to_path uri real_ctx) real_ctx])
                w c Hc) as (c' & -> & Hsub & Hkeep).
    eexists. split; [reflexivity|]. unfold stored. rewrite Hc. cbn. auto.
  - destruct (VikingFS._collect_uris w (VikingFS._uri_to_path uri real_ctx) recursive ctx
              ++ [VikingFS._path_to_uri (VikingFS._uri_to_path uri real_ctx) real_ctx])
      as [|u us] eqn:Eu.
    { now destruct (VikingFS._collect_uris w _ recursive ctx). }
    unfold VikingVectorIndexBackend.delete_uris. cbn [for_each].
    unfold bind, CollectionAdapter.delete, CollectionAdapter.get_collection.
    unfold bind. rewrite Hc. exists w. auto.
Qed.

Lemma rm_succeeds_with_blob_store_witness :
  exists w',
    VikingFS.rm "viking://user/alice/memories" true (Some alice_ctx) two_notes_world
    = (inr tt, w')
    /\ stored w' ⊆ stored two_notes_world
    /\ forall k r, stored two_notes_world !! k = Some r ->
                   r !! "account_id" <> Some (PStr "acme") ->
                   stored w' !! k = Some r.
Proof.
  apply (rm_succeeds_with_blob_store two_notes_world (Some alice_ctx)
           "viking://user/alice/memories" true).
  - vm_compute. reflexivity.
  - reflexivity.
Defined.

Lemma update_one_bare (ctx : option RequestContext) (old_base_uri new_base_uri uri : string)
    (w : world) :
  exists w', VikingFS.update_one ctx old_base_uri new_base_uri uri w = (inr tt, w')
             /\ rewritten_bare w w'.
Proof.
  unfold VikingFS.update_one, try_except.
  match goal with
  | |- context [match ?m w with _ => _ end] =>
      assert (Hbare : rewritten_bare w (m w).2);
      [|destruct (m w) as [[e|[]] w1]; exists w1; split; (reflexivity || exact Hbare)]
  end.
  unfold bind at 1. unfold get_state at 1.
  unfold VikingVectorIndexBackend.get_context_by_uri. unfold bind at 1.
  destruct (filter_run
              (FExpr (Expr.And
                        [Expr.Eq "uri" (PStr uri);
                         Expr.Eq "account_id"
                           (PStr (account_id (VikingFS._ctx_or_default w ctx)))])) 1 0 w)
    as (records & -> & _).
  destruct records as [|record rest]; [now apply rewritten_bare_refl|].
  destruct (record !! "id"); [|now apply rewritten_bare_refl].
  unfold bind at 1.
  destruct (truthy (default (PStr "") (record !! "parent_uri"))).
  - destruct (default (PStr "") (record !! "parent_uri"));
      try (now apply rewritten_bare_refl).
    unfold ret at 1. rewrite bind_ret_state. apply update_uri_mapping_bare.
  - unfold ret at 1. rewrite bind_ret_state. apply update_uri_mapping_bare.
Qed.

Lemma update_vector_store_uris_bare (uris : list string) (old_base new_base : string)
    (ctx : option RequestContext) (w : world) :
  exists w', VikingFS._update_vector_store_uris uris old_base new_base ctx w = (inr tt, w')
             /\ rewritten_bare w w'.
Proof.
  unfold VikingFS._update_vector_store_uris.
  destruct (vector_store w); [|exists w; split; [reflexivity | now apply rewritten_bare_refl]].
  generalize (VikingFS._path_to_uri old_base (VikingFS._ctx_or_default w ctx)) as old_base_uri.
  generalize (VikingFS._path_to_uri new_base (VikingFS._ctx_or_default w ctx)) as new_base_uri.
  intros new_base_uri old_base_uri. generalize w as w0.
  induction uris as [|uri uris IH]; intros w0.
  - exists w0. split; [reflexivity | now apply rewritten_bare_refl].
  - cbn [for_each]. unfold bind.
    destruct (update_one_bare ctx old_base_uri new_base_uri uri w0) as (w1 & -> & H1).
    destruct (IH w1) as (w2 & -> & H2).
    exists w2. split; [reflexivity|]. now apply rewritten_bare_trans with w1.
Qed.

(** X26. When the blob store moves the source, [mv] succeeds whatever the
    vector index does.  It removes no record, and every record it rewrote is
    stored without [vector] and [sparse_vector]: each key of the index holds
    what it held before the move, or a record without embeddings. *)
Theorem mv_succeeds_with_blob_store (w : world) (ctx : option RequestContext)
    (old_uri new_uri : string) :
  let real_ctx := VikingFS._ctx_or_default w ctx in
  VikingFS._is_accessible old_uri real_ctx = true ->
  VikingFS._is_accessible new_uri real_ctx = true ->
  agfs_mv w (VikingFS._uri_to_path old_uri real_ctx)
            (VikingFS._uri_to_path new_uri real_ctx) = inr tt ->
  exists w',
    VikingFS.mv old_uri new_uri ctx w = (inr tt, w') /\ rewritten_bare w w'.
Proof.
  intros real_ctx Hold Hnew Hmv.
  unfold VikingFS.mv. unfold bind at 1. rewrite (ensure_access_ok old_uri ctx w Hold).
  unfold bind at 1. rewrite (ensure_access_ok new_uri ctx w Hnew).
  unfold bind at 1. unfold get_state at 1. fold real_ctx.
  unfold try_except. unfold bind at 1. unfold VikingFS.agfs_mv_call at 1.
  rewrite Hmv.
  destruct (update_vector_store_uris_bare
              (VikingFS._collect_uris w (VikingFS._uri_to_path old_uri real_ctx) true ctx
               ++ [VikingFS._path_to_uri (VikingFS._uri_to_path old_uri real_ctx) real_ctx])
              old_uri new_uri ctx w) as (w' & -> & Hbare).
  exists w'. split; [reflexivity | exact Hbare].
Qed.

Lemma mv_succeeds_with_blob_store_witness :
  exists w',
    VikingFS.mv "viking://user/alice/memories" "viking://user/alice/archive"
      (Some alice_ctx) embedded_world = (inr tt, w')
    /\ rewritten_bare embedded_world w'.
Proof.
  apply (mv_succeeds_with_blob_store embedded_world (Some alice_ctx)
           "viking://user/alice/memories" "viking://user/alice/archive").
  - vm_compute. reflexivity.
  - vm_compute. reflexivity.
  - reflexivity.
Defined.

(** ** The access check covers every URI argument *)

Lemma ensure_access_denied (uri : string) (ctx : option RequestContext) (w : world) :
  VikingFS._is_accessible uri (VikingFS._ctx_or_default w ctx) = false ->
  VikingFS._ensure_access uri ctx w = (inl PermissionError, w).
Proof. intros H. unfold VikingFS._ensure_access. now rewrite H. Qed.

Lemma ensure_access_run (uri : string) (ctx : option RequestContext) (w : world) :
  VikingFS._ensure_access uri ctx w = (inr tt, w)
  \/ VikingFS._ensure_access uri ctx w = (inl PermissionError, w).
Proof. unfold VikingFS._ensure_access. destruct (VikingFS._is_accessible _ _); auto. Qed.

Lemma ensure_access_some_denied (before after : list string) (target : string)
    (ctx : option RequestContext) (w : world) :
  VikingFS._is_accessible target (VikingFS._ctx_or_default w ctx) = false ->
  for_each (before ++ target :: after) (fun uri => VikingFS._ensure_access uri ctx) w
  = (inl PermissionError, w).
Proof.
  intros Hden. induction before as [|u before IH]; cbn [app for_each]; unfold bind.
  - now rewrite (ensure_access_denied target ctx w Hden).
  - destruct (ensure_access_run u ctx w) as [-> | ->]; [exact IH | reflexivity].
Qed.

(** X27. The access check covers every URI argument, not only the first:
    [mv] to a destination the caller may not access, [unlink] of a target the
    caller may not access and [link] to a list of targets one of which the
    caller may not access all raise [PermissionError] and change nothing,
    whether or not the source URI is accessible. *)
Theorem target_access_is_checked (w : world) (ctx : option RequestContext)
    (from_uri target reason : string) (before after : list string) :
  VikingFS._is_accessible target (VikingFS._ctx_or_default w ctx) = false ->
  VikingFS.mv from_uri target ctx w = (inl PermissionError, w)
  /\ VikingFS.unlink from_uri target ctx w = (inl PermissionError, w)
  /\ VikingFS.link from_uri (before ++ target :: after) reason ctx w
     = (inl PermissionError, w).
Proof.
  intros Hden.
  pose proof (ensure_access_denied target ctx w Hden) as Htarget.
  pose proof (ensure_access_some_denied before after target ctx w Hden) as Hall.
  split; [|split].
  - unfold VikingFS.mv. unfold bind at 1.
    destruct (ensure_access_run from_uri ctx w) as [-> | ->]; [|reflexivity].
    unfold bind at 1. now rewrite Htarget.
  - unfold VikingFS.unlink. unfold bind at 1.
    destruct (ensure_access_run from_uri ctx w) as [-> | ->]; [|reflexivity].
    unfold bind at 1. now rewrite Htarget.
  - unfold VikingFS.link. unfold bind at 1.
    destruct (ensure_access_run from_uri ctx w) as [-> | ->]; [|reflexivity].
    unfold bind at 1. now rewrite Hall.
Qed.

Lemma target_access_is_checked_witness :
  VikingFS.mv "viking://user/alice/memories" "viking://user/bob/inbox"
    (Some alice_ctx) two_notes_world = (inl PermissionError, two_notes_world)
  /\ VikingFS.unlink "viking://user/alice/memories" "viking://user/bob/inbox"
       (Some alice_ctx) two_notes_world = (inl PermissionError, two_notes_world)
  /\ VikingFS.link "viking://user/alice/memories"
       (["viking://resources/docs"] ++ "viking://user/bob/inbox" :: []) "see also"
       (Some alice_ctx) two_notes_world = (inl PermissionError, two_notes_world).
Proof.
  apply (target_access_is_checked two_notes_world (Some alice_ctx)
           "viking://user/alice/memories" "viking://user/bob/inbox" "see also"
           ["viking://resources/docs"] []).
  vm_compute. reflexivity.
Defined.

(** ** The hosted adapters: URIs read back from the service *)

Lemma startswith_viking (s : string) : Str.startswith "viking://" ("viking://" +:+ s) = true.
Proof. unfold Str.startswith. now apply prefix_append. Qed.

Lemma normalize_key_lookup (key k : string) (r : record) :
  HostedAdapter.normalize_key key r !! k
  = if String.eqb k key then HostedAdapter.normalized <$> r !! key else r !! k.
Proof.
  unfold HostedAdapter.normalize_key.
  destruct (String.eqb_spec k key) as [->|Hne].
  - destruct (r !! key) as [v|] eqn:Ek; [|now rewrite Ek].
    cbn [fmap option_fmap option_map]. unfold HostedAdapter.normalized.
    destruct v; try (now rewrite Ek).
    destruct (Str.startswith "viking://" s); cbn [negb]; [now rewrite Ek|].
    destruct (Str.nonempty (Str.strip_slash s)); [|now rewrite Ek].
    now rewrite lookup_insert_eq.
  - destruct (r !! key) as [[]|]; try reflexivity.
    destruct (negb _); [|reflexivity].
    destruct (Str.nonempty _); [|reflexivity].
    now rewrite lookup_insert_ne by congruence.
Qed.

Lemma normalized_idem (v : pyval) :
  HostedAdapter.normalized (HostedAdapter.normalized v) = HostedAdapter.normalized v.
Proof.
  destruct v; try reflexivity. unfold HostedAdapter.normalized at 2.
  destruct (Str.startswith "viking://" s) eqn:Es; [reflexivity|].
  destruct (Str.nonempty (Str.strip_slash s)) eqn:En; [|reflexivity].
  unfold HostedAdapter.normalized. cbv beta iota.
  now rewrite startswith_viking, Es, En.
Qed.

Lemma normalize_record_lookup (r : record) (k : string) :
  HostedAdapter._normalize_record_for_read r !! k
  = if String.eqb k "uri" || String.eqb k "parent_uri"
    then HostedAdapter.normalized <$> r !! k
    else r !! k.
Proof.
  unfold HostedAdapter._normalize_record_for_read. cbn [List.fold_left].
  rewrite normalize_key_lookup.
  destruct (String.eqb_spec k "parent_uri") as [->|Hp].
  - rewrite normalize_key_lookup. reflexivity.
  - rewrite normalize_key_lookup, orb_false_r.
    now destruct (String.eqb_spec k "uri") as [->|Hu].
Qed.

(** X28. What the hosted adapters hand back on a read: normalising a record
    twice is the same as normalising it once; every field but [uri] and
    [parent_uri] is left alone; and a [uri] or [parent_uri] that is a string
    comes back as a string that starts with [viking://] and has the same
    path segments, unless it consists of slashes only (or is empty), in
    which case it is left as it is. *)
Theorem hosted_normalize_record (r : record) :
  let r' := HostedAdapter._normalize_record_for_read r in
  HostedAdapter._normalize_record_for_read r' = r'
  /\ (forall k, k <> "uri" -> k <> "parent_uri" -> r' !! k = r !! k)
  /\ (forall k s, k = "uri" \/ k = "parent_uri" ->
        r !! k = Some (PStr s) ->
        exists s', r' !! k = Some (PStr s')
                   /\ (Str.startswith "viking://" s' = true
                       /\ VikingFS.uri_parts s' = Str.segments
                            (if Str.startswith "viking://" s then Str.drop 9 s else s)
                       \/ Str.segments s = [] /\ s' = s)).
Proof.
  cbv zeta. split; [|split].
  - apply map_eq. intros k. rewrite !normalize_record_lookup.
    destruct (String.eqb k "uri" || String.eqb k "parent_uri"); [|reflexivity].
    destruct (r !! k) as [v|]; [|reflexivity].
    cbn [fmap option_fmap option_map]. now rewrite normalized_idem.
  - intros k Hu Hp. rewrite normalize_record_lookup.
    apply String.eqb_neq in Hu, Hp. now rewrite Hu, Hp.
  - intros k s Hk Ek. rewrite normalize_record_lookup.
    assert (String.eqb k "uri" || String.eqb k "parent_uri" = true) as ->
      by (destruct Hk as [-> | ->]; reflexivity).
    rewrite Ek. cbn [fmap option_fmap option_map]. unfold HostedAdapter.normalized.
    destruct (Str.startswith "viking://" s) eqn:Es.
    + exists s. split; [reflexivity|]. left. split; [exact Es|].
      unfold VikingFS.uri_parts. apply segments_strip_slash.
    + destruct (Str.nonempty (Str.strip_slash s)) eqn:En.
      * eexists. split; [reflexivity|]. left. split; [apply startswith_viking|].
        unfold VikingFS.uri_parts. rewrite segments_strip_slash.
        change (Str.drop 9 ("viking://" +:+ Str.strip_slash s)) with (Str.strip_slash s).
        apply segments_strip_slash.
      * exists s. split; [reflexivity|]. right. split; [|reflexivity].
        rewrite <- segments_strip_slash. unfold Str.nonempty in En.
        now destruct (Str.strip_slash s).
Qed.

(** ** [rm]: what each condition of the subtree purge is for *)

(** A record under the empty id is found by the query of the delete, but
    [delete] collects the ids that are truthy only: the record stays. *)
Lemma rm_keeps_record_under_empty_id :
  let res := VikingFS.rm "viking://user/alice/memories" true (Some alice_ctx)
               empty_id_world in
  res.1 = inr tt
  /\ List.map (fun kr : string * record =>
                 (kr.1, kr.2 !! "uri", kr.2 !! "account_id", kr.2 !! "owner_space"))
              (map_to_list (stored res.2))
     = [(EmptyString, Some (PStr "viking://user/alice/memories/n.md"),
         Some (PStr "acme"), Some (PStr "alice"))].
Proof. cbv zeta. split; vm_compute; reflexivity. Qed.

(** Without a vector store [rm] removes the blob and leaves the index alone. *)
Lemma rm_without_vector_store_keeps_index :
  let res := VikingFS.rm "viking://user/alice/memories" true (Some alice_ctx)
               no_store_world in
  res.1 = inr tt
  /\ List.map (fun kr : string * record => (kr.1, kr.2 !! "uri"))
              (map_to_list (stored res.2))
     = [("n1", Some (PStr "viking://user/alice/memories/n.md"));
        ("n2", Some (PStr "viking://user/alice/notes.md"))].
Proof. cbv zeta. split; vm_compute; reflexivity. Qed.

(** [rm] purges the subtree of the URI it derives from the path, here
    [viking://user/alice/memories]: a record indexed under the URI as it was
    given, with its doubled separator, stays. *)
Lemma rm_doubled_slash_keeps_record :
  let res := VikingFS.rm "viking://user/alice//memories" true (Some alice_ctx)
               doubled_slash_world in
  res.1 = inr tt
  /\ VikingFS._path_to_uri
       (VikingFS._uri_to_path "viking://user/alice//memories" alice_ctx) alice_ctx
     = "viking://user/alice/memories"
  /\ List.map (fun kr : string * record =>
                 (kr.1, kr.2 !! "uri", kr.2 !! "account_id", kr.2 !! "owner_space"))
              (map_to_list (stored res.2))
     = [("n3", Some (PStr "viking://user/alice//memories"),
         Some (PStr "acme"), Some (PStr "alice"))].
Proof. cbv zeta. repeat split; vm_compute; reflexivity. Qed.

Lemma rm_after_blob_store (w : world) (ctx : option RequestContext) (uri : string)
    (recursive : bool) :
  let real_ctx := VikingFS._ctx_or_default w ctx in
  VikingFS._is_accessible uri real_ctx = true ->
  agfs_rm w (VikingFS._uri_to_path uri real_ctx) recursive = inr tt ->
  VikingFS.rm uri recursive ctx w
  = VikingFS._delete_from_vector_store
      (VikingFS._collect_uris w (VikingFS._uri_to_path uri real_ctx) recursive ctx
       ++ [VikingFS._path_to_uri (VikingFS._uri_to_path uri real_ctx) real_ctx])
      ctx w.
Proof.
  intros real_ctx Hacc Hrm.
  unfold VikingFS.rm. unfold bind at 1. rewrite (ensure_access_ok uri ctx w Hacc).
  unfold bind at 1. unfold get_state at 1. fold real_ctx.
  unfold bind at 1. unfold VikingFS.agfs_rm_call. now rewrite Hrm.
Qed.

(** The delete resolves the ids through one query of at most 100000
    records per URI: of an index that holds more records, some stay,
    whatever they are. *)
Lemma rm_beyond_limit (c : Collection) :
  (Z.to_nat 100000 < size (coll_data c))%nat ->
  exists w' k r,
    VikingFS.rm "viking://resources/a" true (Some alice_ctx)
      (set_collection (Some c) quiet_world) = (inr tt, w')
    /\ stored w' !! k = Some r
    /\ coll_data c !! k = Some r.
Proof.
  intros Hsize. set (w := set_collection (Some c) quiet_world).
  rewrite (rm_after_blob_store w (Some alice_ctx) "viking://resources/a" true
             eq_refl eq_refl).
  assert (VikingFS._collect_uris w
            (VikingFS._uri_to_path "viking://resources/a"
               (VikingFS._ctx_or_default w (Some alice_ctx))) true (Some alice_ctx)
          ++ [VikingFS._path_to_uri
                (VikingFS._uri_to_path "viking://resources/a"
                   (VikingFS._ctx_or_default w (Some alice_ctx)))
                (VikingFS._ctx_or_default w (Some alice_ctx))]
          = ["viking://resources/a"]) as -> by (vm_compute; reflexivity).
  unfold VikingFS._delete_from_vector_store.
  change (vector_store w) with true. cbv iota.
  change (VikingFS._ctx_or_default w (Some alice_ctx)) with alice_ctx.
  unfold try_except, VikingVectorIndexBackend.delete_uris. cbn [for_each].
  unfold bind at 1. unfold bind at 1.
  destruct (adapter_delete_filter_sound w c
              (VikingVectorIndexBackend.delete_uri_filter alice_ctx "viking://resources/a")
              100000 eq_refl) as (n & c' & -> & Hsub & _ & Hbound).
  unfold ret at 1. unfold ret at 1.
  assert (Hne : size (coll_data c') <> 0%nat) by lia.
  apply map_size_ne_0_lookup_1 in Hne as (k & r & Hk).
  exists (set_collection (Some c') w), k, r.
  split; [reflexivity|]. split; [exact Hk|].
  exact (proj1 (map_subseteq_spec _ _) Hsub k r Hk).
Qed.

Lemma crowd_notes_size (l : list nat) :
  NoDup l ->
  size (list_to_map ((fun n : nat => ("r" +:+ pretty n, crowd_note n)) <$> l)
          : gmap string record)
  = length l.
Proof.
  intros Hnd. rewrite map_size_list_to_map.
  - now rewrite length_fmap.
  - rewrite <- list_fmap_compose. apply NoDup_fmap_2; [|exact Hnd].
    intros n m H.
    change (String "r" (pretty n) = String "r" (pretty m)) in H.
    injection H as H. now apply (inj pretty) in H.
Qed.

Lemma crowd_notes_lookup (l : list nat) (k : string) (r : record) :
  (list_to_map ((fun n : nat => ("r" +:+ pretty n, crowd_note n)) <$> l)
     : gmap string record) !! k = Some r ->
  k <> EmptyString
  /\ r !! "uri" = Some (PStr "viking://resources/a")
  /\ r !! "account_id" = Some (PStr "acme").
Proof.
  intros H.
  apply elem_of_list_to_map_2, list_elem_of_fmap in H as (n & [= -> ->] & _).
  split; [rewrite append_cons; discriminate|]. split; reflexivity.
Qed.

Lemma rm_beyond_limit_notes (l : list nat) :
  NoDup l ->
  (Z.to_nat 100000 < length l)%nat ->
  exists w' k r,
    VikingFS.rm "viking://resources/a" true (Some alice_ctx)
      (set_collection
         (Some {| coll_fields := context_collection_fields;
                  coll_data :=
                    list_to_map
                      ((fun n : nat => ("r" +:+ pretty n, crowd_note n)) <$> l) |})
         quiet_world) = (inr tt, w')
    /\ k <> EmptyString
    /\ stored w' !! k = Some r
    /\ r !! "account_id" = Some (PStr (account_id alice_ctx))
    /\ in_delete_scope alice_ctx "viking://resources/a" r
    /\ in_subtree "viking://resources/a" r.
Proof.
  intros Hnd Hlen.
  destruct (rm_beyond_limit
              {| coll_fields := context_collection_fields;
                 coll_data :=
                   list_to_map
                     ((fun n : nat => ("r" +:+ pretty n, crowd_note n)) <$> l) |})
    as (w' & k & r & Hrm & Hk & Hc).
  { cbn [coll_data]. now rewrite crowd_notes_size. }
  cbn [coll_data] in Hc.
  destruct (crowd_notes_lookup l k r Hc) as (Hne & Hu & Ha).
  exists w', k, r.
  split; [exact Hrm|]. split; [exact Hne|]. split; [exact Hk|]. split; [exact Ha|].
  split; [exact I|].
  exists "viking://resources/a". split; [exact Hu | now left].
Qed.

(** In an index of 100001 records of the resource [viking://resources/a],
    all of the caller's account and under non-empty ids, a record of the
    resource is left after [rm] of the resource. *)
Lemma rm_beyond_limit_keeps_record :
  exists w' k r,
    VikingFS.rm "viking://resources/a" true (Some alice_ctx) crowd_world = (inr tt, w')
    /\ k <> EmptyString
    /\ stored w' !! k = Some r
    /\ r !! "account_id" = Some (PStr (account_id alice_ctx))
    /\ in_delete_scope alice_ctx "viking://resources/a" r
    /\ in_subtree "viking://resources/a" r.
Proof.
  assert (Hlen : (Z.to_nat 100000 < length (seq 0 (Z.to_nat 100001)))%nat)
    by (rewrite length_seq; lia).
  exact (rm_beyond_limit_notes (seq 0 (Z.to_nat 100001)) (NoDup_seq 0 _) Hlen).
Qed.
